(** * I2R: the pipeline configuration parser and stage orchestration of [i2r.py]

    A shallow embedding of [src/i2r.py] (functions [parse], [read_config_file]
    and [main]) together with the properties of the orchestration core that
    the specification states about it.

    Modelling conventions.
    - A Python [str] is a [string] whose characters are the code points
      0..255.
    - A Python [dict] keeps its keys in insertion order, which
      [print_params] shows: it is a list of pairs with distinct keys, where
      an assignment to a known key replaces the value in place and an
      assignment to a new key appends. Lookup and assignment are written
      with stdpp's [!!] and [<[k := v]>].
    - A pandas [Series] is an association list: [pd.concat] appends, labels
      may repeat, and order is the file order.
    - [main] runs in a state and error monad: the state holds
      [global_params], [params], [previous_outFolder] and the trace of
      everything printed or dispatched; [sys.exit] and Python exceptions are
      outcomes that a bare [except:] catches.
    - What the Python runtime and the operating system decide ([eval], the
      text and ordering of floats, the result of a subprocess) is a field of
      the [runtime] record, over which every statement is quantified. *)

From Stdlib Require Import ZArith String Ascii List Bool Lia.
From stdpp Require Import base option strings list pretty.

#[local] Open Scope string_scope.
#[local] Open Scope Z_scope.

(** ** Python string primitives *)

Module PyStr.

Definition code (c : ascii) : N := N_of_ascii c.

(** [ch == d] for two characters. *)
Definition ch_eqb (c d : ascii) : bool := Ascii.eqb c d.

(** [str.isspace] for one character, as used by [str.strip()] without
    argument: the ASCII white space, the four separators 0x1c..0x1f,
    NEL (0x85) and the no-break space (0xa0). *)
Definition isspace (c : ascii) : bool :=
  let n := code c in
  ((9 <=? n) && (n <=? 13) || (28 <=? n) && (n <=? 32)
   || (n =? 133) || (n =? 160))%N.

(** The white space that [int()] and [float()] skip around a literal:
    '\t' '\n' '\v' '\f' '\r' ' ', and the two Latin-1 spaces that the
    conversion to ASCII turns into ' '. *)
Definition isspace_num (c : ascii) : bool :=
  let n := code c in
  ((9 <=? n) && (n <=? 13) || (n =? 32) || (n =? 133) || (n =? 160))%N.

Definition isdigit (c : ascii) : bool :=
  let n := code c in ((48 <=? n) && (n <=? 57))%N.

Definition digit_val (c : ascii) : Z := Z.of_N (code c) - 48.

(** ASCII lower-casing of one character. *)
Definition lower (c : ascii) : ascii :=
  let n := code c in
  if ((65 <=? n) && (n <=? 90))%N then ascii_of_N (n + 32) else c.

Fixpoint lstrip_by (P : ascii -> bool) (s : string) : string :=
  match s with
  | String c s' => if P c then lstrip_by P s' else s
  | EmptyString => EmptyString
  end.

Fixpoint rstrip_by (P : ascii -> bool) (s : string) : string :=
  match s with
  | String c s' =>
      match rstrip_by P s' with
      | EmptyString => if P c then EmptyString else String c EmptyString
      | r => String c r
      end
  | EmptyString => EmptyString
  end.

Definition strip_by (P : ascii -> bool) (s : string) : string :=
  rstrip_by P (lstrip_by P s).

(** [s.strip()] *)
Definition strip (s : string) : string := strip_by isspace s.
(** [s.strip(c)] and [s.rstrip(c)] for a one-character argument. *)
Definition strip_ch (c : ascii) (s : string) : string := strip_by (ch_eqb c) s.
Definition rstrip_ch (c : ascii) (s : string) : string := rstrip_by (ch_eqb c) s.

(** [s.replace(c, '')] for a one-character [c]. *)
Fixpoint remove_ch (c : ascii) (s : string) : string :=
  match s with
  | String d s' => if ch_eqb c d then remove_ch c s' else String d (remove_ch c s')
  | EmptyString => EmptyString
  end.

(** [s.split(c)] for a one-character separator: never the empty list. *)
Fixpoint split (c : ascii) (s : string) : list string :=
  match s with
  | EmptyString => [EmptyString]
  | String d s' =>
      if ch_eqb c d then EmptyString :: split c s'
      else match split c s' with
           | w :: ws => String d w :: ws
           | [] => [String d EmptyString]
           end
  end.

(** [needle in hay] for two strings. *)
Fixpoint contains (needle hay : string) : bool :=
  String.prefix needle hay ||
  match hay with
  | String _ hay' => contains needle hay'
  | EmptyString => false
  end.

(** [s in l] for a list of strings. *)
Definition in_list (s : string) (l : list string) : bool :=
  existsb (String.eqb s) l.

Definition map_ch (f : ascii -> ascii) (s : string) : string :=
  string_of_list_ascii (List.map f (list_ascii_of_string s)).

End PyStr.

(** ** [int(str)] and [float(str)] *)

Module PyNum.
Import PyStr.

(** The digit limit of [int(str)] ([sys.int_info.default_max_str_digits]). *)
Definition max_str_digits : nat := 4300.

(** The digits of a literal after its sign. Underscores may only stand
    between two digits. [prev_digit] tells whether the previous character
    was a digit. The result is the digit characters without underscores. *)
Fixpoint digits_us (prev_digit : bool) (s : string) : option (list ascii) :=
  match s with
  | EmptyString => if prev_digit then Some [] else None
  | String c s' =>
      if isdigit c then cons c <$> digits_us true s'
      else if ch_eqb c "_" then
             if prev_digit then digits_us false s' else None
           else None
  end.

Definition Z_of_digits (ds : list ascii) : Z :=
  fold_left (fun acc d => 10 * acc + digit_val d) ds 0.

Definition split_sign (s : string) : bool * string :=
  match s with
  | String c s' =>
      if ch_eqb c "-" then (true, s')
      else if ch_eqb c "+" then (false, s')
      else (false, s)
  | EmptyString => (false, s)
  end.

(** [int(s)] in base 10: [None] stands for [ValueError]. *)
Definition py_int (s : string) : option Z :=
  let '(neg, body) := split_sign (strip_by isspace_num s) in
  match digits_us false body with
  | Some ds =>
      if (max_str_digits <? length ds)%nat then None
      else Some (if neg then - Z_of_digits ds else Z_of_digits ds)
  | None => None
  end.

(** Underscores in a float literal: each one between two digits. *)
Fixpoint underscores_ok (prev : option ascii) (s : string) : bool :=
  match s with
  | EmptyString =>
      match prev with Some p => negb (ch_eqb p "_") | None => true end
  | String c s' =>
      (if ch_eqb c "_" then
         match prev with Some p => isdigit p | None => false end
       else
         match prev with
         | Some p => negb (ch_eqb p "_") || isdigit c
         | None => true
         end)
      && underscores_ok (Some c) s'
  end.

(** A run of digits: how many, and the rest. *)
Fixpoint span_digits (s : string) : nat * string :=
  match s with
  | String c s' =>
      if isdigit c then let '(n, r) := span_digits s' in (S n, r) else (0%nat, s)
  | EmptyString => (0%nat, s)
  end.

Definition is_exp_mark (c : ascii) : bool := ch_eqb c "e" || ch_eqb c "E".

(** The decimal grammar of [strtod] after the sign:
    digits [. digits] [e [sign] digits], with a digit in the mantissa. *)
Definition decimal_ok (s : string) : bool :=
  let '(n1, r1) := span_digits s in
  let '(n2, r2) :=
    match r1 with
    | String c r => if ch_eqb c "." then span_digits r else (0%nat, r1)
    | EmptyString => (0%nat, r1)
    end in
  if (n1 + n2 =? 0)%nat then false
  else match r2 with
       | EmptyString => true
       | String c r =>
           if is_exp_mark c then
             let '(_, body) := split_sign r in
             let '(n3, r3) := span_digits body in
             negb (n3 =? 0)%nat && String.eqb r3 EmptyString
           else false
       end.

(** [float(s)] succeeds: a signed [inf], [infinity] or [nan] in any case,
    or a decimal literal, with white space around it. *)
Definition py_float_ok (s : string) : bool :=
  let t := strip_by isspace_num s in
  if contains "_" t && negb (underscores_ok None t) then false
  else
    let u := remove_ch "_" t in
    let '(_, body) := split_sign u in
    let low := map_ch lower body in
    in_list low ["inf"; "infinity"; "nan"] || decimal_ok body.

End PyNum.

(** ** Values, exceptions and the runtime *)

(** The values a parameter can hold after [parse], or as a default. *)
#[local] Unset Elimination Schemes.
Inductive value : Type :=
| VNone
| VBool (b : bool)
| VInt (n : Z)
| VFloat (lit : string)      (* the float that [float(lit)] denotes *)
| VStr (s : string)
| VList (l : list value).
#[local] Set Elimination Schemes.

(** A pandas Series of strings with string labels, in order. *)
Definition series : Type := list (string * string).

(** A Python dict from parameter names to values. *)
Abbreviation dict := (list (string * value)).

Module Dict.

(** [d[k]], with [None] for [KeyError] *)
Fixpoint get (k : string) (d : dict) : option value :=
  match d with
  | [] => None
  | (k', v) :: r => if String.eqb k k' then Some v else get k r
  end.

(** [d[k] = v] *)
Fixpoint set (k : string) (v : value) (d : dict) : dict :=
  match d with
  | [] => [(k, v)]
  | (k', v') :: r =>
      if String.eqb k k' then (k, v) :: r else (k', v') :: set k v r
  end.

End Dict.

#[global] Instance dict_lookup : Lookup string value dict := Dict.get.
#[global] Instance dict_insert : Insert string value dict := Dict.set.
#[global] Instance dict_empty : Empty dict := [].

Inductive exn : Type :=
| IndexError
| KeyError (k : string)
| ValueError
| AttributeError
| TypeError
| RecursionError
| OSError.

(** How a computation ends: normally, by [sys.exit] (the [SystemExit]
    exception, with its optional code), or by another exception. *)
Inductive outcome (A : Type) : Type :=
| Done (a : A)
| Exit (code : option Z)
| Raise (e : exn).
Arguments Done {A} a.
Arguments Exit {A} code.
Arguments Raise {A} e.

(** What the run shows to the outside. *)
Inductive event : Type :=
| Print (text : string)                 (* print(text) *)
| EPrint (text : string)                (* eprint(text), on stderr *)
| PrintHeader (function : value)        (* the bold line with params['function'] *)
| PrintParams (data : dict)             (* print_params(params) *)
| PrintSeries (data : series)           (* print_params(config) *)
| PrintValue (label : string) (v : value)   (* print(label, v) *)
| PrintTimer (function : value)         (* the elapsed-time line *)
| CheckOutput (prog : list string)      (* subprocess.check_output(prog) *)
| Run (prog : list string).             (* subprocess.run(prog) *)

(** The part of the Python runtime and of the machine that the model does
    not compute. [eval] is taken to end, either by raising or with a value
    of the type above. The two subprocess fields see the events so far. *)
Record runtime : Type := {
  py_eval : string -> option value;         (* eval(i); None when it raises *)
  float_str : string -> string;             (* str(float(lit)) *)
  float_cmp : string -> Z -> option comparison;
                                            (* float(lit) against n; None for nan *)
  str_repr : string -> string;              (* repr(s) *)
  check_output : list event -> list string -> option string;
                                            (* str(result); None when it raises *)
  subprocess_run : list event -> list string -> bool
                                            (* false when subprocess.run raises *)
}.

Module PyVal.
Import PyStr.

Section WithRuntime.
Context (rt : runtime).

Definition join (sep : string) (l : list string) : string :=
  match l with
  | [] => EmptyString
  | x :: r => fold_left (fun acc y => acc +:+ sep +:+ y) r x
  end.

(** [repr(v)] *)
Fixpoint py_repr (v : value) : string :=
  match v with
  | VNone => "None"
  | VBool b => if b then "True" else "False"
  | VInt n => pretty n
  | VFloat lit => float_str rt lit
  | VStr s => str_repr rt s
  | VList l => "[" +:+ join ", " (List.map py_repr l) +:+ "]"
  end.

(** [str(v)] *)
Definition py_str (v : value) : string :=
  match v with
  | VStr s => s
  | _ => py_repr v
  end.

(** The truth value of [v] in an [if]. *)
Definition truthy (v : value) : bool :=
  match v with
  | VNone => false
  | VBool b => b
  | VInt n => negb (n =? 0)
  | VFloat lit =>
      match float_cmp rt lit 0 with Some Eq => false | _ => true end
  | VStr s => negb (String.eqb s EmptyString)
  | VList l => match l with [] => false | _ => true end
  end.

(** [v == s] for a string [s]. *)
Definition eq_str (v : value) (s : string) : bool :=
  match v with
  | VStr s' => String.eqb s' s
  | _ => false
  end.

(** [v == b] for a boolean [b]: booleans are the integers 0 and 1. *)
Definition eq_bool (v : value) (b : bool) : bool :=
  let n := if b then 1 else 0 in
  match v with
  | VBool b' => Bool.eqb b' b
  | VInt m => m =? n
  | VFloat lit =>
      match float_cmp rt lit n with Some Eq => true | _ => false end
  | _ => false
  end.

(** [v > n] for an integer [n]: [TypeError] when [v] is not a number. *)
Definition gt_int (v : value) (n : Z) : outcome bool :=
  match v with
  | VBool b => Done ((if b then 1 else 0) >? n)
  | VInt m => Done (m >? n)
  | VFloat lit =>
      Done (match float_cmp rt lit n with Some Gt => true | _ => false end)
  | _ => Raise TypeError
  end.

(** [v.rstrip('/')]: only a [str] has the method. *)
Definition rstrip_slash (v : value) : outcome string :=
  match v with
  | VStr s => Done (rstrip_ch "/" s)
  | _ => Raise AttributeError
  end.

End WithRuntime.
End PyVal.

(** ** Value coercion: [parse] *)

Module Coerce.
Import PyStr PyNum.

Section WithRuntime.
Context (rt : runtime).

(** [for j in range(len(split)): split[j] = parse(split[j])], which
    stops at the first element whose coercion raises. *)
Fixpoint parse_each (parse : string -> outcome value) (split : list string)
  : outcome (list value) :=
  match split with
  | [] => Done []
  | x :: r =>
      match parse x with
      | Done v =>
          match parse_each parse r with
          | Done vs => Done (v :: vs)
          | Exit c => Exit c
          | Raise e => Raise e
          end
      | Exit c => Exit c
      | Raise e => Raise e
      end
  end.

(** [parse(i)] with a bound on the depth of the recursion. Every
    recursive call is on a strictly shorter string, so the depth
    [S (length i)] is never used up (see [parse_fuel_irrelevant]). *)
Fixpoint parse_fuel (fuel : nat) (i : string) : outcome value :=
  match fuel with
  | O => Raise RecursionError
  | S fuel =>
      if in_list i ["True"; "true"] then Done (VBool true)
      else if in_list i ["False"; "false"] then Done (VBool false)
      else
        match py_int i with
        | Some n => Done (VInt n)
        | None =>
            if py_float_ok i then Done (VFloat i)
            else if contains "pi" i then
              match py_eval rt i with
              | Some v => Done v
              | None => Done (VStr i)
              end
            else
              match i with
              | EmptyString => Raise IndexError          (* i[0] *)
              | String c _ =>
                  if negb (ch_eqb c "[") then Done (VStr i)
                  else
                    let split := split "," i in
                    let split := alter (strip_ch "[") 0%nat split in
                    let split :=
                      alter (strip_ch "]") (length split - 1)%nat split in
                    match parse_each (parse_fuel fuel) split with
                    | Done vs => Done (VList vs)
                    | _ => Done (VStr i)
                    end
              end
        end
  end.

Definition parse (i : string) : outcome value :=
  parse_fuel (S (String.length i)) i.

End WithRuntime.
End Coerce.

(** ** The state and error monad of the run *)

(** The variables of [main] that the stages share, and the trace. *)
Record state : Type := State {
  configs : list series;
  global_params : dict;
  params : dict;
  previous_outFolder : value;
  trace : list event
}.

Definition M (A : Type) : Type := state -> outcome A * state.

#[global] Instance M_ret : MRet M := fun A a s => (Done a, s).
#[global] Instance M_bind : MBind M := fun A B f m s =>
  match m s with
  | (Done a, s') => f a s'
  | (Exit c, s') => (Exit c, s')
  | (Raise e, s') => (Raise e, s')
  end.

Module Run.

Definition get {A} (proj : state -> A) : M A := fun s => (Done (proj s), s).

Definition set_configs (x : list series) : M unit := fun s =>
  (Done (), State x (global_params s) (params s) (previous_outFolder s) (trace s)).
Definition set_global_params (x : dict) : M unit := fun s =>
  (Done (), State (configs s) x (params s) (previous_outFolder s) (trace s)).
Definition set_params (x : dict) : M unit := fun s =>
  (Done (), State (configs s) (global_params s) x (previous_outFolder s) (trace s)).
Definition set_previous_outFolder (x : value) : M unit := fun s =>
  (Done (), State (configs s) (global_params s) (params s) x (trace s)).
(** An assignment [params[k] = v] changes the dict in place. *)
Definition update_params (f : dict -> dict) : M unit := fun s =>
  (Done (), State (configs s) (global_params s) (f (params s))
                  (previous_outFolder s) (trace s)).
Definition update_global_params (f : dict -> dict) : M unit := fun s =>
  (Done (), State (configs s) (f (global_params s)) (params s)
                  (previous_outFolder s) (trace s)).
Definition emit (e : event) : M unit := fun s =>
  (Done (), State (configs s) (global_params s) (params s)
                  (previous_outFolder s) (trace s ++ [e])%list).

(** [sys.exit()] is [sys_exit None], [sys.exit(n)] is [sys_exit (Some n)]. *)
Definition sys_exit {A} (code : option Z) : M A := fun s => (Exit code, s).
Definition raise {A} (e : exn) : M A := fun s => (Raise e, s).
Definition lift {A} (o : outcome A) : M A := fun s => (o, s).

(** [try: body except: handler]. A bare [except:] catches every
    exception, [SystemExit] included; what [body] did to the state before
    it raised stays done. *)
Definition try_except {A} (body handler : M A) : M A := fun s =>
  match body s with
  | (Done a, s') => (Done a, s')
  | (_, s') => handler s'
  end.

Definition when (b : bool) (m : M unit) : M unit :=
  if b then m else mret ().

(** [for x in l: body x] *)
Fixpoint for_each {A} (l : list A) (body : A -> M unit) : M unit :=
  match l with
  | [] => mret ()
  | x :: r => body x;; for_each r body
  end.

Definition print (text : string) : M unit := emit (Print text).

End Run.

(** ** Terminal colours and the fixed messages *)

Module Msg.
Definition esc : string := String (ascii_of_nat 27) EmptyString.
Definition nl : string := String (ascii_of_nat 10) EmptyString.
Definition dq : string := String (ascii_of_nat 34) EmptyString.
Definition red (s : string) : string := esc +:+ "[31m" +:+ s +:+ esc +:+ "[0m".
Definition yellow (s : string) : string := esc +:+ "[33m" +:+ s +:+ esc +:+ "[0m".
Definition cyan (s : string) : string := esc +:+ "[36m" +:+ s +:+ esc +:+ "[0m".
Definition bold (s : string) : string := esc +:+ "[1m" +:+ s +:+ esc +:+ "[0m".

Definition no_input_folder : string := "ERROR! No input folder specified".
Definition no_out_folder : string := "ERROR! No out folder specified".
Definition dot_needs_input_option : string :=
  red "ERROR! If inputFolder is set to '.' img2radiomics needs to be use with -i option to select the input path".
End Msg.

(** ** The configuration reader: [read_config_file] *)

Module Reader.
Import PyStr Run Msg.

(** The stage identifiers, in the order in which a line is matched
    against them. *)
Definition stage_names : list string :=
  ["GLOBAL_PARAMETERS"; "CHECK_FOLDER"; "REORGANIZE"; "DCM2NII";
   "SPATIAL_RESAMPLING"; "INTENSITY_RESAMPLING"; "MERGE_MASKS";
   "MASK_THRESHOLDING"; "I-WINDOWING"; "I-HARMONIZE";
   "N4-BIAS-FIELD-CORRECTION"; "RADIOMICS"; "DELETE"; "SEGMENTATION";
   "F-NORMALIZE"; "F-HARMONIZE"; "PREDICT"; "COPY"].

(** ['function' in config.index] *)
Definition has_label (k : string) (config : series) : bool :=
  existsb (fun kv => String.eqb kv.1 k) config.

(** [l[n]] for a list: [IndexError] out of range. *)
Definition nth_item (l : list string) (n : nat) : outcome string :=
  match l !! n with
  | Some x => Done x
  | None => Raise IndexError
  end.

(** [line.split('#')[0]]: [split] never gives the empty list. *)
Definition before_hash (line : string) : string :=
  match split "#" line with
  | x :: _ => x
  | [] => EmptyString
  end.

(** The local variables of [read_config_file]. *)
Record reader : Type := Reader {
  begin_param_list : bool;
  config : series
}.

Section WithArguments.
Context (config_File : string) (verbose : bool).

(** The body of [for raw_line in infile]. *)
Definition read_line (r : reader) (raw_line : string) : M reader :=
  let line := strip raw_line in
  match line with
  | EmptyString => mret r                                  (* skip empty line *)
  | String c0 _ =>
      if ch_eqb c0 "#" then mret r                         (* skip comment lines *)
      else if has_label "function" (config r) then
        if ch_eqb c0 "{" then mret (Reader true (config r))
        else if begin_param_list r then
          if ch_eqb c0 "}" then
            cs ← get configs;
            set_configs (cs ++ [config r])%list;;
            when verbose
              (print (esc +:+ "[1mThe following instruction was found in"
                      +:+ " " +:+ config_File +:+ " " +:+ esc +:+ "[0m");;
               emit (PrintSeries (config r)));;
            mret (Reader false [])
          else
            let line := remove_ch " " line in
            let line := remove_ch (ascii_of_nat 9) line in
            try_except
              (v ← lift (nth_item (split ":" (before_hash line)) 1);
               k ← lift (nth_item (split ":" line) 0);
               mret (Reader (begin_param_list r) (config r ++ [(k, v)])%list))
              (emit (EPrint (red ("ERROR in the PIPELINE file (" +:+ line +:+ ")")));;
               print (red "ERROR in the PIPELINE file" +:+ " ("
                      +:+ cyan line +:+ ")");;
               sys_exit (Some 1))
        else mret r
      else
        match List.find (fun n => contains n (before_hash line)) stage_names with
        | Some n =>
            mret (Reader (begin_param_list r) (config r ++ [("function", n)])%list)
        | None =>
            print (red "ERROR!" +:+ " The module " +:+ cyan (before_hash line)
                   +:+ " does not exist. Check the configuration file and documentation for more information on using PIPELINE files.");;
            sys_exit None
        end
  end.

Fixpoint read_lines (r : reader) (infile : list string) : M unit :=
  match infile with
  | [] => mret ()
  | raw_line :: rest => r' ← read_line r raw_line; read_lines r' rest
  end.

(** [read_config_file(config_File, configs, verbose)]; [infile] is the
    list of the lines of the file. *)
Definition read_config_file (infile : list string) : M unit :=
  read_lines (Reader false []) infile.

End WithArguments.
End Reader.

(** ** The steps shared by the stages of [main] *)

Module Step.
Import PyStr PyVal Run Msg.

(** [if not k in params.keys(): params[k] = v], for each row in order. *)
Definition fill (table : list (string * value)) (p : dict) : dict :=
  fold_left (fun p kv => match p !! kv.1 with
                         | Some _ => p
                         | None => <[kv.1 := kv.2]> p
                         end) table p.

Definition defaults (table : list (string * value)) : M unit :=
  update_params (fill table).

(** [k in d.keys()] *)
Definition is_key (k : string) (d : dict) : bool :=
  match d !! k with
  | Some _ => true
  | None => false
  end.

(** [k in params.keys()] *)
Definition has_key (k : string) : M bool :=
  p ← get params; mret (is_key k p).

(** [params[k]] *)
Definition getitem (k : string) : M value :=
  p ← get params;
  match p !! k with
  | Some v => mret v
  | None => raise (KeyError k)
  end.

(** [params[k] = v] *)
Definition setitem (k : string) (v : value) : M unit :=
  update_params <[k := v]>.

(** [global_params[k]] and [global_params[k] = v] *)
Definition global_getitem (k : string) : M value :=
  g ← get global_params;
  match g !! k with
  | Some v => mret v
  | None => raise (KeyError k)
  end.

Definition global_setitem (k : string) (v : value) : M unit :=
  update_global_params <[k := v]>.

(** [if not k in params.keys(): print(text); sys.exit(code)] *)
Definition require (k : string) (text : string) (code : option Z) : M unit :=
  b ← has_key k;
  when (negb b) (print text;; sys_exit code).

Section WithRun.
Context (rt : runtime) (inputPath : string) (verbose : bool).

(** [if params['inputFolder'] == '.': ...]: the path of the [-i] option
    replaces the dot; without the option the message is printed and
    nothing else is done. *)
Definition input_from_command_line : M unit :=
  v ← getitem "inputFolder";
  when (eq_str v ".")
    (if negb (String.eqb inputPath EmptyString)
     then setitem "inputFolder" (VStr inputPath)
     else print dot_needs_input_option).

(** [if params[k] == 'PREVIOUS_BLOCK_OUTPUT_FOLDER':
       params[k] = previous_outFolder] *)
Definition from_previous_block (k : string) : M unit :=
  v ← getitem k;
  when (eq_str v "PREVIOUS_BLOCK_OUTPUT_FOLDER")
    (prev ← get previous_outFolder; setitem k prev).

(** [if not 'outputFolder' in params.keys(): ...]: the folder is the
    input folder with the suffix when there is one; [otherwise] is the
    else branch of the stage. *)
Definition output_from_suffix (otherwise : M unit) : M unit :=
  b ← has_key "outputFolder";
  when (negb b)
    (b' ← has_key "outputFolderSuffix";
     if b' : bool then
       i ← getitem "inputFolder";
       base ← lift (rstrip_slash i);
       sfx ← getitem "outputFolderSuffix";
       setitem "outputFolder" (VStr (base +:+ "_" +:+ py_str rt sfx))
     else otherwise).

Definition no_out_folder_abort : M unit :=
  print (red no_out_folder);; sys_exit None.

(** [if verbose: print(bold params['function']); print_params(params)] *)
Definition show_params : M unit :=
  when verbose
    (f ← getitem "function"; emit (PrintHeader f);;
     p ← get params; emit (PrintParams p)).

(** *** Flags *)

(** [[name, str(params[key])]] *)
Definition opt (name key : string) : M (list string) :=
  v ← getitem key; mret [name; py_str rt v].

(** [if params[key]: flags.append(name)] *)
Definition switch (name key : string) : M (list string) :=
  v ← getitem key; mret (if truthy rt v then [name] else []).

(** [if not params[key]: flags.append(name)] *)
Definition switch_not (name key : string) : M (list string) :=
  v ← getitem key; mret (if truthy rt v then [] else [name]).

(** [if params[k1] and params[k2]: flags.append(name)] *)
Definition switch_and (name k1 k2 : string) : M (list string) :=
  v1 ← getitem k1;
  if truthy rt v1 then
    v2 ← getitem k2; mret (if truthy rt v2 then [name] else [])
  else mret [].

(** [if params[key] != '': flags.extend([name, str(params[key])])] *)
Definition opt_nonempty (name key : string) : M (list string) :=
  v ← getitem key;
  if negb (eq_str v EmptyString) then v' ← getitem key; mret [name; py_str rt v']
  else mret [].

(** The flag list, built left to right. *)
Fixpoint flags_of (parts : list (M (list string))) : M (list string) :=
  match parts with
  | [] => mret []
  | m :: r => x ← m; y ← flags_of r; mret (x ++ y)%list
  end.

(** *** Dispatch *)

(** [if params['timer']: tic = time.perf_counter()] *)
Definition tic : M unit := _ ← getitem "timer"; mret ().

(** [if params['timer']: toc = ...; print(the timer line)] *)
Definition toc : M unit :=
  t ← getitem "timer";
  when (truthy rt t) (f ← getitem "function"; emit (PrintTimer f)).

(** [subprocess.run(prog)] *)
Definition run_prog (prog : list string) : M unit :=
  tr ← get trace;
  emit (Run prog);;
  if subprocess_run rt tr prog then mret () else raise OSError.

(** [subprocess.check_output(prog)], as the text of [str(result)] *)
Definition check_output_prog (prog : list string) : M string :=
  tr ← get trace;
  emit (CheckOutput prog);;
  match check_output rt tr prog with
  | Some result => mret result
  | None => raise OSError
  end.

(** The [try] block that most stages end with. *)
Definition timed_run (prog : list string) (error_text : string) : M unit :=
  try_except
    (tic;; run_prog prog;; toc)
    (print error_text).

Definition python (script : string) (flags : list string) : list string :=
  ("python" :: script :: flags)%list.

End WithRun.
End Step.

(** ** The stages of [main], one per branch of its [if]/[elif] chain

    Each stage is split where the source has its [#FLAGS] comment: the
    resolution of the parameters (defaults, required keys, folder tokens),
    and the dispatch (flags and subprocess). *)

Module Stages.
Import PyStr PyVal Run Msg Step.

Definition ready_text : string :=
  "Folder is correctly structured for the image processing pipeline".
Definition ready_to_reorganize_text : string :=
  "Folder is correctly structured to be restructed with reorganize.py".

(** The two tests of [CHECK_FOLDER] on the output of the probe. *)
Definition says_ready (result : string) : bool :=
  contains ready_text result.
Definition says_ready_to_reorganize (result : string) : bool :=
  contains ready_to_reorganize_text result.

Section WithRun.
Context (rt : runtime) (inputPath : string) (verbose : bool).

#[local] Abbreviation input_from_command_line :=
  (input_from_command_line inputPath).
#[local] Abbreviation output_from_suffix := (output_from_suffix rt).
#[local] Abbreviation show_params := (show_params verbose).
#[local] Abbreviation opt := (opt rt).
#[local] Abbreviation switch := (switch rt).
#[local] Abbreviation switch_not := (switch_not rt).
#[local] Abbreviation switch_and := (switch_and rt).
#[local] Abbreviation opt_nonempty := (opt_nonempty rt).
#[local] Abbreviation timed_run := (timed_run rt).

(** *** CHECK FOLDER *)

Definition CHECK_FOLDER_resolve : M unit :=
  defaults [("timer", VBool false); ("log", VStr ""); ("verbose", VBool false);
            ("new_log_file", VBool false); ("with-segmentation", VBool true)];;
  require "inputFolder" (red no_input_folder) None;;
  input_from_command_line;;
  show_params.

Definition CHECK_FOLDER_dispatch : M unit :=
  flags ← flags_of
    [opt "-i" "inputFolder"; opt "--log" "log"; switch "-v" "verbose";
     switch "--new_log" "new_log_file";
     switch_not "--no-segmentation" "with-segmentation"];
  let prog := python "src/StructFolderCheck.py" flags in
  try_except
    (tic;;
     result ← check_output_prog rt prog;
     toc rt;;
     (if says_ready result then
        global_setitem "Structure" (VStr "Ready")
      else if says_ready_to_reorganize result then
        global_setitem "Structure" (VStr "Ready_to_reorganize")
      else
        global_setitem "Structure" (VStr "Invalid");;
        sys_exit None);;
     when verbose
       (st ← global_getitem "Structure";
        emit (PrintValue (bold "FOLDER STRUCTURE:") st)))
    (print (red "ERROR running the script StructFolderCheck.py")).

Definition CHECK_FOLDER : M unit :=
  CHECK_FOLDER_resolve;; CHECK_FOLDER_dispatch.

(** *** REORGANIZE *)

Definition REORGANIZE_resolve : M unit :=
  defaults [("timer", VBool false); ("with-segmentation", VBool true);
            ("all-data-with-segmentation", VBool true);
            ("verbose", VBool false); ("new_log_file", VBool false)];;
  require "inputFolder" (red no_input_folder) None;;
  input_from_command_line;;
  output_from_suffix (setitem "outputFolder" (VStr ""));;
  from_previous_block "inputFolder";;
  defaults [("inplace", VBool false); ("log", VStr ""); ("skip", VStr "");
            ("include", VStr ""); ("multiprocessing", VInt 1);
            ("mv", VStr "False")];;
  show_params.

Definition REORGANIZE_dispatch : M unit :=
  g ← get global_params;
  when (negb (is_key "Structure" g))
    (global_setitem "Structure" (VStr "Unknow"));;
  st ← global_getitem "Structure";
  emit (PrintValue "global_params['Structure']:: " st);;
  if eq_str st "Invalid" then
    print "ERROR! Current folder cannot be reorganize";;
    sys_exit None
  else if eq_str st "Ready" then
    print "Current folder is already ready for processing";;
    inplace ← getitem "inplace";
    when (eq_bool rt inplace false)
      (flags ← flags_of
         [opt "-i" "inputFolder"; opt "-o" "outputFolder"; opt "--log" "log";
          switch "--mv" "mv"; switch "-v" "verbose";
          switch "--new_log" "new_log_file"];
       timed_run (python "src/no_reorganize.py" flags)
         (red "ERROR running the script no_reorganize.py"))
  else
    flags ← flags_of
      [opt "-i" "inputFolder"; opt "-o" "outputFolder"; opt "--log" "log";
       switch "-v" "verbose"; switch "--new_log" "new_log_file";
       switch_not "--no-segmentation" "with-segmentation";
       switch_and "--all-segmentation" "all-data-with-segmentation"
                  "with-segmentation";
       switch "--inplace" "inplace"; opt_nonempty "-S" "skip";
       opt_nonempty "--include" "include"; opt "-j" "multiprocessing"];
    timed_run (python "src/reorganize_multiprocessing.py" flags)
      (red "ERROR running the script reorganize.py").

Definition REORGANIZE : M unit :=
  REORGANIZE_resolve;; REORGANIZE_dispatch.

(** *** DCM2NII *)

Definition DCM2NII_resolve : M unit :=
  defaults [("timer", VBool false); ("with-segmentation", VBool true);
            ("all-data-with-segmentation", VBool true);
            ("verbose", VBool false); ("new_log_file", VBool false)];;
  require "inputFolder" (red no_input_folder) None;;
  input_from_command_line;;
  from_previous_block "inputFolder";;
  output_from_suffix (no_out_folder_abort);;
  defaults [("mask_regMatch", VStr ".*"); ("log", VStr "");
            ("multiprocessing", VInt 1); ("skip", VStr "");
            ("include", VStr "")];;
  show_params.

Definition DCM2NII_dispatch : M unit :=
  flags ← flags_of
    [opt "-i" "inputFolder"; opt "-o" "outputFolder"; opt "--log" "log";
     opt "-j" "multiprocessing"; opt "-m" "mask_regMatch";
     switch "-v" "verbose"; switch "--new_log" "new_log_file";
     switch_not "--no-segmentation" "with-segmentation";
     switch_and "--all-segmentation" "all-data-with-segmentation"
                "with-segmentation";
     opt_nonempty "-S" "skip"; opt_nonempty "--include" "include"];
  timed_run (python "src/dcm2nii_multiprocessing.py" flags)
    (red "ERROR running the script dcm2nii_multiprocessing.py").

Definition DCM2NII : M unit := DCM2NII_resolve;; DCM2NII_dispatch.

(** *** SPATIAL RESAMPLING *)

Definition SPATIAL_RESAMPLING_resolve : M unit :=
  defaults [("timer", VBool false); ("with-segmentation", VBool true);
            ("all-data-with-segmentation", VBool true);
            ("verbose", VBool false); ("new_log_file", VBool false);
            ("use_c3d", VBool false)];;
  require "inputFolder" (red no_input_folder) None;;
  input_from_command_line;;
  from_previous_block "inputFolder";;
  output_from_suffix (no_out_folder_abort);;
  defaults [("voxel_size", VInt 1); ("image_interpolation", VStr "Linear");
            ("mask_interpolation", VStr "NearestNeighbor");
            ("suffix_name", VStr "111"); ("skip", VStr "");
            ("include", VStr ""); ("multiprocessing", VInt 1);
            ("log", VStr "")];;
  show_params.

Definition SPATIAL_RESAMPLING_dispatch : M unit :=
  flags ← flags_of
    [opt "-i" "inputFolder"; opt "-o" "outputFolder"; opt "--log" "log";
     opt "-j" "multiprocessing"; opt "-I" "image_interpolation";
     opt "-M" "mask_interpolation"; opt "-M" "mask_interpolation";
     opt "-s" "voxel_size"; opt "-e" "suffix_name";
     switch "-v" "verbose"; switch "--new_log" "new_log_file";
     switch "--use_c3d" "use_c3d";
     switch_not "--no-segmentation" "with-segmentation";
     switch_and "--all-segmentation" "all-data-with-segmentation"
                "with-segmentation";
     opt_nonempty "-S" "skip"; opt_nonempty "--include" "include"];
  timed_run (python "src/NiftiSpatialResampling_multiprocessing.py" flags)
    (red "ERROR running the script NiftiSpatialResampling_multiprocessing.py").

Definition SPATIAL_RESAMPLING : M unit :=
  SPATIAL_RESAMPLING_resolve;; SPATIAL_RESAMPLING_dispatch.

(** *** INTENSITY RESAMPLING *)

Definition INTENSITY_RESAMPLING_resolve : M unit :=
  defaults [("timer", VBool false); ("verbose", VBool false);
            ("new_log_file", VBool false)];;
  require "inputFolder" (red no_input_folder) None;;
  input_from_command_line;;
  from_previous_block "inputFolder";;
  output_from_suffix (setitem "outputFolder" (VStr ""));;
  defaults [("image_filename", VStr "img.nii.gz"); ("mask_filename", VStr "");
            ("resampled_image_filename", VStr "img_r.nii.gz");
            ("suffix_name", VStr ""); ("method", VStr "binning_number");
            ("n_bins", VInt 256); ("bin_width", VInt 25);
            ("min_scaling", VInt 0); ("max_scaling", VInt 1);
            ("lower_bound", VInt 2); ("upper_bound", VInt 98);
            ("suffix_name", VStr ""); ("skip", VStr ""); ("include", VStr "");
            ("multiprocessing", VInt 1); ("log", VStr "")];;
  show_params.

Definition INTENSITY_RESAMPLING_dispatch : M unit :=
  flags ← flags_of
    [opt "-i" "inputFolder"; opt "-o" "outputFolder"; opt "--log" "log";
     opt "-j" "multiprocessing"; opt "--img_name" "image_filename";
     opt "--msk_name" "mask_filename";
     opt "--resampled_img_name" "resampled_image_filename";
     opt "-e" "suffix_name"; opt "--method" "method";
     opt "--n_bins" "n_bins"; opt "--bin_width" "bin_width";
     opt "--scale_min" "min_scaling"; opt "--scale_max" "max_scaling";
     opt "--lower_bound" "lower_bound"; opt "--upper_bound" "upper_bound";
     switch "-v" "verbose"; switch "--new_log" "new_log_file";
     opt_nonempty "-S" "skip"; opt_nonempty "--include" "include"];
  timed_run (python "src/NiftiIntensityResampling_multiprocessing.py" flags)
    (red "ERROR running the script NiftiSpatialResampling_multiprocessing.py").

Definition INTENSITY_RESAMPLING : M unit :=
  INTENSITY_RESAMPLING_resolve;; INTENSITY_RESAMPLING_dispatch.

(** *** MERGE MASKS *)

Definition MERGE_MASKS_resolve : M unit :=
  defaults [("timer", VBool false); ("verbose", VBool false);
            ("new_log_file", VBool false)];;
  require "inputFolder" (red no_input_folder) None;;
  input_from_command_line;;
  output_from_suffix (setitem "outputFolder" (VStr ""));;
  from_previous_block "inputFolder";;
  defaults [("image_filename", VStr "img.nii.gz");
            ("resampled_image_filename", VStr "r_img.nii.gz");
            ("mask_filename", VStr ""); ("multiprocessing", VInt 1);
            ("log", VStr "")];;
  reg ← has_key "reg";
  add ← has_key "add";
  when (negb (xorb reg add))
    (print (red "ERROR! To determine the masks to add and substract the options add and sub OR reg need to be used");;
     sys_exit None);;
  add ← has_key "add";
  sub ← has_key "sub";
  when (add && negb sub) (setitem "sub" (VStr ""));;
  defaults [("skip", VStr ""); ("include", VStr "")];;
  show_params.

Definition MERGE_MASKS_dispatch : M unit :=
  flags ← flags_of
    [opt "-i" "inputFolder"; opt "-o" "outputFolder"; opt "--log" "log";
     opt "-j" "multiprocessing"; opt "-m" "mask_name";
     (add ← has_key "add";
      if add : bool then
        a ← getitem "add"; s ← getitem "sub";
        mret ["--add"; py_str rt a; "--sub"; py_str rt s]
      else mret []);
     (reg ← has_key "reg";
      if reg : bool then r ← getitem "reg"; mret ["--reg"; py_str rt r]
      else mret []);
     switch "-v" "verbose"; switch "--new_log" "new_log_file";
     opt_nonempty "-S" "skip"; opt_nonempty "--include" "include"];
  timed_run (python "src/NiftiMergeVolumes_multiprocessing.py" flags)
    (red "ERROR running the script NiftiResampling_multiprocessing.py").

Definition MERGE_MASKS : M unit := MERGE_MASKS_resolve;; MERGE_MASKS_dispatch.

(** *** MASK THRESHOLDING *)

Definition MASK_THRESHOLDING_resolve : M unit :=
  defaults [("timer", VBool false); ("verbose", VBool false);
            ("new_log_file", VBool false)];;
  require "inputFolder" no_input_folder None;;
  input_from_command_line;;
  output_from_suffix (setitem "outputFolder" (VStr ""));;
  from_previous_block "inputFolder";;
  defaults [("image_filename", VStr "img.nii.gz");
            ("mask_filename", VStr "msk.nii.gz");
            ("multiprocessing", VInt 1); ("log", VStr ""); ("skip", VStr "");
            ("include", VStr ""); ("suffix_name", VStr "mask_thresholding");
            (* sys.float_info.min and sys.float_info.max *)
            ("min_threshold", VFloat "2.2250738585072014e-308");
            ("max_threshold", VFloat "1.7976931348623157e+308")];;
  show_params.

Definition MASK_THRESHOLDING_dispatch : M unit :=
  flags ← flags_of
    [opt "-i" "inputFolder"; opt "-o" "outputFolder"; opt "--log" "log";
     opt "-j" "multiprocessing"; opt "-M" "mask_filename";
     opt "-I" "image_filename"; opt "--min_thr" "min_threshold";
     opt "--max_thr" "max_threshold"; opt "-e" "suffix_name";
     switch "-v" "verbose"; switch "--new_log" "new_log_file";
     opt_nonempty "-S" "skip"; opt_nonempty "--include" "include"];
  timed_run (python "src/NiftiMaskThresholding_multiprocessing.py" flags)
    (red "ERROR running the script NiftiMaskThresholding_multiprocessing.py").

Definition MASK_THRESHOLDING : M unit :=
  MASK_THRESHOLDING_resolve;; MASK_THRESHOLDING_dispatch.

(** *** I-WINDOWING *)

Definition I_WINDOWING_resolve : M unit :=
  defaults [("timer", VBool false); ("verbose", VBool false);
            ("new_log_file", VBool false)];;
  require "inputFolder" (red no_input_folder) None;;
  input_from_command_line;;
  output_from_suffix (setitem "outputFolder" (VStr ""));;
  from_previous_block "inputFolder";;
  defaults [("image_filename", VStr "img.nii.gz");
            ("windowed_image_filename", VStr "img_w.nii.gz");
            ("window_name", VStr ""); ("suffix_name", VStr "");
            ("window_level", VInt (-5000)); ("window_width", VInt (-5000));
            ("multiprocessing", VInt 1); ("log", VStr ""); ("skip", VStr "");
            ("include", VStr "")];;
  show_params.

Definition I_WINDOWING_dispatch : M unit :=
  flags ← flags_of
    [opt "-i" "inputFolder"; opt "-o" "outputFolder"; opt "--log" "log";
     opt "-j" "multiprocessing"; opt "--img_name" "image_filename";
     opt "--windowed_img_name" "windowed_image_filename";
     opt "--WL" "window_level"; opt "--WW" "window_width";
     opt "--preset" "window_name"; opt "-e" "suffix_name";
     switch "-v" "verbose"; switch "--new_log" "new_log_file";
     opt_nonempty "-S" "skip"; opt_nonempty "--include" "include"];
  timed_run (python "src/NiftiWindowing_multiprocessing.py" flags)
    (red "ERROR running the script NiftiWindowing_multiprocessing.py").

Definition I_WINDOWING : M unit := I_WINDOWING_resolve;; I_WINDOWING_dispatch.

(** *** I-HARMONIZE *)

Definition I_HARMONIZE_resolve : M unit :=
  defaults [("timer", VBool false); ("verbose", VBool false);
            ("new_log_file", VBool false)];;
  require "inputFolder" (red no_input_folder) None;;
  input_from_command_line;;
  output_from_suffix (setitem "outputFolder" (VStr ""));;
  from_previous_block "inputFolder";;
  defaults [("image_filename", VStr "img.nii.gz"); ("mask_filename", VStr "")];;
  require "reference_image"
    (red "ERROR! I-HARMONIZE requires a reference image to perform harmonization")
    (Some 1);;
  defaults [("reference_mask", VStr "");
            ("harmonized_image_filename", VStr "h_img.nii.gz");
            ("method", VStr "histogram_matching"); ("n_bins", VInt 256);
            ("n_matchPoints", VInt 10); ("suffix_name", VStr "");
            ("multiprocessing", VInt 1); ("log", VStr ""); ("skip", VStr "");
            ("include", VStr "")];;
  show_params.

Definition I_HARMONIZE_dispatch : M unit :=
  flags ← flags_of
    [opt "-i" "inputFolder"; opt "-o" "outputFolder"; opt "--log" "log";
     opt "-j" "multiprocessing"; opt "--img_name" "image_filename";
     opt "--msk_name" "mask_filename"; opt "--ref_img" "reference_image";
     opt "--ref_msk" "reference_mask";
     opt "--harmonized_img_name" "harmonized_image_filename";
     opt "--method" "method"; opt "--n_bins" "n_bins";
     opt "--n_matchPoints" "n_matchPoints"; opt "-e" "suffix_name";
     switch "-v" "verbose"; switch "--new_log" "new_log_file";
     opt_nonempty "-S" "skip"; opt_nonempty "--include" "include"];
  timed_run (python "src/NiftiImageHarmonization_multiprocessing.py" flags)
    (red "ERROR running the script NiftiImageHarmonization_multiprocessing.py").

Definition I_HARMONIZE : M unit := I_HARMONIZE_resolve;; I_HARMONIZE_dispatch.

(** *** N4-BIAS-FIELD-CORRECTION *)

Definition N4_BIAS_FIELD_CORRECTION_resolve : M unit :=
  defaults [("timer", VBool false); ("verbose", VBool false);
            ("new_log_file", VBool false)];;
  require "inputFolder" (red no_input_folder) None;;
  input_from_command_line;;
  output_from_suffix (setitem "outputFolder" (VStr ""));;
  from_previous_block "inputFolder";;
  defaults [("image_filename", VStr "img.nii.gz"); ("mask_filename", VStr "");
            ("corrected_image_filename", VStr "img_n4biasCorr.nii.gz");
            ("bias_field_image_filename", VStr ""); ("suffix_name", VStr "");
            ("multiprocessing", VInt 1); ("log", VStr ""); ("skip", VStr "");
            ("include", VStr "")];;
  show_params.

Definition N4_BIAS_FIELD_CORRECTION_dispatch : M unit :=
  flags ← flags_of
    [opt "-i" "inputFolder"; opt "-o" "outputFolder"; opt "--log" "log";
     opt "-j" "multiprocessing"; opt "--img_name" "image_filename";
     opt "--msk_name" "mask_filename";
     opt "--corrected_img_name" "corrected_image_filename";
     opt "--bias_field_name" "bias_field_image_filename";
     opt "-e" "suffix_name";
     switch "-v" "verbose"; switch "--new_log" "new_log_file";
     opt_nonempty "-S" "skip"; opt_nonempty "--include" "include"];
  timed_run (python "src/NiftiN4BiasFieldCorrection_multiprocessing.py" flags)
    (red "ERROR running the script NiftiN4BiasFieldCorrection_multiprocessing.py").

Definition N4_BIAS_FIELD_CORRECTION : M unit :=
  N4_BIAS_FIELD_CORRECTION_resolve;; N4_BIAS_FIELD_CORRECTION_dispatch.

(** *** RADIOMICS *)

Definition RADIOMICS_resolve : M unit :=
  defaults [("timer", VBool false); ("verbose", VBool false);
            ("new_log_file", VBool false); ("save_at_the_end", VBool false);
            ("stats_filename", VStr "")];;
  require "inputFolder" no_input_folder None;;
  input_from_command_line;;
  from_previous_block "inputFolder";;
  c ← has_key "configs";
  pc ← has_key "pyradiomics_config";
  (if negb c && negb pc then
     print (red ("ERROR! Neither " +:+ dq +:+ "configs" +:+ dq +:+ " nor "
                 +:+ dq +:+ "pyradiomics_config" +:+ dq +:+ " is specified."));;
     sys_exit None
   else
     defaults [("configs", VStr ""); ("pyradiomics_config", VStr "")]);;
  output_from_suffix (setitem "outputFolder" (VStr "~/"));;
  defaults [("image_filename", VStr "img.nii.gz");
            ("mask_filename", VStr "msk.nii.gz");
            ("radiomics_filename", VStr "radiomics.xlsx");
            ("multiprocessing", VInt 1); ("log", VStr ""); ("skip", VStr "");
            ("include", VStr "")];;
  save ← getitem "save_at_the_end";
  many ← (if eq_bool rt save true
          then j ← getitem "multiprocessing"; lift (gt_int rt j 1)
          else mret false);
  when many
    (setitem "save_at_the_end" (VBool false);;
     print (yellow "WARNING: With multiprocessing option, radiomics results cannot be saved at the end. Save at the end was set to False"));;
  show_params.

Definition RADIOMICS_dispatch : M unit :=
  flags ← flags_of
    [opt "-i" "inputFolder"; opt "-o" "outputFolder"; opt "--log" "log";
     opt "-j" "multiprocessing"; opt "-I" "image_filename";
     opt "-M" "mask_filename"; opt "-R" "radiomics_filename";
     opt "-c" "configs"; opt "-p" "pyradiomics_config";
     opt "--stats_filename" "stats_filename";
     switch "-v" "verbose"; switch "--new_log" "new_log_file";
     switch "-x" "save_at_the_end";
     opt_nonempty "-S" "skip"; opt_nonempty "--include" "include"];
  timed_run (python "src/radiomics_multiprocessing.py" flags)
    (red "ERROR running the script radiomics_multiprocessing.py").

Definition RADIOMICS : M unit := RADIOMICS_resolve;; RADIOMICS_dispatch.

(** *** DELETE *)

Definition DELETE_resolve : M unit :=
  defaults [("timer", VBool false); ("verbose", VBool false);
            ("log", VStr "")];;
  require "folder" (red "ERROR! No folder to delete") None;;
  from_previous_block "folder";;
  show_params.

Definition DELETE_dispatch : M unit :=
  flags ← flags_of
    [opt "-f" "folder"; opt "--log" "log"; switch "-v" "verbose"];
  timed_run (python "src/delete_folder.py" flags)
    (red "ERROR running the script delete_folder.py").

Definition DELETE : M unit := DELETE_resolve;; DELETE_dispatch.

(** *** SEGMENTATION *)

Definition SEGMENTATION_resolve : M unit :=
  defaults [("timer", VBool false); ("verbose", VBool false);
            ("new_log_file", VBool false);
            ("skip-segmented-data", VBool false); ("log", VStr "")];;
  require "inputFolder" (red no_input_folder) None;;
  input_from_command_line;;
  from_previous_block "inputFolder";;
  defaults [("skip", VStr ""); ("include", VStr "");
            ("multiprocessing", VInt 1); ("method", VStr "TotalSegmentator");
            ("segmentation-list", VStr ""); ("image_type", VStr "nifti")];;
  b ← has_key "image_filename";
  when (negb b)
    (t ← getitem "image_type";
     if existsb (eq_str t) ["NIFTI"; "Nifti"; "nifti"]
     then setitem "image_filename" (VStr "")
     else setitem "image_filename" (VStr "DCM"));;
  defaults [("job_scheduler", VStr "SGE")];;
  show_params.

Definition SEGMENTATION_dispatch : M unit :=
  flags ← flags_of
    [opt "-i" "inputFolder"; opt "--log" "log"; opt "-j" "multiprocessing";
     switch "-v" "verbose"; switch "--new_log" "new_log_file";
     switch "--skip-segmented-data" "skip-segmented-data";
     opt_nonempty "-S" "skip"; opt_nonempty "--include" "include";
     opt "-m" "method"; opt "-f" "segmentation-list";
     opt "-I" "image_filename"; opt "-t" "image_type";
     opt "--job_scheduler" "job_scheduler"];
  let prog := python "src/segmentation_multiprocessing.py" flags in
  try_except
    (tic;;
     run_prog rt prog;;
     global_setitem "with-segmentation" (VBool true);;
     toc rt)
    (print (red "ERROR running the script radiomics_multiprocessing.py")).

Definition SEGMENTATION : M unit :=
  SEGMENTATION_resolve;; SEGMENTATION_dispatch.

(** *** F-NORMALIZE *)

Definition F_NORMALIZE_resolve : M unit :=
  defaults [("timer", VBool false); ("verbose", VBool false);
            ("new_log_file", VBool false); ("log", VStr "")];;
  require "inputFolder" (red no_input_folder) None;;
  input_from_command_line;;
  from_previous_block "inputFolder";;
  defaults [("outputFolder", VStr ""); ("modelFolder", VStr "");
            ("radiomics_filename", VStr "radiomics.xlsx");
            ("normalized_radiomics_filename", VStr "normalized_radiomics.xlsx");
            ("stats_filename", VStr ""); ("stratified", VStr "True");
            ("method", VStr "MinMax"); ("mode", VStr "Internal")];;
  show_params.

Definition F_NORMALIZE_dispatch : M unit :=
  flags ← flags_of
    [opt "-i" "inputFolder"; opt "--log" "log"; opt "-o" "outputFolder";
     opt "-m" "modelFolder"; opt "-R" "radiomics_filename";
     opt "-N" "normalized_radiomics_filename"; opt "-S" "stats_filename";
     opt "-M" "method"; opt "--stratified" "stratified";
     opt "--norm_dataset" "mode";
     switch "-v" "verbose"; switch "--new_log" "new_log_file"];
  timed_run (python "src/feature_normalization.py" flags)
    (red "ERROR running the script feature_normalization.py").

Definition F_NORMALIZE : M unit := F_NORMALIZE_resolve;; F_NORMALIZE_dispatch.

(** *** F-HARMONIZE *)

Definition F_HARMONIZE_resolve : M unit :=
  defaults [("timer", VBool false); ("verbose", VBool false);
            ("new_log_file", VBool false); ("log", VStr "")];;
  require "inputFolder" no_input_folder None;;
  input_from_command_line;;
  from_previous_block "inputFolder";;
  defaults [("outputFolder", VStr ""); ("modelFolder", VStr "");
            ("radiomics_filename", VStr "radiomics.xlsx");
            ("batch_filename", VStr "radiomics.xlsx");
            ("harmonized_radiomics_filename", VStr "harmonized_radiomics.xlsx");
            ("radiomics_from_model_filename", VStr "");
            ("batch_from_model_filename", VStr "");
            ("estimates_filename", VStr ""); ("ref_batch", VNone);
            ("mode", VStr "internal"); ("covars", VStr "")];;
  show_params.

Definition F_HARMONIZE_dispatch : M unit :=
  flags ← flags_of
    [opt "-i" "inputFolder"; opt "--log" "log"; opt "-o" "outputFolder";
     opt "-m" "modelFolder"; opt "-r" "radiomics_filename";
     opt "-b" "batch_filename"; opt "-R" "harmonized_radiomics_filename";
     opt "-E" "estimates_filename";
     opt "--radiomics_from_model" "radiomics_from_model_filename";
     opt "--batch_from_model" "batch_from_model_filename";
     opt "--ref_batch" "ref_batch"; opt "-M" "mode"; opt "--covars" "covars";
     switch "-v" "verbose"; switch "--new_log" "new_log_file"];
  timed_run (python "src/feature_harmonization.py" flags)
    (red "ERROR running the script feature_harmonization.py").

Definition F_HARMONIZE : M unit := F_HARMONIZE_resolve;; F_HARMONIZE_dispatch.

(** *** PREDICT *)

Definition PREDICT_resolve : M unit :=
  defaults [("timer", VBool false); ("verbose", VBool false);
            ("new_log_file", VBool false); ("log", VStr "")];;
  require "inputFolder" (red no_input_folder) None;;
  input_from_command_line;;
  from_previous_block "inputFolder";;
  defaults [("outputFolder", VStr ""); ("modelFolder", VStr "");
            ("radiomics_filename", VStr "radiomics.xlsx");
            ("predict_filename", VStr "predict.xlsx");
            ("model_filename", VStr "model.pkl")];;
  show_params.

Definition PREDICT_dispatch : M unit :=
  flags ← flags_of
    [opt "-i" "inputFolder"; opt "--log" "log"; opt "-o" "outputFolder";
     opt "-m" "modelFolder"; opt "-r" "radiomics_filename";
     opt "-p" "predict_filename"; opt "-M" "model_filename";
     switch "-v" "verbose"; switch "--new_log" "new_log_file"];
  timed_run (python "src/predict.py" flags)
    (red "ERROR running the script predict.py").

Definition PREDICT : M unit := PREDICT_resolve;; PREDICT_dispatch.

(** *** COPY *)

Definition COPY_resolve : M unit :=
  defaults [("timer", VBool false); ("verbose", VBool false);
            ("log", VStr "")];;
  require "inputFolder" (red no_input_folder) None;;
  input_from_command_line;;
  from_previous_block "inputFolder";;
  defaults [("targetFolder", VStr "")];;
  show_params.

Definition COPY_dispatch : M unit :=
  flags ← flags_of
    [opt "-i" "inputFolder"; opt "--log" "log"; opt "-o" "targetFolder";
     switch "-v" "verbose"];
  timed_run (python "src/copy_folder_contents.py" flags)
    (red "ERROR running the script predict.py").

Definition COPY : M unit := COPY_resolve;; COPY_dispatch.

End WithRun.
End Stages.

(** ** The driver: [main] after its command-line options are read *)

Module Orchestrator.
Import PyStr PyVal Coerce Run Msg Step Stages Reader.

(** What [cfg[k]] gives: the string under the label, or, when the label
    occurs more than once, the sub-series of all its entries. *)
Inductive cell : Type :=
| Scalar (s : string)
| SubSeries (l : list string).

(** [cfg[k]] *)
Definition series_getitem (cfg : series) (k : string) : outcome cell :=
  match List.filter (fun kv => String.eqb kv.1 k) cfg with
  | [] => Raise (KeyError k)
  | [(_, v)] => Done (Scalar v)
  | l => Done (SubSeries (List.map snd l))
  end.

(** [cfg[k] == s] used as a condition: the truth value of a series of
    several booleans is a [ValueError]. *)
Definition cell_eq (c : cell) (s : string) : outcome bool :=
  match c with
  | Scalar x => Done (String.eqb x s)
  | SubSeries _ => Raise ValueError
  end.

Section WithRun.
Context (rt : runtime) (configFile inputPath : string) (verbose : bool).

(** [parse(cfg[i])]: the membership test that opens [parse] compares its
    argument with a string, which for a sub-series is a [ValueError]. *)
Definition parse_cell (c : cell) : outcome value :=
  match c with
  | Scalar x => parse rt x
  | SubSeries _ => Raise ValueError
  end.

(** The [if]/[elif] chain of [main] on [cfg["function"]]: for each
    stage identifier, the two halves of its branch. *)
Definition stage_table : list (string * (M unit * M unit)) :=
  [
   ("CHECK_FOLDER", (CHECK_FOLDER_resolve inputPath verbose,
      CHECK_FOLDER_dispatch rt verbose));
   ("REORGANIZE", (REORGANIZE_resolve rt inputPath verbose,
      REORGANIZE_dispatch rt));
   ("DCM2NII", (DCM2NII_resolve rt inputPath verbose,
      DCM2NII_dispatch rt));
   ("SPATIAL_RESAMPLING", (SPATIAL_RESAMPLING_resolve rt inputPath verbose,
      SPATIAL_RESAMPLING_dispatch rt));
   ("INTENSITY_RESAMPLING", (INTENSITY_RESAMPLING_resolve rt inputPath verbose,
      INTENSITY_RESAMPLING_dispatch rt));
   ("MERGE_MASKS", (MERGE_MASKS_resolve rt inputPath verbose,
      MERGE_MASKS_dispatch rt));
   ("MASK_THRESHOLDING", (MASK_THRESHOLDING_resolve rt inputPath verbose,
      MASK_THRESHOLDING_dispatch rt));
   ("I-WINDOWING", (I_WINDOWING_resolve rt inputPath verbose,
      I_WINDOWING_dispatch rt));
   ("I-HARMONIZE", (I_HARMONIZE_resolve rt inputPath verbose,
      I_HARMONIZE_dispatch rt));
   ("N4-BIAS-FIELD-CORRECTION", (N4_BIAS_FIELD_CORRECTION_resolve rt inputPath verbose,
      N4_BIAS_FIELD_CORRECTION_dispatch rt));
   ("RADIOMICS", (RADIOMICS_resolve rt inputPath verbose,
      RADIOMICS_dispatch rt));
   ("DELETE", (DELETE_resolve verbose,
      DELETE_dispatch rt));
   ("SEGMENTATION", (SEGMENTATION_resolve inputPath verbose,
      SEGMENTATION_dispatch rt));
   ("F-NORMALIZE", (F_NORMALIZE_resolve inputPath verbose,
      F_NORMALIZE_dispatch rt));
   ("F-HARMONIZE", (F_HARMONIZE_resolve inputPath verbose,
      F_HARMONIZE_dispatch rt));
   ("PREDICT", (PREDICT_resolve inputPath verbose,
      PREDICT_dispatch rt));
   ("COPY", (COPY_resolve inputPath verbose,
      COPY_dispatch rt))].

Definition run_stage (function : string) : M unit :=
  match List.find (fun row => String.eqb function row.1) stage_table with
  | Some (_, (resolve, dispatch)) => resolve;; dispatch
  | None => mret ()
  end.

(** The body of the first loop, [#Check for default parameters]. *)
Definition load_global_parameters (cfg : series) : M unit :=
  f ← lift (series_getitem cfg "function");
  is_global ← lift (cell_eq f "GLOBAL_PARAMETERS");
  when is_global
    (for_each (List.map fst cfg) (fun i =>
       when (negb (String.eqb i "function"))
         (c ← lift (series_getitem cfg i);
          v ← lift (parse_cell c);
          global_setitem i v));;
     when verbose
       (print (esc +:+ "[1m" +:+ nl +:+ "GLOBAL_PARAMETERS: " +:+ esc +:+ "[0m");;
        g ← get global_params; emit (PrintParams g))).

(** [if 'outputFolder' in params.keys(): ...], the last statement of the
    body of the second loop. *)
Definition record_outputFolder : M unit :=
  p ← get params;
  match p !! "outputFolder" with
  | Some v => when (negb (eq_str v EmptyString)) (set_previous_outFolder v)
  | None => mret ()
  end.

(** [params = global_params.copy()] and
    [for i in cfg.index: params[i] = parse(cfg[i])] *)
Definition overlay (cfg : series) : M unit :=
  g ← get global_params;
  set_params g;;
  for_each (List.map fst cfg) (fun i =>
    c ← lift (series_getitem cfg i);
    v ← lift (parse_cell c);
    setitem i v).

(** The body of the second loop, [#run pipeline]. *)
Definition run_block (cfg : series) : M unit :=
  f ← lift (series_getitem cfg "function");
  is_global ← lift (cell_eq f "GLOBAL_PARAMETERS");
  when (negb is_global)
    (overlay cfg;;
     match f with
     | Scalar function => run_stage function
     | SubSeries _ => mret ()
     end);;
  record_outputFolder.

(** [main], from the call of [read_config_file] on; [infile] is the
    content of the configuration file, line by line. *)
Definition main (infile : list string) : M unit :=
  read_config_file configFile verbose infile;;
  cs ← get configs;
  for_each cs load_global_parameters;;
  cs ← get configs;
  for_each cs run_block.

(** The state in which [main] starts. *)
Definition initial : state :=
  State [] ∅ ∅ (VStr "") [].

End WithRun.
End Orchestrator.

(** ** The command line of [main]

    The first part of [main], up to the test that the configuration file
    exists. [getopt.getopt] is not modelled: its result, the list of the
    pairs of an option and its argument, is the argument of
    [read_options], and [None] stands for [GetoptError]. *)

Module Options.
Import PyStr Run Msg.

(** The local variables of [main] that the options set. *)
Record settings : Type := Settings {
  configFile : string;
  verbose : bool;
  log : string;
  inputPath : string;
  new_log : bool
}.

Definition start : settings := Settings "" false "" "" false.

Definition tab : string := String (ascii_of_nat 9) EmptyString.

(** The lines of the help page, one [print] each. *)
Definition help : list string :=
  ["NAME";
   tab +:+ "img2radiomics.py" +:+ nl;
   "SYNOPSIS";
   tab +:+ "StructFolderCheck.py [-h|--help][-v|--verbose][-i|--inputFolder <inputfolder>]" +:+ nl;
   "DESRIPTION";
   tab +:+ "img2Radiomics follow the instructions in the config file to transform images and extract radiomics features" +:+ nl;
   "OPTIONS";
   tab +:+ " -h, --help: print this help page";
   tab +:+ " -v, --verbose: False by default";
   tab +:+ " -c, --config: specify the path to the config file (see RADIOMICS_PIPELINE_EXAMPLE)";
   tab +:+ " -i, --input: specify the path to an input folder; to use this option, the path for the input folder in the config file needs to be set to '.'";
   tab +:+ " --log: stdout redirect to log file";
   tab +:+ " --new_log: overwrite previous log file"].

Definition usage : string := "img2radiomics.py -c <configFile>".
Definition missing_config : string :=
  red "Error: Missing configuration file. Use -c or --config to specify the path to the config file.".
Definition config_not_found (file : string) : string :=
  red ("Error: Configuration file '" +:+ file +:+ "' not found.").

(** The body of [for opt, arg in opts]. The last two tests are written
    [opt in ("--log")] and [opt in ("--new_log")]: the parentheses make
    no tuple, so these are tests for a substring. *)
Definition set_option (o : settings) (opt arg : string) : M settings :=
  if in_list opt ["-h"; "--help"] then
    for_each help print;; sys_exit None
  else if in_list opt ["-c"; "--config"] then
    mret (Settings arg (verbose o) (log o) (inputPath o) (new_log o))
  else if in_list opt ["-i"; "--input"] then
    mret (Settings (configFile o) (verbose o) (log o) arg (new_log o))
  else if in_list opt ["-v"; "--verbose"] then
    mret (Settings (configFile o) true (log o) (inputPath o) (new_log o))
  else if contains opt "--log" then
    mret (Settings (configFile o) (verbose o) arg (inputPath o) (new_log o))
  else if contains opt "--new_log" then
    mret (Settings (configFile o) (verbose o) (log o) (inputPath o) true)
  else mret o.

Fixpoint set_options (o : settings) (opts : list (string * string))
  : M settings :=
  match opts with
  | [] => mret o
  | (opt, arg) :: rest => o' ← set_option o opt arg; set_options o' rest
  end.

(** [try: opts, args = getopt.getopt(...) except ...] and the loop. *)
Definition read_options (parsed : option (list (string * string)))
  : M settings :=
  match parsed with
  | None => print usage;; sys_exit (Some 2)
  | Some opts => set_options start opts
  end.

(** [if not configFile: ...] and [if not os.path.isfile(configFile): ...] *)
Definition check_config_file (isfile : string -> bool) (o : settings)
  : M unit :=
  if String.eqb (configFile o) EmptyString then
    print missing_config;; sys_exit (Some 2)
  else if negb (isfile (configFile o)) then
    print (config_not_found (configFile o));; sys_exit (Some 2)
  else mret ().

Definition startup (isfile : string -> bool)
    (parsed : option (list (string * string))) : M settings :=
  o ← read_options parsed;
  check_config_file isfile o;;
  mret o.

End Options.

(** ** Sample machines and configuration files *)

Module Sample.
Import PyStr Stages Reader Orchestrator.

(** A machine on which [eval] always raises, the probe of the folder
    structure answers [answer] ([None]: it raises), and every other
    subprocess starts when [ok]. *)
Definition machine (answer : option string) (ok : bool) : runtime :=
  {| py_eval := fun _ => None;
     float_str := fun lit => lit;
     float_cmp := fun _ _ => None;
     str_repr := fun s => "'" +:+ s +:+ "'";
     check_output := fun _ _ => answer;
     subprocess_run := fun _ _ => ok |}.

(** The run of a configuration file given by its lines, without options. *)
Definition run (rt : runtime) (infile : list string) : outcome unit * state :=
  main rt "pipeline.txt" "" false infile initial.

Definition copy_block : series :=
  [("function", "COPY"); ("inputFolder", "/a"); ("outputFolder", "/b")].

(** Two stages; the block of the second one has the key [inputFolder]
    on two lines. *)
Definition duplicate_key_file : list string :=
  ["COPY"; "{"; "inputFolder: /a"; "outputFolder: /b"; "}";
   "COPY"; "{"; "inputFolder: /b"; "inputFolder: /c"; "outputFolder: /d"; "}"].

(** One stage whose input folder is the dot. *)
Definition dot_file : list string :=
  ["CHECK_FOLDER"; "{"; "inputFolder: ."; "}"].

(** A state in which [params] is [p], and nothing else has happened. *)
Definition with_params (p : dict) : state :=
  State [] ∅ p (VStr "") [].

Definition check_reorganize_radiomics : list string :=
  ["CHECK_FOLDER"; "{"; "inputFolder: /data"; "}";
   "REORGANIZE"; "{"; "inputFolder: PREVIOUS_BLOCK_OUTPUT_FOLDER";
   "outputFolderSuffix: ready"; "}";
   "RADIOMICS"; "{"; "inputFolder: PREVIOUS_BLOCK_OUTPUT_FOLDER";
   "configs: /cfg.txt"; "}"].

(** Three stages, the second of which is [RADIOMICS] without an output
    folder. *)
Definition radiomics_in_the_middle : list string :=
  ["DCM2NII"; "{"; "inputFolder: /in"; "outputFolder: /a"; "}";
   "RADIOMICS"; "{"; "inputFolder: PREVIOUS_BLOCK_OUTPUT_FOLDER";
   "configs: /cfg.txt"; "}";
   "COPY"; "{"; "inputFolder: PREVIOUS_BLOCK_OUTPUT_FOLDER"; "}"].

(** Three blocks, the second of which is [INTENSITY_RESAMPLING] without
    an output folder. *)
Definition convert_block : series :=
  [("function", "DCM2NII"); ("inputFolder", "/in"); ("outputFolder", "/a")].
Definition resample_block : series :=
  [("function", "INTENSITY_RESAMPLING");
   ("inputFolder", "PREVIOUS_BLOCK_OUTPUT_FOLDER")].
Definition copy_on_block : series :=
  [("function", "COPY"); ("inputFolder", "PREVIOUS_BLOCK_OUTPUT_FOLDER")].

(** A block of [MERGE_MASKS] with [add], and without [mask_name]. *)
Definition merge_block : series :=
  [("function", "MERGE_MASKS"); ("inputFolder", "/a"); ("add", "tumor")].

Definition check_block : series :=
  [("function", "CHECK_FOLDER"); ("inputFolder", "/data")].

(** The reader in the second block of that file, before the second
    [inputFolder] line. *)
Definition in_second_block : reader :=
  Reader true [("function", "COPY"); ("inputFolder", "/b")].

End Sample.

(** ** More sample inputs *)

Module Examples.
Import PyStr Stages Reader Orchestrator.

(** A file with a comment and a blank line inside its block. *)
Definition commented_file : list string :=
  ["COPY"; "{"; "# where the images are"; "inputFolder: /a"; "  "; "}"].

(** A block of global parameters. *)
Definition global_block : series :=
  [("function", "GLOBAL_PARAMETERS"); ("verbose", "True");
   ("multiprocessing", "4")].

(** The parameters of a stage just after the copy of its block. *)
Definition stage_params (function : string) (more : dict) : state :=
  State [] ∅ (("function", VStr function) :: more) (VStr "") [].

(** Every file is there. *)
Definition any_file (file : string) : bool := true.

(** A file whose second block repeats the label [function]. *)
Definition repeated_function_file : list string :=
  ["COPY"; "{"; "inputFolder: /a"; "outputFolder: /b"; "}";
   "DELETE"; "{"; "function: COPY"; "folder: /b"; "}"].

(** A file whose block of global parameters repeats a key, after the
    block of a stage. *)
Definition repeated_global_file : list string :=
  ["COPY"; "{"; "inputFolder: /a"; "outputFolder: /b"; "}";
   "GLOBAL_PARAMETERS"; "{"; "verbose: True"; "verbose: False"; "}"].

End Examples.

(** * Properties *)

(** ** Reasoning about the run *)

Module Logic.
Import PyStr PyVal Run Msg Step Stages Reader Orchestrator.

(** [wp m s Q]: the outcome and the final state of [m] from [s] satisfy [Q]. *)
Definition wp {A} (m : M A) (s : state) (Q : outcome A -> state -> Prop) : Prop :=
  Q (m s).1 (m s).2.

Lemma wp_intro {A} (m : M A) s (Q : outcome A -> state -> Prop) o s' :
  m s = (o, s') -> Q o s' -> wp m s Q.
Proof. unfold wp. intros ->. done. Qed.

Lemma wp_elim {A} (m : M A) s (Q : outcome A -> state -> Prop) o s' :
  wp m s Q -> m s = (o, s') -> Q o s'.
Proof. unfold wp. intros H E. by rewrite E in H. Qed.

Lemma wp_eq {A} (m : M A) s o s' :
  wp m s (fun o1 s1 => (o1, s1) = (o, s')) -> m s = (o, s').
Proof. unfold wp. by destruct (m s). Qed.

Lemma wp_done (m : M unit) s (P : state -> Prop) :
  wp m s (fun o s' => match o with Done _ => P s' | _ => True end) ->
  forall s', m s = (Done (), s') -> P s'.
Proof. unfold wp. intros H s' E. by rewrite E in H. Qed.

Lemma wp_pair {A} (m : M A) s (Q : outcome A -> state -> Prop) :
  wp m s Q -> Q (m s).1 (m s).2.
Proof. done. Qed.

Lemma wp_ret {A} (a : A) s (Q : outcome A -> state -> Prop) :
  Q (Done a) s -> wp (mret a) s Q.
Proof. done. Qed.

(** The continuation of a bind sees a normal result; an exit or an
    exception passes through. *)
Definition after {A B} (f : A -> M B) (Q : outcome B -> state -> Prop)
  : outcome A -> state -> Prop :=
  fun o s' =>
    match o with
    | Done a => wp (f a) s' Q
    | Exit c => Q (Exit c) s'
    | Raise e => Q (Raise e) s'
    end.

Lemma wp_bind {A B} (m : M A) (f : A -> M B) s Q :
  wp m s (after f Q) -> wp (m ≫= f) s Q.
Proof.
  unfold wp, after, mbind, M_bind.
  destruct (m s) as [[a|c|e] s']; done.
Qed.

Lemma wp_get {A} (proj : state -> A) s (Q : outcome A -> state -> Prop) :
  Q (Done (proj s)) s -> wp (get proj) s Q.
Proof. done. Qed.

Lemma wp_set_params x s (Q : outcome unit -> state -> Prop) :
  Q (Done ()) (State (configs s) (global_params s) x (previous_outFolder s) (trace s)) ->
  wp (set_params x) s Q.
Proof. done. Qed.

Lemma wp_update_params f s (Q : outcome unit -> state -> Prop) :
  Q (Done ()) (State (configs s) (global_params s) (f (params s))
                     (previous_outFolder s) (trace s)) ->
  wp (update_params f) s Q.
Proof. done. Qed.

Lemma wp_update_global_params f s (Q : outcome unit -> state -> Prop) :
  Q (Done ()) (State (configs s) (f (global_params s)) (params s)
                     (previous_outFolder s) (trace s)) ->
  wp (update_global_params f) s Q.
Proof. done. Qed.

Lemma wp_set_global_params x s (Q : outcome unit -> state -> Prop) :
  Q (Done ()) (State (configs s) x (params s) (previous_outFolder s) (trace s)) ->
  wp (set_global_params x) s Q.
Proof. done. Qed.

Lemma wp_set_previous_outFolder x s (Q : outcome unit -> state -> Prop) :
  Q (Done ()) (State (configs s) (global_params s) (params s) x (trace s)) ->
  wp (set_previous_outFolder x) s Q.
Proof. done. Qed.

Lemma wp_set_configs x s (Q : outcome unit -> state -> Prop) :
  Q (Done ()) (State x (global_params s) (params s) (previous_outFolder s) (trace s)) ->
  wp (set_configs x) s Q.
Proof. done. Qed.

Lemma wp_emit e s (Q : outcome unit -> state -> Prop) :
  Q (Done ()) (State (configs s) (global_params s) (params s)
                     (previous_outFolder s) (trace s ++ [e])) ->
  wp (emit e) s Q.
Proof. done. Qed.

Lemma wp_sys_exit {A} c s (Q : outcome A -> state -> Prop) :
  Q (Exit c) s -> wp (sys_exit c) s Q.
Proof. done. Qed.

Lemma wp_raise {A} e s (Q : outcome A -> state -> Prop) :
  Q (Raise e) s -> wp (raise e) s Q.
Proof. done. Qed.

Lemma wp_lift {A} (o : outcome A) s (Q : outcome A -> state -> Prop) :
  Q o s -> wp (lift o) s Q.
Proof. done. Qed.

(** What a bare [except:] does with the outcome of the [try] body. *)
Definition caught {A} (handler : M A) (Q : outcome A -> state -> Prop)
  : outcome A -> state -> Prop :=
  fun o s' =>
    match o with
    | Done a => Q (Done a) s'
    | _ => wp handler s' Q
    end.

Lemma wp_try_except {A} (body handler : M A) s Q :
  wp body s (caught handler Q) -> wp (try_except body handler) s Q.
Proof.
  unfold wp, caught, try_except. destruct (body s) as [[a|c|e] s']; done.
Qed.

Lemma wp_for_each_nil {A} (body : A -> M unit) s Q :
  Q (Done ()) s -> wp (for_each [] body) s Q.
Proof. done. Qed.

Lemma wp_for_each_cons {A} x (r : list A) (body : A -> M unit) s Q :
  wp (body x) s (after (fun _ => for_each r body) Q) ->
  wp (for_each (x :: r) body) s Q.
Proof. intros H. change (wp (body x ≫= fun _ => for_each r body) s Q). by apply wp_bind. Qed.

Lemma dict_lookup_insert_eq (d : dict) k v : <[k := v]> d !! k = Some v.
Proof.
  unfold lookup, insert, dict_lookup, dict_insert.
  induction d as [|[k' v'] r IH]; simpl.
  - by rewrite String.eqb_refl.
  - destruct (String.eqb_spec k k') as [->|Hne]; simpl.
    + by rewrite String.eqb_refl.
    + by destruct (String.eqb_spec k k').
Qed.

Lemma dict_lookup_insert_ne (d : dict) k k' v :
  k <> k' -> <[k := v]> d !! k' = d !! k'.
Proof.
  intros Hne. unfold lookup, insert, dict_lookup, dict_insert.
  induction d as [|[k0 v0] r IH]; simpl.
  - by destruct (String.eqb_spec k' k) as [->|].
  - destruct (String.eqb_spec k k0) as [->|Hne0]; simpl.
    + destruct (String.eqb_spec k' k0) as [->|]; [done|].
      by destruct (String.eqb_spec k' k0).
    + by rewrite IH.
Qed.

Lemma dict_insert_id (d : dict) k v : d !! k = Some v -> <[k := v]> d = d.
Proof.
  unfold lookup, insert, dict_lookup, dict_insert.
  induction d as [|[k' v'] r IH]; simpl; [done|].
  destruct (String.eqb_spec k k') as [->|Hne].
  - by intros [= ->].
  - intros H. by rewrite IH.
Qed.

Fixpoint assoc (k : string) (t : list (string * value)) : option value :=
  match t with
  | [] => None
  | (k', v) :: r => if String.eqb k k' then Some v else assoc k r
  end.

Lemma lookup_fill t (p : dict) k :
  fill t p !! k = match p !! k with Some v => Some v | None => assoc k t end.
Proof.
  revert p. induction t as [|[k' v] r IH]; intros p; simpl.
  - by destruct (p !! k).
  - unfold fill in *. simpl. rewrite IH. clear IH.
    destruct (String.eqb_spec k k') as [->|Hne].
    + destruct (p !! k') eqn:E; [by rewrite E|]. by rewrite dict_lookup_insert_eq.
    + destruct (p !! k') eqn:E; [done|]. by rewrite dict_lookup_insert_ne.
Qed.

Lemma lookup_fill_in t (p : dict) k d :
  assoc k t = Some d -> fill t p !! k = Some (default d (p !! k)).
Proof. intros H. rewrite lookup_fill, H. by destruct (p !! k). Qed.

Lemma lookup_fill_out t (p : dict) k :
  assoc k t = None -> fill t p !! k = p !! k.
Proof. intros H. rewrite lookup_fill, H. by destruct (p !! k). Qed.

Ltac head_of t :=
  lazymatch t with
  | ?f _ => head_of f
  | _ => t
  end.

Ltac st_simpl :=
  cbn [configs global_params params previous_outFolder trace
       default from_option id negb andb orb xorb].

Ltac norm_lookup :=
  repeat first
    [ rewrite dict_lookup_insert_eq
    | rewrite dict_lookup_insert_ne by done
    | erewrite lookup_fill_in by reflexivity
    | rewrite lookup_fill_out by reflexivity
    | match goal with
      | H : ?p !! ?k = _ |- context [?p !! ?k] => rewrite H
      end ];
  st_simpl.

(** Rewrite the scrutinee [b] with a hypothesis that gives its value. *)
Ltac by_hyp b :=
  match goal with
  | H : ?c = _ |- _ =>
      lazymatch c with
      | _ _ => idtac
      end;
      match b with
      | context [c] => rewrite H
      end
  end.

(** Evaluate a scrutinee that computes to a constructor. *)
Ltac by_compute b :=
  let b' := eval vm_compute in b in
  let h := head_of b' in
  is_constructor h;
  let E := fresh "E" in
  assert (E : b = b') by (vm_compute; reflexivity);
  rewrite E; clear E.

(** The probe answers as the hypothesis on the runtime says. *)
Ltac by_probe b :=
  lazymatch b with
  | check_output ?rt ?tr ?prog =>
      match goal with
      | H : forall tr' prog', exists out, check_output rt tr' prog' = Some out /\ _ |- _ =>
          let out := fresh "out" in
          let E := fresh "E" in
          destruct (H tr prog) as (out & E & ? & ?); rewrite E; clear E
      end
  end.

(** Decide the scrutinee [b] of the program at the head of the goal. *)
Ltac split_on b :=
  first
    [ progress cbv iota
    | by_hyp b
    | by_probe b
    | by_compute b
    | progress (unfold is_key, rstrip_slash, gt_int; norm_lookup; cbv iota)
    | match b with
      | context [?p !! ?k] => let E := fresh "E" in destruct (p !! k) eqn:E
      end
    | let E := fresh "E" in destruct b eqn:E ].

Ltac split_on_run b :=
  first
    [ progress cbv iota
    | by_hyp b
    | by_probe b
    | by_compute b
    | let E := fresh "E" in destruct b eqn:E ].

(** The parts of [main] that ask the runtime nothing. *)
Ltac closed_head h :=
  lazymatch h with
  | @overlay => idtac
  | @read_config_file => idtac
  | @load_global_parameters => idtac
  | @record_outputFolder => idtac
  | @flags_of => idtac
  | @tic => idtac
  | @toc => idtac
  | @getitem => idtac
  | @global_getitem => idtac
  | @print => idtac
  | @CHECK_FOLDER_resolve => idtac
  | @REORGANIZE_resolve => idtac
  | @DCM2NII_resolve => idtac
  | @SPATIAL_RESAMPLING_resolve => idtac
  | @INTENSITY_RESAMPLING_resolve => idtac
  | @MERGE_MASKS_resolve => idtac
  | @MASK_THRESHOLDING_resolve => idtac
  | @I_WINDOWING_resolve => idtac
  | @I_HARMONIZE_resolve => idtac
  | @N4_BIAS_FIELD_CORRECTION_resolve => idtac
  | @RADIOMICS_resolve => idtac
  | @DELETE_resolve => idtac
  | @SEGMENTATION_resolve => idtac
  | @F_NORMALIZE_resolve => idtac
  | @F_HARMONIZE_resolve => idtac
  | @PREDICT_resolve => idtac
  | @COPY_resolve => idtac
  end.

(** The program at the head of the goal is one whose run is known. *)
Ltac wp_known :=
  lazymatch goal with
  | |- wp ?m ?s _ =>
      match goal with
      | H : m s = _ |- _ => eapply wp_intro; [exact H|]; cbv beta
      end
  end.

Ltac wp_step split :=
  first [ wp_known | wp_step_syntax split ]
with wp_step_syntax split :=
  lazymatch goal with
  | |- after ?f ?Q (Done ?a) ?s => change (wp (f a) s Q); cbv beta
  | |- after ?f ?Q (Exit ?c) ?s => change (Q (Exit c) s); cbv beta
  | |- after ?f ?Q (Raise ?e) ?s => change (Q (Raise e) s); cbv beta
  | |- after _ _ ?o _ => split o
  | |- caught ?h ?Q (Done ?a) ?s => change (Q (Done a) s); cbv beta
  | |- caught ?h ?Q (Exit ?c) ?s => change (wp h s Q); cbv beta
  | |- caught ?h ?Q (Raise ?c) ?s => change (wp h s Q); cbv beta
  | |- caught _ _ ?o _ => split o
  | |- wp (mbind _ _) _ _ => apply wp_bind
  | |- wp (mret _) _ _ => apply wp_ret
  | |- wp (get _) _ _ => apply wp_get
  | |- wp (set_params _) _ _ => apply wp_set_params
  | |- wp (update_params _) _ _ => apply wp_update_params
  | |- wp (update_global_params _) _ _ => apply wp_update_global_params
  | |- wp (set_global_params _) _ _ => apply wp_set_global_params
  | |- wp (set_previous_outFolder _) _ _ => apply wp_set_previous_outFolder
  | |- wp (set_configs _) _ _ => apply wp_set_configs
  | |- wp (emit _) _ _ => apply wp_emit
  | |- wp (sys_exit _) _ _ => apply wp_sys_exit
  | |- wp (raise _) _ _ => apply wp_raise
  | |- wp (lift _) _ _ => apply wp_lift
  | |- wp (try_except _ _) _ _ => apply wp_try_except
  | |- wp (run_stage ?rt ?ip ?v ?f) ?s ?Q =>
      let m' := eval cbv [run_stage stage_table List.find String.eqb
                          Ascii.eqb Bool.eqb fst snd] in (run_stage rt ip v f) in
      change (wp m' s Q)
  | |- wp (for_each [] _) _ _ => apply wp_for_each_nil
  | |- wp (for_each (_ :: _) _) _ _ => apply wp_for_each_cons
  | |- wp (for_each ?l _) _ _ => split l
  | |- wp (if ?b then _ else _) _ _ => split b
  | |- wp (match ?x with _ => _ end) _ _ => split x
  | |- wp ?m ?s ?Q =>
      let h := head_of m in
      let m' := eval unfold h at 1 in m in
      change (wp m' s Q); cbv beta
  end.

(** Symbolic execution over an unknown [params]. *)
Ltac wp_go := repeat (wp_step split_on; st_simpl).

(** A part of the run that does not ask the runtime anything. *)
Ltac wp_compute := eapply wp_intro; [vm_compute; reflexivity|]; cbv beta.
Ltac wp_run_step :=
  lazymatch goal with
  | |- wp ?m _ _ =>
      let h := head_of m in
      first [ closed_head h; wp_compute | wp_step split_on_run ]
  | _ => wp_step split_on_run
  end.
(** Name the states, so that the goal stays small. *)
Ltac hide_state :=
  repeat match goal with
         | |- context [State ?a ?b ?c ?d ?e] =>
             let s := fresh "s" in progress (set (s := State a b c d e))
         end.
(** Execution from a known state, where only the runtime is unknown. *)
Ltac wp_run := hide_state; repeat (wp_run_step; hide_state).
End Logic.


(** ** What a step leaves alone *)

Module Frame.
Import PyStr PyVal Run Msg Step Stages Reader Orchestrator Logic.

(** [frames R m]: from any state, [m] ends in a state related by [R],
    however it ends. *)
Definition frames {A} (R : relation state) (m : M A) : Prop :=
  forall s, R s (m s).2.

Section WithRelation.
Context (R : relation state) `{!PreOrder R}.

Lemma frames_ret {A} (a : A) : frames R (mret a).
Proof. intros s. reflexivity. Qed.

Lemma frames_bind {A B} (m : M A) (f : A -> M B) :
  frames R m -> (forall a, frames R (f a)) -> frames R (m ≫= f).
Proof.
  intros Hm Hf s. specialize (Hm s). unfold mbind, M_bind.
  destruct (m s) as [[a|c|e] s']; simpl in *; [|done..].
  etrans; [exact Hm|apply Hf].
Qed.

Lemma frames_get {A} (proj : state -> A) : frames R (get proj).
Proof. intros s. reflexivity. Qed.
Lemma frames_sys_exit {A} c : frames R (@sys_exit A c).
Proof. intros s. reflexivity. Qed.
Lemma frames_raise {A} e : frames R (@raise A e).
Proof. intros s. reflexivity. Qed.
Lemma frames_lift {A} (o : outcome A) : frames R (lift o).
Proof. intros s. reflexivity. Qed.

Lemma frames_if {A} (b : bool) (m1 m2 : M A) :
  frames R m1 -> frames R m2 -> frames R (if b then m1 else m2).
Proof. by destruct b. Qed.

Lemma frames_when b m : frames R m -> frames R (when b m).
Proof. destruct b; [done|]. intros _. apply frames_ret. Qed.

Lemma frames_try_except {A} (body handler : M A) :
  frames R body -> frames R handler -> frames R (try_except body handler).
Proof.
  intros Hb Hh s. specialize (Hb s). unfold try_except.
  destruct (body s) as [[a|c|e] s']; simpl in *; [done|..];
    (etrans; [exact Hb|apply Hh]).
Qed.

Lemma frames_for_each {A} (l : list A) (body : A -> M unit) :
  (forall x, frames R (body x)) -> frames R (for_each l body).
Proof.
  intros Hb. induction l as [|x r IH]; [apply frames_ret|].
  apply frames_bind; [apply Hb|]. intros _. exact IH.
Qed.

(** The assignments: what is left to show is that one assignment
    respects [R]. *)
Lemma frames_update_params f :
  (forall s, R s (State (configs s) (global_params s) (f (params s))
                        (previous_outFolder s) (trace s))) ->
  frames R (update_params f).
Proof. intros H s. apply H. Qed.

Lemma frames_update_global_params f :
  (forall s, R s (State (configs s) (f (global_params s)) (params s)
                        (previous_outFolder s) (trace s))) ->
  frames R (update_global_params f).
Proof. intros H s. apply H. Qed.

Lemma frames_set_params x :
  (forall s, R s (State (configs s) (global_params s) x
                        (previous_outFolder s) (trace s))) ->
  frames R (set_params x).
Proof. intros H s. apply H. Qed.

Lemma frames_set_global_params x :
  (forall s, R s (State (configs s) x (params s)
                        (previous_outFolder s) (trace s))) ->
  frames R (set_global_params x).
Proof. intros H s. apply H. Qed.

Lemma frames_set_previous_outFolder x :
  (forall s, R s (State (configs s) (global_params s) (params s) x (trace s))) ->
  frames R (set_previous_outFolder x).
Proof. intros H s. apply H. Qed.

Lemma frames_set_configs x :
  (forall s, R s (State x (global_params s) (params s)
                        (previous_outFolder s) (trace s))) ->
  frames R (set_configs x).
Proof. intros H s. apply H. Qed.

Lemma frames_emit e :
  (forall s, R s (State (configs s) (global_params s) (params s)
                        (previous_outFolder s) (trace s ++ [e]))) ->
  frames R (emit e).
Proof. intros H s. apply H. Qed.

End WithRelation.

(** One step of a proof of [frames R m] along the syntax of [m]. [special]
    is tried first, for the steps that respect [R] only as a whole; [atom]
    shows that one assignment or one event respects [R]. *)
Ltac frames_step special atom :=
  first
    [ special
    | lazymatch goal with
      | |- frames _ (mbind _ _) => apply frames_bind; [exact _| |intros ?]
      | |- frames _ (mret _) => apply frames_ret; exact _
      | |- frames _ (get _) => apply frames_get; exact _
      | |- frames _ (sys_exit _) => apply frames_sys_exit; exact _
      | |- frames _ (raise _) => apply frames_raise; exact _
      | |- frames _ (lift _) => apply frames_lift; exact _
      | |- frames _ (when _ _) => apply frames_when; [exact _|]
      | |- frames _ (try_except _ _) => apply frames_try_except; [exact _| |]
      | |- frames _ (for_each _ _) => apply frames_for_each; [exact _|intros ?]
      | |- frames _ (update_params _) => apply frames_update_params; intros ?; atom
      | |- frames _ (update_global_params _) =>
          apply frames_update_global_params; intros ?; atom
      | |- frames _ (set_params _) => apply frames_set_params; intros ?; atom
      | |- frames _ (set_global_params _) =>
          apply frames_set_global_params; intros ?; atom
      | |- frames _ (set_previous_outFolder _) =>
          apply frames_set_previous_outFolder; intros ?; atom
      | |- frames _ (set_configs _) => apply frames_set_configs; intros ?; atom
      | |- frames _ (emit _) => apply frames_emit; intros ?; atom
      | |- frames _ (if _ then _ else _) => apply frames_if
      | |- frames _ (match ?x with _ => _ end) => destruct x
      | |- frames _ ?m => let h := head_of m in unfold h
      end ].

Ltac frames_with special atom := repeat frames_step special atom.

(** *** The relations *)

(** The previous output folder is untouched. *)
Definition same_previous : relation state :=
  fun s s' => previous_outFolder s' = previous_outFolder s.
(** The parameters of the stage are untouched. *)
Definition same_params : relation state :=
  fun s s' => params s' = params s.
(** No key of [params] is removed. *)
Definition more_keys : relation state :=
  fun s s' => forall k, is_Some (params s !! k) -> is_Some (params s' !! k).

(** The global parameters are untouched. *)
Definition same_globals : relation state :=
  fun s s' => global_params s' = global_params s.

(** The collaborators that were invoked, in order. *)
Fixpoint dispatched (tr : list event) : list (list string) :=
  match tr with
  | [] => []
  | CheckOutput prog :: r | Run prog :: r => prog :: dispatched r
  | _ :: r => dispatched r
  end.
(** No collaborator is invoked. *)
Definition nothing_dispatched : relation state :=
  fun s s' => dispatched (trace s') = dispatched (trace s).

#[global] Instance same_previous_po : PreOrder same_previous.
Proof. split; [done|]. intros s1 s2 s3 H1 H2. unfold same_previous in *. congruence. Qed.
#[global] Instance same_params_po : PreOrder same_params.
Proof. split; [done|]. intros s1 s2 s3 H1 H2. unfold same_params in *. congruence. Qed.
#[global] Instance same_globals_po : PreOrder same_globals.
Proof. split; [done|]. intros s1 s2 s3 H1 H2. unfold same_globals in *. congruence. Qed.
#[global] Instance more_keys_po : PreOrder more_keys.
Proof. split; [by intros s k|]. intros s1 s2 s3 H1 H2 k Hk. auto. Qed.
#[global] Instance nothing_dispatched_po : PreOrder nothing_dispatched.
Proof. split; [done|]. intros s1 s2 s3 H1 H2. unfold nothing_dispatched in *. congruence. Qed.

Lemma fill_more_keys t (p : dict) k : is_Some (p !! k) -> is_Some (fill t p !! k).
Proof. intros [v Hv]. rewrite lookup_fill, Hv. eauto. Qed.

Lemma insert_more_keys (p : dict) k' v k :
  is_Some (p !! k) -> is_Some (<[k' := v]> p !! k).
Proof.
  intros H. destruct (decide (k' = k)) as [->|Hne].
  - rewrite dict_lookup_insert_eq. eauto.
  - by rewrite dict_lookup_insert_ne.
Qed.

Lemma dispatched_app tr1 tr2 :
  dispatched (tr1 ++ tr2) = (dispatched tr1 ++ dispatched tr2)%list.
Proof.
  induction tr1 as [|e r IH]; [done|].
  destruct e; simpl; by rewrite IH.
Qed.

Ltac no_special := fail.
Ltac atom_trivial := first [ reflexivity | done ].
Ltac atom_more_keys :=
  intros ? ?; cbn [params];
  first [ by apply fill_more_keys | by apply insert_more_keys | done ].
Ltac atom_nothing_dispatched :=
  unfold nothing_dispatched; cbn [trace];
  first [ reflexivity | rewrite dispatched_app; cbn [dispatched]; by rewrite app_nil_r ].

Ltac frames_same_previous := frames_with no_special atom_trivial.
Ltac frames_same_params := frames_with no_special atom_trivial.
Ltac frames_more_keys := frames_with no_special atom_more_keys.
Ltac frames_nothing_dispatched := frames_with no_special atom_nothing_dispatched.
Ltac frames_same_globals := frames_with no_special atom_trivial.

(** *** Keys that a step leaves in [params] *)

(** When [m] ends normally, [k] is a key of [params]. *)
Definition ensures {A} (k : string) (m : M A) : Prop :=
  forall s a s', m s = (Done a, s') -> is_Some (params s' !! k).

Lemma ensures_bind_l {A B} k (m : M A) (f : A -> M B) :
  ensures k m -> (forall a, frames more_keys (f a)) -> ensures k (m ≫= f).
Proof.
  intros Hm Hf s b s'. unfold mbind, M_bind.
  destruct (m s) as [[a|c|e] s1] eqn:E; [|done..].
  intros E'. specialize (Hf a s1). rewrite E' in Hf. apply Hf. by eapply Hm.
Qed.

Lemma ensures_bind_r {A B} k (m : M A) (f : A -> M B) :
  (forall a, ensures k (f a)) -> ensures k (m ≫= f).
Proof.
  intros Hf s b s'. unfold mbind, M_bind.
  destruct (m s) as [[a|c|e] s1] eqn:E; [|done..].
  apply Hf.
Qed.

Lemma ensures_sys_exit {A} k c : ensures k (@sys_exit A c).
Proof. by intros s a s'. Qed.
Lemma ensures_raise {A} k e : ensures k (@raise A e).
Proof. by intros s a s'. Qed.

Lemma ensures_if {A} k (b : bool) (m1 m2 : M A) :
  ensures k m1 -> ensures k m2 -> ensures k (if b then m1 else m2).
Proof. by destruct b. Qed.

Lemma ensures_defaults k t : is_Some (assoc k t) -> ensures k (defaults t).
Proof.
  intros [d Hd] s a s' E. unfold defaults, update_params in E.
  injection E as _ <-. cbn [params]. rewrite lookup_fill, Hd.
  destruct (params s !! k); eauto.
Qed.

Lemma ensures_setitem k v : ensures k (setitem k v).
Proof.
  intros s a s' E. unfold setitem, update_params in E.
  injection E as _ <-. cbn [params]. rewrite dict_lookup_insert_eq. eauto.
Qed.

Lemma ensures_require k text code : ensures k (require k text code).
Proof.
  intros s a s'.
  unfold require, has_key, is_key, when, print, emit, sys_exit,
    mbind, M_bind, get, mret, M_ret.
  cbv beta iota.
  destruct (params s !! k) eqn:E; cbv beta iota delta [negb]; [|done].
  intros [= ?]; subst. rewrite E. eauto.
Qed.

Lemma ensures_output_from_suffix rt otherwise :
  ensures "outputFolder" otherwise ->
  ensures "outputFolder" (output_from_suffix rt otherwise).
Proof.
  intros Ho s a s'.
  unfold output_from_suffix, has_key, is_key, when, getitem, lift, setitem,
    update_params, raise, mbind, M_bind, get, mret, M_ret.
  cbv beta iota.
  destruct (params s !! "outputFolder") eqn:E; cbv beta iota delta [negb].
  { intros [= ?]; subst. rewrite E. eauto. }
  destruct (params s !! "outputFolderSuffix") eqn:E'; cbv beta iota;
    [|apply Ho].
  destruct (params s !! "inputFolder") as [i|]; cbv beta iota; [|done].
  destruct (rstrip_slash i); cbv beta iota; [|done..].
  rewrite E'. cbv beta iota.
  intros [= ?]; subst. cbn [params]. rewrite dict_lookup_insert_eq. eauto.
Qed.

Ltac ensures_tac :=
  lazymatch goal with
  | |- ensures _ (mbind _ _) =>
      first [ apply ensures_bind_l;
              [ solve [ensures_tac] | intros ?; solve [frames_more_keys] ]
            | apply ensures_bind_r; intros ?; ensures_tac ]
  | |- ensures _ (sys_exit _) => apply ensures_sys_exit
  | |- ensures _ (raise _) => apply ensures_raise
  | |- ensures _ (defaults _) => apply ensures_defaults; by eexists
  | |- ensures _ (setitem _ _) => apply ensures_setitem
  | |- ensures _ (require _ _ _) => apply ensures_require
  | |- ensures _ (output_from_suffix _ _) =>
      apply ensures_output_from_suffix; ensures_tac
  | |- ensures _ (if _ then _ else _) => apply ensures_if; ensures_tac
  | |- ensures _ ?m => let h := head_of m in unfold h; ensures_tac
  end.

(** Turn [Forall (fun k => is_Some (params s !! k)) ks] into one equation
    [params s !! k = Some v] for each key. *)
Ltac keys_of H :=
  repeat match type of H with
         | Forall _ (_ :: _) =>
             let H1 := fresh "K" in
             apply Forall_cons in H as [[? H1] H]
         end;
  clear H.

(** The facts [params s !! k = Some v] for the keys of a list. *)
Lemma ensures_Forall {A} (m : M A) ks s a s' :
  Forall (fun k => ensures k m) ks -> m s = (Done a, s') ->
  Forall (fun k => is_Some (params s' !! k)) ks.
Proof. intros H E. eapply Forall_impl; [exact H|]. intros k Hk. by eapply Hk. Qed.

End Frame.


(** ** Equations of the monad, and properties that a step preserves *)

Module Laws.
Import PyStr PyVal Run Msg Step Stages Reader Orchestrator Logic Frame.

Lemma bind_run {A B} (m : M A) (f : A -> M B) s :
  (m ≫= f) s = match m s with
               | (Done a, s') => f a s'
               | (Exit c, s') => (Exit c, s')
               | (Raise e, s') => (Raise e, s')
               end.
Proof. done. Qed.

(** A bind that ends normally: so did its first part. *)
Lemma bind_done {A B} (m : M A) (f : A -> M B) s b s' :
  (m ≫= f) s = (Done b, s') ->
  exists a s1, m s = (Done a, s1) /\ f a s1 = (Done b, s').
Proof.
  rewrite bind_run. destruct (m s) as [[a|c|e] s1]; [|done..]. eauto.
Qed.

Lemma bind_assoc3 (a b c r : M unit) s :
  (a;; b;; c;; r) s = ((a;; b;; c);; r) s.
Proof.
  rewrite !bind_run. destruct (a s) as [[[]|?|?] s1]; [|done..].
  rewrite !bind_run. destruct (b s1) as [[[]|?|?] s2]; [|done..].
  rewrite !bind_run. by destruct (c s2) as [[[]|?|?] s3].
Qed.

Lemma setitem_run k v s :
  setitem k v s
  = (Done (), State (configs s) (global_params s) (<[k := v]> (params s))
                    (previous_outFolder s) (trace s)).
Proof. done. Qed.

Lemma for_each_cons_done {A} (body : A -> M unit) x r s :
  (body x s).1 = Done () ->
  for_each (x :: r) body s = for_each r body (body x s).2.
Proof.
  intros H. cbn [for_each]. unfold mbind, M_bind.
  destruct (body x s) as [o s']. simpl in H. by subst.
Qed.

Lemma for_each_cons_raise {A} (body : A -> M unit) x r s e s' :
  body x s = (Raise e, s') -> for_each (x :: r) body s = (Raise e, s').
Proof. intros H. cbn [for_each]. unfold mbind, M_bind. by rewrite H. Qed.

(** The collaborators of a trace that is written as an extension. *)
Ltac finish :=
  cbn [trace]; rewrite ?dispatched_app; cbn [dispatched];
  rewrite ?app_nil_r, <- ?app_assoc; try done.

(** The key [k] stays absent from [params]. *)
Definition still_absent (k : string) : relation state :=
  fun s s' => params s !! k = None -> params s' !! k = None.

#[global] Instance still_absent_po k : PreOrder (still_absent k).
Proof. split; [by intros s H|]. intros s1 s2 s3 H1 H2 H. auto. Qed.

Lemma fill_still_absent t (p : dict) k :
  assoc k t = None -> p !! k = None -> fill t p !! k = None.
Proof. intros Ht Hp. by rewrite lookup_fill, Hp. Qed.

Ltac atom_still_absent :=
  intros ?; cbn [params];
  first [ done
        | by apply fill_still_absent
        | by rewrite dict_lookup_insert_ne ].
Ltac frames_still_absent := frames_with no_special atom_still_absent.

(** A property of the state that holds after a step when it held before. *)
Definition preserves (P : state -> Prop) : relation state :=
  fun s s' => P s -> P s'.

#[global] Instance preserves_po P : PreOrder (preserves P).
Proof. split; [by intros s H|]. intros s1 s2 s3 H1 H2 H. auto. Qed.

Lemma preserves_wp {A} (P : state -> Prop) (m : M A) :
  (forall s, P s -> wp m s (fun _ s' => P s')) -> frames (preserves P) m.
Proof. intros H s Hs. by apply H. Qed.

End Laws.

(** ** The body of the second loop of [main] *)

Module Loop.
Import PyStr PyVal Run Msg Step Stages Reader Orchestrator Logic Frame Laws.

Section WithRun.
Context (rt : runtime) (inputPath : string) (verbose : bool).

Lemma stage_table_same_previous :
  Forall (fun row => frames same_previous (row.2.1;; row.2.2))
    (stage_table rt inputPath verbose).
Proof.
  repeat first [apply Forall_nil_2 | apply Forall_cons_2]; cbn [fst snd];
    frames_same_previous.
Qed.

(** A fact about every row of the table is a fact about [run_stage]. *)
Lemma run_stage_frames (R : relation state) `{!PreOrder R} function :
  Forall (fun row => frames R (row.2.1;; row.2.2))
    (stage_table rt inputPath verbose) ->
  frames R (run_stage rt inputPath verbose function).
Proof.
  intros H. unfold run_stage.
  destruct (find _ _) as [[n [resolve dispatch]]|] eqn:E.
  - apply find_some in E as [Hin _].
    rewrite List.Forall_forall in H. apply (H _ Hin).
  - intros s. reflexivity.
Qed.

Lemma overlay_same_previous cfg : frames same_previous (overlay rt cfg).
Proof. frames_same_previous. Qed.

Lemma overlay_quiet cfg : frames nothing_dispatched (overlay rt cfg).
Proof. frames_nothing_dispatched. Qed.

Lemma record_outputFolder_same_params : frames same_params record_outputFolder.
Proof. frames_same_params. Qed.

(** What [run_block] does before its last statement. *)
Definition before_record (cfg : series) : M unit :=
  f ← lift (series_getitem cfg "function");
  is_global ← lift (cell_eq f "GLOBAL_PARAMETERS");
  when (negb is_global)
    (overlay rt cfg;;
     match f with
     | Scalar function => run_stage rt inputPath verbose function
     | SubSeries _ => mret ()
     end).

Lemma before_record_same_previous cfg : frames same_previous (before_record cfg).
Proof.
  frames_with
    ltac:(first [ apply overlay_same_previous
                | apply (run_stage_frames same_previous);
                  apply stage_table_same_previous ])
    atom_trivial.
Qed.

Lemma run_block_split cfg s :
  run_block rt inputPath verbose cfg s
  = (before_record cfg;; record_outputFolder) s.
Proof.
  unfold run_block, before_record. rewrite !bind_run.
  destruct (lift (series_getitem cfg "function") s) as [[f|c|e] s1]; [|done..].
  rewrite !bind_run.
  by destruct (lift (cell_eq f "GLOBAL_PARAMETERS") s1) as [[b|c|e] s2].
Qed.

(** The three parts of the loop body on the block of a stage. *)
Lemma run_block_stage cfg function s s' :
  series_getitem cfg "function" = Done (Scalar function) ->
  function <> "GLOBAL_PARAMETERS" ->
  run_block rt inputPath verbose cfg s = (Done (), s') ->
  exists e q,
    overlay rt cfg s = (Done (), e)
    /\ run_stage rt inputPath verbose function e = (Done (), q)
    /\ record_outputFolder q = (Done (), s').
Proof.
  intros Hf Hg. unfold run_block, lift. rewrite bind_run, Hf. cbn [cell_eq].
  rewrite bind_run. apply String.eqb_neq in Hg. rewrite Hg. cbn [negb when].
  intros E. apply bind_done in E as ([] & q & E1 & E2).
  apply bind_done in E1 as ([] & e & E0 & E1). eauto.
Qed.

(** C8: when the body of the loop ends normally on a block, the previous
    output folder is the [outputFolder] of [params] if that key is there
    with a value other than the empty string, and is what it was before
    the block otherwise. Nothing is assumed about the runtime: the
    subprocess of the stage may have succeeded or failed. *)
Theorem previous_outFolder_after_block cfg s s' :
  run_block rt inputPath verbose cfg s = (Done (), s') ->
  previous_outFolder s' =
    match params s' !! "outputFolder" with
    | Some folder =>
        if eq_str folder "" then previous_outFolder s else folder
    | None => previous_outFolder s
    end.
Proof.
  rewrite run_block_split. intros H.
  apply bind_done in H as ([] & s1 & H1 & H2).
  pose proof (before_record_same_previous cfg s) as Hp.
  rewrite H1 in Hp. unfold same_previous in Hp. cbn [snd] in Hp.
  rewrite <- Hp. clear Hp H1.
  revert s' H2. apply wp_done. wp_go.
  all: rewrite ?E; try done.
  all: match goal with H : negb ?b = _ |- _ => destruct b; try done end.
Qed.

End WithRun.

Lemma previous_outFolder_after_block_witness :
  let rt := Sample.machine None true in
  let s' := (run_block rt "" false Sample.copy_block initial).2 in
  previous_outFolder s' =
    match params s' !! "outputFolder" with
    | Some folder =>
        if eq_str folder "" then previous_outFolder initial else folder
    | None => previous_outFolder initial
    end.
Proof.
  intros rt s'.
  apply (previous_outFolder_after_block rt "" false Sample.copy_block initial).
  vm_compute. reflexivity.
Defined.

End Loop.

(** ** The coercion of the values of a configuration file *)

Module Parse.
Import PyStr PyNum PyVal Coerce.

Lemma lstrip_by_length P s : (String.length (lstrip_by P s) <= String.length s)%nat.
Proof. induction s as [|c s IH]; simpl; [lia|]. destruct (P c); simpl; lia. Qed.

Lemma rstrip_by_length P s : (String.length (rstrip_by P s) <= String.length s)%nat.
Proof.
  induction s as [|c s IH]; simpl; [lia|].
  destruct (rstrip_by P s); [destruct (P c)|]; simpl in *; lia.
Qed.

Lemma strip_by_length P s : (String.length (strip_by P s) <= String.length s)%nat.
Proof.
  unfold strip_by. etransitivity; [apply rstrip_by_length|apply lstrip_by_length].
Qed.

Lemma split_length c s :
  Forall (fun x => (String.length x <= String.length s)%nat) (split c s).
Proof.
  induction s as [|d s IH]; simpl.
  - constructor; [simpl; lia|constructor].
  - destruct (ch_eqb c d).
    + constructor; [simpl; lia|].
      eapply Forall_impl; [exact IH|]. simpl. lia.
    + destruct (split c s) as [|w ws].
      { constructor; [simpl; lia|constructor]. }
      apply Forall_cons in IH as [Hw Hws].
      constructor; [simpl; lia|].
      eapply Forall_impl; [exact Hws|]. simpl. lia.
Qed.

(** [i.lower()] *)
Definition lower_str (i : string) : string := map_ch lower i.

Lemma lower_str_cons c i : lower_str (String c i) = String (lower c) (lower_str i).
Proof. done. Qed.

(** The two characters that [lower] sends to a lower-case letter. *)
Lemma lower_inv c d :
  lower c = d -> c = d \/ c = ascii_of_N (N_of_ascii d - 32).
Proof.
  unfold lower, code. destruct (_ && _) eqn:E; intros <-; [right|by left].
  apply andb_true_iff in E as [E1 E2].
  apply N.leb_le in E1, E2.
  rewrite N_ascii_embedding by lia.
  replace (N_of_ascii c + 32 - 32)%N with (N_of_ascii c) by lia.
  by rewrite ascii_N_embedding.
Qed.

(** The strings whose lower case is a given word, one letter at a time. *)
Ltac letters H :=
  repeat match type of H with
         | lower_str (String _ _) = _ => rewrite lower_str_cons in H
         | lower_str ?i = _ =>
             is_var i; destruct i; [|rewrite lower_str_cons in H]
         | String _ _ = String _ _ =>
             let L := fresh "L" in
             injection H as L H;
             apply lower_inv in L as [-> | ->]
         | _ => discriminate H
         end.

Section WithRuntime.
Context (rt : runtime).

Lemma parse_each_ext (f g : string -> outcome value) l :
  Forall (fun x => f x = g x) l -> parse_each f l = parse_each g l.
Proof.
  induction 1 as [|x l Hx _ IH]; simpl; [done|]. by rewrite Hx, IH.
Qed.

(** The elements of a list literal are shorter than the literal. *)
Lemma list_items_shorter r :
  let i := String "[" r in
  let split := split "," i in
  let split := alter (strip_ch "[") 0%nat split in
  let split := alter (strip_ch "]") (length split - 1)%nat split in
  Forall (fun x => (String.length x < String.length i)%nat) split.
Proof.
  cbv zeta. cbn [split]. change (ch_eqb "," "[") with false. cbv iota.
  pose proof (split_length "," r) as H.
  destruct (split "," r) as [|w ws].
  - vm_compute. constructor; [lia|constructor].
  - apply Forall_cons in H as [Hw Hws].
    apply Forall_alter.
    + cbn [alter list_alter]. constructor.
      * unfold strip_ch, strip_by.
        cbn [lstrip_by]. change (ch_eqb "[" "[") with true. cbv iota.
        pose proof (rstrip_by_length (ch_eqb "[") (lstrip_by (ch_eqb "[") w)).
        pose proof (lstrip_by_length (ch_eqb "[") w).
        simpl. lia.
      * eapply Forall_impl; [exact Hws|]. simpl. lia.
    + intros x _ Hx. pose proof (strip_by_length (ch_eqb "]") x).
      unfold strip_ch. lia.
Qed.

(** The bound of [parse] on the depth is never reached: more fuel gives
    the same result. *)
Lemma parse_fuel_irrelevant n : forall i fuel fuel',
  (String.length i <= n)%nat ->
  (String.length i < fuel)%nat -> (String.length i < fuel')%nat ->
  parse_fuel rt fuel i = parse_fuel rt fuel' i.
Proof.
  induction n as [|n IH]; intros i [|fuel] [|fuel'] Hn Hf Hf'; try lia.
  - destruct i; [|simpl in Hn; lia]. reflexivity.
  - cbn [parse_fuel].
    destruct (in_list i _); [done|]. destruct (in_list i _); [done|].
    destruct (py_int i); [done|]. destruct (py_float_ok i); [done|].
    destruct (contains "pi" i); [done|].
    destruct i as [|c r]; [done|].
    destruct (ch_eqb c "[") eqn:Ec; [|done]. cbn [negb].
    assert (c = "["%char) as -> by (by apply Ascii.eqb_eq).
    rewrite (parse_each_ext (parse_fuel rt fuel) (parse_fuel rt fuel')); [done|].
    eapply Forall_impl; [apply list_items_shorter|].
    intros x Hx. cbv beta in Hx. simpl in Hn, Hf, Hf', Hx.
    apply IH; lia.
Qed.

Lemma parse_fuel_enough i fuel :
  (String.length i < fuel)%nat -> parse_fuel rt fuel i = parse rt i.
Proof.
  intros H. unfold parse.
  apply (parse_fuel_irrelevant (String.length i)); lia.
Qed.

(** Whatever the fuel, [parse] of a string that is not empty ends with a
    value: an exception in the coercion of a list element is caught. *)
Lemma parse_fuel_done fuel c i :
  exists v, parse_fuel rt (S fuel) (String c i) = Done v.
Proof.
  cbn [parse_fuel].
  repeat match goal with
         | |- exists _, (if ?b then _ else _) = _ => destruct b
         | |- exists _, match ?x with _ => _ end = _ => destruct x
         | |- exists _, Done _ = _ => by eexists
         end.
Qed.

(** [parse] raises nothing but the [IndexError] of the empty string. *)
Lemma parse_outcome i :
  (exists v, parse rt i = Done v) \/ parse rt i = Raise IndexError.
Proof.
  destruct i as [|c i]; [by right|left]. apply parse_fuel_done.
Qed.

(** C2: [parse('')] raises [IndexError]: the test [i[0] == '['] is
    outside every [try], and the empty string has no first character.
    The empty string is the only argument on which [parse] raises: on
    every other string it returns a value. *)
Theorem parse_raises_on_empty_string :
  parse rt "" = Raise IndexError
  /\ forall c i, exists v, parse rt (String c i) = Done v.
Proof. split; [reflexivity|]. intros c i. apply parse_fuel_done. Qed.

(** C7: on a string that is [true] or [false] up to the case of its
    letters, [parse] gives the boolean for the four spellings ['True'],
    ['true'], ['False'] and ['false'], and gives the string itself back
    for every other spelling. The test for the four spellings is the first
    one of [parse]. *)
Theorem parse_boolean_words i :
  lower_str i = "true" \/ lower_str i = "false" ->
  parse rt i =
    Done (if in_list i ["True"; "true"] then VBool true
          else if in_list i ["False"; "false"] then VBool false
          else VStr i).
Proof.
  intros [H|H]; (destruct i; [discriminate|]); letters H;
    vm_compute; reflexivity.
Qed.

End WithRuntime.

Lemma parse_boolean_words_witness :
  let rt := Sample.machine None true in
  parse rt "TRUE" =
    Done (if in_list "TRUE" ["True"; "true"] then VBool true
          else if in_list "TRUE" ["False"; "false"] then VBool false
          else VStr "TRUE").
Proof.
  intros rt. apply (parse_boolean_words rt "TRUE"). left. reflexivity.
Defined.

(** The upper-case spellings are not booleans for [parse]. *)
Lemma parse_upper_case_words :
  let rt := Sample.machine None true in
  parse rt "TRUE" = Done (VStr "TRUE") /\ parse rt "TRUE" <> Done (VBool true)
  /\ parse rt "FALSE" = Done (VStr "FALSE")
  /\ parse rt "FALSE" <> Done (VBool false).
Proof. by vm_compute. Qed.

End Parse.

(** ** The reader of the configuration file *)

Module Config.
Import PyStr PyVal Coerce Run Msg Step Stages Reader Orchestrator Logic Frame Laws.

(** The line of a block that [read_line] takes for a parameter: the
    block is open, and the line is neither empty nor a comment nor a
    brace. *)
Definition is_parameter_line (r : reader) (raw_line : string) : bool :=
  has_label "function" (config r) && begin_param_list r &&
  match strip raw_line with
  | EmptyString => false
  | String c0 _ =>
      negb (ch_eqb c0 "#") && negb (ch_eqb c0 "{") && negb (ch_eqb c0 "}")
  end.

(** The line without its blanks, as it is split at the colons. *)
Definition squeezed (raw_line : string) : string :=
  remove_ch (ascii_of_nat 9) (remove_ch " " (strip raw_line)).

(** How often the label [k] occurs in a block. *)
Definition occurrences (k : string) (cfg : series) : nat :=
  length (List.filter (fun kv => String.eqb kv.1 k) cfg).

Lemma series_getitem_twice cfg k :
  (2 <= occurrences k cfg)%nat ->
  exists l, series_getitem cfg k = Done (SubSeries l).
Proof.
  unfold occurrences, series_getitem.
  destruct (List.filter _ cfg) as [|[k1 v1] [|[k2 v2] l]]; simpl; try lia.
  eauto.
Qed.

Lemma series_getitem_label cfg k :
  In k (List.map fst cfg) -> exists c, series_getitem cfg k = Done c.
Proof.
  intros Hin. apply in_map_iff in Hin as ([k' v] & <- & Hin).
  unfold series_getitem.
  destruct (List.filter _ cfg) as [|[k1 v1] [|[k2 v2] l]] eqn:E; eauto.
  assert (In (k', v) (List.filter (fun kv => String.eqb kv.1 (k', v).1) cfg)) as H.
  { apply filter_In. split; [done|]. apply String.eqb_refl. }
  rewrite E in H. destruct H.
Qed.

Lemma series_getitem_In cfg k c :
  series_getitem cfg k = Done c -> In k (List.map fst cfg).
Proof.
  unfold series_getitem.
  destruct (List.filter _ cfg) as [|[k' v] l] eqn:E; [done|].
  intros _.
  assert (Hin : In (k', v) (List.filter (fun kv => String.eqb kv.1 k) cfg)).
  { rewrite E. by left. }
  apply filter_In in Hin as [Hin Heq]. cbn in Heq.
  apply String.eqb_eq in Heq as ->.
  apply in_map_iff. by exists (k, v).
Qed.

(** One more line with a label that the block has already. *)
Lemma occurrences_again k v (block rest : series) :
  has_label k block = true ->
  (2 <= occurrences k (block ++ [(k, v)] ++ rest)%list)%nat.
Proof.
  unfold has_label, occurrences. intros H.
  rewrite !List.filter_app, !length_app. cbn [List.filter fst].
  rewrite String.eqb_refl. cbn [length].
  apply existsb_exists in H as ([k' v'] & Hin & Heq).
  assert (In (k', v') (List.filter (fun kv => String.eqb kv.1 k) block)) as H
    by (by apply filter_In).
  destruct (List.filter _ block); [destruct H|]. simpl. lia.
Qed.

Section WithRun.
Context (rt : runtime) (config_File inputPath : string) (verbose : bool).

(** The loop of [overlay] over labels of the block, one of which occurs
    more than once. *)
Lemma overlay_loop_raises cfg k dup labels : forall s,
  series_getitem cfg k = Done (SubSeries dup) ->
  In k labels ->
  Forall (fun i => exists c, series_getitem cfg i = Done c) labels ->
  exists e s',
    for_each labels (fun i =>
      c ← lift (series_getitem cfg i);
      v ← lift (parse_cell rt c);
      setitem i v) s = (Raise e, s')
    /\ (e = ValueError \/ e = IndexError)
    /\ trace s' = trace s.
Proof.
  intros s Hk Hin Hall. revert s.
  induction Hall as [|i labels [c Hc] Hall IH]; intros s; [destruct Hin|].
  cbn [for_each]. rewrite bind_run. rewrite bind_run.
  unfold lift at 1. rewrite Hc.
  destruct c as [x|l].
  - destruct Hin as [->|Hin]; [congruence|].
    rewrite bind_run. unfold lift at 1. cbn [parse_cell].
    destruct (Parse.parse_outcome rt x) as [[v ->]| ->].
    + rewrite setitem_run.
      destruct (IH Hin (State (configs s) (global_params s)
                          (<[i := v]> (params s)) (previous_outFolder s)
                          (trace s))) as (e & s' & -> & He & Ht).
      eauto.
    + eauto 6.
  - rewrite bind_run. unfold lift at 1. cbn [parse_cell]. eauto 6.
Qed.

(** The block of a stage in which a label occurs more than once: the
    copy of its parameters raises, and the stage is not run. *)
Lemma run_block_duplicate_raises cfg function k s :
  series_getitem cfg "function" = Done (Scalar function) ->
  function <> "GLOBAL_PARAMETERS" ->
  (2 <= occurrences k cfg)%nat ->
  exists e s',
    run_block rt inputPath verbose cfg s = (Raise e, s')
    /\ (e = ValueError \/ e = IndexError)
    /\ trace s' = trace s.
Proof.
  intros Hf Hg Hk.
  destruct (series_getitem_twice _ _ Hk) as [dup Hdup].
  pose proof (series_getitem_In _ _ _ Hdup) as Hin.
  assert (Forall (fun i => exists c, series_getitem cfg i = Done c)
            (List.map fst cfg)) as Hall.
  { apply List.Forall_forall. apply series_getitem_label. }
  unfold run_block. rewrite bind_run. unfold lift at 1. rewrite Hf.
  rewrite bind_run. unfold lift at 1. cbn [cell_eq].
  apply String.eqb_neq in Hg. rewrite Hg. cbn [negb when].
  rewrite bind_run. unfold overlay at 1.
  rewrite bind_run. rewrite bind_run. unfold get at 1.
  rewrite bind_run. unfold set_params at 1.
  destruct (overlay_loop_raises cfg k dup (List.map fst cfg)
              (State (configs s) (global_params s) (global_params s)
                 (previous_outFolder s) (trace s)) Hdup Hin Hall)
    as (e & s' & -> & He & Ht).
  eauto.
Qed.

End WithRun.

(** A file with a repeated key is read to its end; its first stage is
    run, and the run ends with a [ValueError] at the block with the
    repeated key. *)
Lemma duplicate_key_file_is_run :
  let rt := Sample.machine None true in
  let read := read_config_file "pipeline.txt" false Sample.duplicate_key_file
                initial in
  read.1 = Done ()
  /\ configs read.2 =
       [[("function", "COPY"); ("inputFolder", "/a"); ("outputFolder", "/b")];
        [("function", "COPY"); ("inputFolder", "/b"); ("inputFolder", "/c");
         ("outputFolder", "/d")]]
  /\ trace read.2 = []
  /\ (Sample.run rt Sample.duplicate_key_file).1 = Raise ValueError
  /\ dispatched (trace (Sample.run rt Sample.duplicate_key_file).2) =
       [python "src/copy_folder_contents.py"
          ["-i"; "/a"; "--log"; ""; "-o"; ""]].
Proof. by vm_compute. Qed.

End Config.

(** ** The folders that the stages hand on to each other *)

Module Folders.
Import PyStr PyVal Coerce Run Msg Step Stages Reader Orchestrator Logic Frame Laws.
Import Loop.

(** The state after one more line on the standard output. *)
Definition printed (text : string) (s : state) : state :=
  State (configs s) (global_params s) (params s) (previous_outFolder s)
        (trace s ++ [Print text])%list.

(** The stages that read [params['inputFolder']]: all but [DELETE]. *)
Definition stages_with_input : list string :=
  ["CHECK_FOLDER"; "REORGANIZE"; "DCM2NII"; "SPATIAL_RESAMPLING";
   "INTENSITY_RESAMPLING"; "MERGE_MASKS"; "MASK_THRESHOLDING"; "I-WINDOWING";
   "I-HARMONIZE"; "N4-BIAS-FIELD-CORRECTION"; "RADIOMICS"; "SEGMENTATION";
   "F-NORMALIZE"; "F-HARMONIZE"; "PREDICT"; "COPY"].

Definition token : string := "PREVIOUS_BLOCK_OUTPUT_FOLDER".

(** [params[k]] is [v]. *)
Definition holds (k : string) (v : value) (s : state) : Prop :=
  params s !! k = Some v.

(** The input folder is still the token, and [prev] is the previous
    output folder. *)
Definition pending (prev : value) (s : state) : Prop :=
  params s !! "inputFolder" = Some (VStr token) /\ previous_outFolder s = prev.

(** No suffix, and no output folder or the empty one. *)
Definition no_output (s : state) : Prop :=
  params s !! "outputFolderSuffix" = None
  /\ (params s !! "outputFolder" = None
      \/ params s !! "outputFolder" = Some (VStr "")).

Ltac atom_holds :=
  let H := fresh "H" in
  unfold preserves, holds; intros H; cbn [params];
  first [ assumption
        | by rewrite lookup_fill, H
        | by rewrite dict_lookup_insert_ne ].

Ltac atom_pending :=
  let H1 := fresh "H" in
  let H2 := fresh "H" in
  unfold preserves, pending; intros [H1 H2];
  cbn [params previous_outFolder];
  split;
  first [ assumption
        | by rewrite lookup_fill, H1
        | by rewrite dict_lookup_insert_ne ].

Ltac atom_no_output :=
  let H1 := fresh "H" in
  let H2 := fresh "H" in
  unfold preserves, no_output; intros [H1 H2]; cbn [params];
  split;
  [ first [ assumption | by rewrite lookup_fill, H1
          | by rewrite dict_lookup_insert_ne ]
  | first [ assumption
          | right; by rewrite dict_lookup_insert_eq
          | destruct H2 as [H2|H2];
            [ left | right ];
            first [ by rewrite lookup_fill, H2
                  | by rewrite dict_lookup_insert_ne ]
          | destruct H2 as [H2|H2]; right; by rewrite lookup_fill, H2 ] ].

Section Steps.
Context (rt : runtime) (inputPath : string) (verbose : bool).

Lemma input_from_command_line_pending prev :
  frames (preserves (pending prev)) (input_from_command_line inputPath).
Proof.
  apply preserves_wp. intros s [H1 H2]. wp_go. by split.
Qed.

Lemma output_from_suffix_holds v otherwise :
  frames (preserves (holds "outputFolder" v)) (output_from_suffix rt otherwise).
Proof.
  apply preserves_wp. intros s H. unfold holds in H. wp_go. done.
Qed.

Lemma output_from_suffix_no_output otherwise :
  frames (preserves no_output) otherwise ->
  frames (preserves no_output) (output_from_suffix rt otherwise).
Proof.
  intros Ho. apply preserves_wp. intros s [H1 [H2|H2]].
  - unfold output_from_suffix. wp_go.
    unfold wp. apply Ho. split; auto.
  - wp_go. split; auto.
Qed.

(** When [m] ends normally from a state where the token is pending, the
    input folder is the previous output folder. *)
Definition resolves {A} (prev : value) (m : M A) : Prop :=
  forall s a s', pending prev s -> m s = (Done a, s') ->
    params s' !! "inputFolder" = Some prev.

Lemma resolves_here {A} prev (f : unit -> M A) :
  (forall a, frames (preserves (holds "inputFolder" prev)) (f a)) ->
  resolves prev (from_previous_block "inputFolder" ≫= f).
Proof.
  intros Hf s a s' [H1 H2] E.
  apply bind_done in E as ([] & s1 & E1 & E2).
  assert (holds "inputFolder" prev s1) as H.
  { clear E2. revert s1 E1. apply wp_done. wp_go.
    unfold holds. cbn [params]. by rewrite dict_lookup_insert_eq, H2. }
  specialize (Hf () s1). rewrite E2 in Hf. by apply Hf.
Qed.

Lemma resolves_later {A B} prev (m : M A) (f : A -> M B) :
  frames (preserves (pending prev)) m ->
  (forall a, resolves prev (f a)) ->
  resolves prev (m ≫= f).
Proof.
  intros Hm Hf s b s' H E.
  apply bind_done in E as (a & s1 & E1 & E2).
  specialize (Hm s). rewrite E1 in Hm.
  eapply Hf; [|exact E2]. by apply Hm.
Qed.

Lemma resolves_then {A B} prev (m : M A) (f : A -> M B) :
  resolves prev m ->
  (forall a, frames (preserves (holds "inputFolder" prev)) (f a)) ->
  resolves prev (m ≫= f).
Proof.
  intros Hm Hf s b s' H E.
  apply bind_done in E as (a & s1 & E1 & E2).
  specialize (Hf a s1). rewrite E2 in Hf. apply Hf. by eapply Hm.
Qed.
End Steps.

(** The steps that keep a property only as a whole. *)

Ltac special_holds_output :=
  idtac;
  lazymatch goal with
  | |- frames _ (output_from_suffix _ _) => apply output_from_suffix_holds
  end.
Ltac special_pending :=
  idtac;
  lazymatch goal with
  | |- frames _ (input_from_command_line _) =>
      apply input_from_command_line_pending
  end.
Ltac special_no_output :=
  idtac;
  lazymatch goal with
  | |- frames _ (output_from_suffix _ _) =>
      apply output_from_suffix_no_output
  end.

Ltac resolves_tac :=
  lazymatch goal with
  | |- resolves _ (from_previous_block "inputFolder" ≫= _) =>
      apply resolves_here; intros ?;
      solve [frames_with no_special atom_holds]
  | |- resolves _ (?m ≫= _) =>
      first [ apply resolves_later;
              [ solve [frames_with special_pending atom_pending]
              | intros ?; resolves_tac ]
            | apply resolves_then;
              [ resolves_tac
              | intros ?; solve [frames_with no_special atom_holds] ] ]
  | |- resolves _ ?m => let h := head_of m in unfold h; resolves_tac
  end.

(** The stages that replace the token in [params['inputFolder']]: all but
    [CHECK_FOLDER] and [DELETE]. *)
Definition resolving_stages : list string :=
  ["REORGANIZE"; "DCM2NII"; "SPATIAL_RESAMPLING";
   "INTENSITY_RESAMPLING"; "MERGE_MASKS"; "MASK_THRESHOLDING"; "I-WINDOWING";
   "I-HARMONIZE"; "N4-BIAS-FIELD-CORRECTION"; "RADIOMICS"; "SEGMENTATION";
   "F-NORMALIZE"; "F-HARMONIZE"; "PREDICT"; "COPY"].

(** Among them, the stages that go on without an output folder, and leave
    it empty or absent. *)
Definition pass_through_stages : list string :=
  ["REORGANIZE"; "INTENSITY_RESAMPLING"; "MERGE_MASKS"; "MASK_THRESHOLDING";
   "I-WINDOWING"; "I-HARMONIZE"; "N4-BIAS-FIELD-CORRECTION"; "SEGMENTATION";
   "F-NORMALIZE"; "F-HARMONIZE"; "PREDICT"; "COPY"].

Ltac stage_cases Hin :=
  cbn [In resolving_stages pass_through_stages] in Hin;
  repeat (destruct Hin as [<-|Hin]); [..|done];
  match goal with
  | |- context [run_stage ?r ?i ?v ?f] =>
      let m := eval cbv [run_stage stage_table List.find String.eqb
                         Ascii.eqb Bool.eqb fst snd] in (run_stage r i v f) in
      change (run_stage r i v f) with m
  end.

Section WithRun.
Context (rt : runtime) (configFile inputPath : string) (verbose : bool).

(** *** The dot *)

Lemma dot_prefix table text code s :
  params s !! "inputFolder" = Some (VStr ".") ->
  (defaults table;; require "inputFolder" text code;;
   input_from_command_line "") s
  = (defaults table;; require "inputFolder" text code;;
     input_from_command_line ".") (printed dot_needs_input_option s).
Proof.
  intros H.
  assert (fill table (params s) !! "inputFolder" = Some (VStr ".")) as Hf
    by (by rewrite lookup_fill, H).
  transitivity
    (Done (), State (configs s) (global_params s) (fill table (params s))
                    (previous_outFolder s)
                    (trace s ++ [Print dot_needs_input_option])).
  - apply wp_eq. wp_go. reflexivity.
  - symmetry. apply wp_eq. unfold printed. wp_go.
    by rewrite dict_insert_id.
Qed.

Lemma dot_stage table text code (rest dispatch : M unit) s :
  params s !! "inputFolder" = Some (VStr ".") ->
  ((defaults table;; require "inputFolder" text code;;
    input_from_command_line "";; rest);; dispatch) s
  = ((defaults table;; require "inputFolder" text code;;
      input_from_command_line ".";; rest);; dispatch)
      (printed dot_needs_input_option s).
Proof.
  intros H. rewrite (bind_run _ _ s), (bind_run _ _ (printed _ _)).
  rewrite !bind_assoc3.
  rewrite (bind_run _ _ s), (bind_run _ _ (printed _ _)).
  by rewrite (dot_prefix _ _ _ _ H).
Qed.

(** C5: a stage that finds the dot in [params['inputFolder']] when no
    [-i] path was given prints the message about the [-i] option and goes
    on: the check itself ends normally, and the stage then runs as it
    runs with the option [-i .] from the state with the message printed,
    the dot being its input folder. This holds for each of the sixteen
    stages that read [params['inputFolder']]. *)
Theorem dot_without_input_option function s :
  In function stages_with_input ->
  params s !! "inputFolder" = Some (VStr ".") ->
  input_from_command_line "" s = (Done (), printed dot_needs_input_option s)
  /\ run_stage rt "" verbose function s
     = run_stage rt "." verbose function (printed dot_needs_input_option s).
Proof.
  intros Hin H. split.
  { apply wp_eq. wp_go. reflexivity. }
  unfold stages_with_input in Hin. cbn [In] in Hin.
  repeat (destruct Hin as [<-|Hin]); [..|done].
  all: match goal with
       | |- run_stage _ ?i _ ?f _ = _ =>
           let m := eval cbv [run_stage stage_table List.find String.eqb
                              Ascii.eqb Bool.eqb fst snd] in
                    (run_stage rt i verbose f) in
           change (run_stage rt i verbose f) with m
       end.
  all: match goal with
       | |- _ = run_stage _ ?i _ ?f _ =>
           let m := eval cbv [run_stage stage_table List.find String.eqb
                              Ascii.eqb Bool.eqb fst snd] in
                    (run_stage rt i verbose f) in
           change (run_stage rt i verbose f) with m
       end.
  all: match goal with
       | |- (?m ≫= _) _ = _ => let h := head_of m in unfold h
       end.
  all: by apply dot_stage.
Qed.

(** *** The token of the previous block *)

(** A declared output folder is never replaced. *)
Lemma stage_table_holds_output v :
  Forall (fun row => frames (preserves (holds "outputFolder" v)) (row.2.1;; row.2.2))
    (stage_table rt inputPath verbose).
Proof.
  repeat first [apply Forall_nil_2 | apply Forall_cons_2]; cbn [fst snd].
  all: frames_with special_holds_output atom_holds.
Qed.

Lemma run_stage_resolves prev function :
  In function resolving_stages ->
  resolves prev (run_stage rt inputPath verbose function).
Proof. intros Hin. stage_cases Hin; resolves_tac. Qed.

Lemma run_stage_no_output function :
  In function pass_through_stages ->
  frames (preserves no_output) (run_stage rt inputPath verbose function).
Proof.
  intros Hin.
  stage_cases Hin;
    frames_with special_no_output atom_no_output.
Qed.
Lemma record_outputFolder_declared q s' folder :
  params q !! "outputFolder" = Some (VStr folder) -> folder <> "" ->
  record_outputFolder q = (Done (), s') ->
  previous_outFolder s' = VStr folder.
Proof.
  intros H Hne. revert s'. apply wp_done.
  apply String.eqb_neq in Hne. wp_go.
  all: try done.
  all: cbn [eq_str] in *; rewrite Hne in *; done.
Qed.

Lemma record_outputFolder_no_output q s' :
  no_output q -> record_outputFolder q = (Done (), s') -> s' = q.
Proof.
  intros [_ [H|H]]; revert s'; apply wp_done; wp_go; try done.
  all: by destruct q.
Qed.

(** C3: three blocks of stages run one after the other, each ending
    normally. The first one starts with [outputFolder] set to a folder
    that is not the empty string. The second one is of a kind that
    replaces the token and goes on without an output folder
    ([pass_through_stages]); it starts with the token as [inputFolder],
    and with neither [outputFolder] nor [outputFolderSuffix]. The third
    one is of a kind that replaces the token ([resolving_stages]) and
    starts with the token as [inputFolder]. Then the input folder of the
    second stage is the folder of the first, the previous output folder
    after the second stage is still that folder, and the input folder of
    the third stage is that folder too. *)
Theorem previous_block_output_folder_chain
    cfg1 cfg2 cfg3 f1 f2 f3 folder s0 s1 s2 s3 :
  let entry cfg s := (overlay rt cfg s).2 in
  let run_block := run_block rt inputPath verbose in
  series_getitem cfg1 "function" = Done (Scalar f1) ->
  f1 <> "GLOBAL_PARAMETERS" ->
  params (entry cfg1 s0) !! "outputFolder" = Some (VStr folder) ->
  folder <> "" ->
  run_block cfg1 s0 = (Done (), s1) ->
  series_getitem cfg2 "function" = Done (Scalar f2) ->
  In f2 pass_through_stages ->
  params (entry cfg2 s1) !! "inputFolder" = Some (VStr token) ->
  params (entry cfg2 s1) !! "outputFolder" = None ->
  params (entry cfg2 s1) !! "outputFolderSuffix" = None ->
  run_block cfg2 s1 = (Done (), s2) ->
  series_getitem cfg3 "function" = Done (Scalar f3) ->
  In f3 resolving_stages ->
  params (entry cfg3 s2) !! "inputFolder" = Some (VStr token) ->
  run_block cfg3 s2 = (Done (), s3) ->
  params s2 !! "inputFolder" = Some (VStr folder)
  /\ previous_outFolder s2 = VStr folder
  /\ params s3 !! "inputFolder" = Some (VStr folder).
Proof.
  intros entry run_block' F1 G1 O1 Hne R1 F2 K2 I2 O2 S2 R2 F3 K3 I3 R3.
  subst entry run_block'. cbv beta in *.
  assert (forall f, In f resolving_stages -> f <> "GLOBAL_PARAMETERS") as Hres.
  { intros f Hin ->. cbn in Hin.
    repeat (destruct Hin as [Hin|Hin]; [discriminate|]). done. }
  assert (In f2 resolving_stages) as K2'.
  { pose proof K2 as H. cbn in H.
    repeat (destruct H as [<-|H]; [cbn; tauto|]). done. }
  (* the first stage *)
  apply (run_block_stage _ _ _ _ _ _ _ F1 G1) in R1 as (e1 & q1 & E1 & Q1 & T1).
  rewrite E1 in O1. cbn [snd] in O1.
  pose proof (run_stage_frames rt inputPath verbose
                (preserves (holds "outputFolder" (VStr folder)))
                f1 (stage_table_holds_output _) e1) as H1.
  rewrite Q1 in H1. cbn [snd] in H1. specialize (H1 O1).
  pose proof (record_outputFolder_declared _ _ _ H1 Hne T1) as P1.
  (* the second stage *)
  apply (run_block_stage _ _ _ _ _ _ _ F2 (Hres _ K2')) in R2 as (e2 & q2 & E2 & Q2 & T2).
  rewrite E2 in I2, O2, S2. cbn [snd] in I2, O2, S2.
  pose proof (overlay_same_previous rt cfg2 s1) as P2. rewrite E2 in P2.
  unfold same_previous in P2. cbn [snd] in P2. rewrite P1 in P2.
  pose proof (run_stage_resolves (VStr folder) f2 K2'
                e2 () q2 (conj I2 P2) Q2) as D2.
  pose proof (run_stage_no_output f2 K2 e2) as N2.
  rewrite Q2 in N2. cbn [snd] in N2. specialize (N2 (conj S2 (or_introl O2))).
  pose proof (run_stage_frames rt inputPath verbose same_previous f2
                (stage_table_same_previous rt inputPath verbose) e2) as V2.
  rewrite Q2 in V2. unfold same_previous in V2. cbn [snd] in V2.
  apply (record_outputFolder_no_output _ _ N2) in T2. subst s2.
  rewrite <- V2 in P2. split; [done|]. split; [done|].
  (* the third stage *)
  apply (run_block_stage _ _ _ _ _ _ _ F3 (Hres _ K3)) in R3 as (e3 & q3 & E3 & Q3 & T3).
  rewrite E3 in I3. cbn [snd] in I3.
  pose proof (overlay_same_previous rt cfg3 q2) as P3. rewrite E3 in P3.
  unfold same_previous in P3. cbn [snd] in P3. rewrite P2 in P3.
  pose proof (run_stage_resolves (VStr folder) f3 K3
                e3 () q3 (conj I3 P3) Q3) as D3.
  pose proof (record_outputFolder_same_params q3) as M3. rewrite T3 in M3.
  unfold same_params in M3. cbn [snd] in M3. by rewrite M3.
Qed.

(** *** The file of three stages *)

(** C1: on the file of three stages [CHECK_FOLDER], [REORGANIZE] and
    [RADIOMICS] ([Sample.check_reorganize_radiomics]), when the probe of the folder answers that it is ready to be
    reorganized, the run ends normally after three subprocesses: the
    probe on [/data], the reorganization with the empty string as its
    input folder (no stage before it has set an output folder), and the
    radiomics extraction whose input folder is the output folder given
    to the reorganization. *)
Theorem check_reorganize_radiomics_folders :
  (forall tr prog, exists out,
      check_output rt tr prog = Some out
      /\ says_ready out = false /\ says_ready_to_reorganize out = true) ->
  let run := main rt configFile inputPath verbose
               Sample.check_reorganize_radiomics initial in
  run.1 = Done () /\
  exists output flags flags',
   dispatched (trace run.2) =
     [python "src/StructFolderCheck.py" ["-i"; "/data"; "--log"; ""];
      python "src/reorganize_multiprocessing.py"
        ("-i" :: "" :: "-o" :: output :: flags);
      python "src/radiomics_multiprocessing.py" ("-i" :: output :: flags')].
Proof.
  intros H run. subst run.
  apply (wp_pair _ _ (fun o s' =>
           o = Done ()
           /\ exists output flags flags', dispatched (trace s') = _)).
  destruct verbose.
  all: unfold main.
  all: apply wp_bind; wp_compute.
  all: wp_run.
  all: split; [done|].
  all: match goal with
       | |- context [dispatched (trace ?s)] =>
           let d := eval vm_compute in (dispatched (trace s)) in
           replace (dispatched (trace s)) with d by (vm_compute; reflexivity)
       end.
  all: by eexists _, _, _.
Qed.

End WithRun.

Lemma dot_without_input_option_witness :
  let rt := Sample.machine None true in
  let s := Sample.with_params
             [("function", VStr "COPY"); ("inputFolder", VStr ".")] in
  input_from_command_line "" s = (Done (), printed dot_needs_input_option s)
  /\ run_stage rt "" false "COPY" s
     = run_stage rt "." false "COPY" (printed dot_needs_input_option s).
Proof.
  intros rt s.
  apply (dot_without_input_option rt false "COPY" s);
    [vm_compute; tauto | reflexivity].
Defined.

(** Without the [-i] option, the stage of [dot_file] is run on the dot:
    the message is followed by the probe, and the run ends normally. *)
Lemma dot_file_is_dispatched :
  let r := Sample.run (Sample.machine (Some ready_text) true) Sample.dot_file in
  r.1 = Done ()
  /\ trace r.2 =
       [Print dot_needs_input_option;
        CheckOutput (python "src/StructFolderCheck.py"
                       ["-i"; "."; "--log"; ""])].
Proof. by vm_compute. Qed.

Lemma previous_block_output_folder_chain_witness :
  let rt := Sample.machine None true in
  let s1 := (run_block rt "" false Sample.convert_block initial).2 in
  let s2 := (run_block rt "" false Sample.resample_block s1).2 in
  let s3 := (run_block rt "" false Sample.copy_on_block s2).2 in
  params s2 !! "inputFolder" = Some (VStr "/a")
  /\ previous_outFolder s2 = VStr "/a"
  /\ params s3 !! "inputFolder" = Some (VStr "/a").
Proof.
  intros rt s1 s2 s3.
  apply (previous_block_output_folder_chain rt "" false
           Sample.convert_block Sample.resample_block Sample.copy_on_block
           "DCM2NII" "INTENSITY_RESAMPLING" "COPY" "/a" initial s1 s2 s3);
    first [ by vm_compute | vm_compute; tauto ].
Defined.

(** [RADIOMICS] in the middle, without an output folder: it sets [~/],
    which the third stage then takes for its input folder. *)
Lemma radiomics_in_the_middle_breaks_chain :
  let r := Sample.run (Sample.machine None true)
             Sample.radiomics_in_the_middle in
  r.1 = Done ()
  /\ dispatched (trace r.2) =
       [python "src/dcm2nii_multiprocessing.py"
          ["-i"; "/in"; "-o"; "/a"; "--log"; ""; "-j"; "1"; "-m"; ".*";
           "--all-segmentation"];
        python "src/radiomics_multiprocessing.py"
          ["-i"; "/a"; "-o"; "~/"; "--log"; ""; "-j"; "1";
           "-I"; "img.nii.gz"; "-M"; "msk.nii.gz"; "-R"; "radiomics.xlsx";
           "-c"; "/cfg.txt"; "-p"; ""; "--stats_filename"; ""];
        python "src/copy_folder_contents.py"
          ["-i"; "~/"; "--log"; ""; "-o"; ""]]
  /\ previous_outFolder r.2 = VStr "~/".
Proof. by vm_compute. Qed.

Lemma check_reorganize_radiomics_folders_witness :
  let rt := Sample.machine (Some ready_to_reorganize_text) true in
  let run := main rt "pipeline.txt" "" false
               Sample.check_reorganize_radiomics initial in
  run.1 = Done () /\
  exists output flags flags',
   dispatched (trace run.2) =
     [python "src/StructFolderCheck.py" ["-i"; "/data"; "--log"; ""];
      python "src/reorganize_multiprocessing.py"
        ("-i" :: "" :: "-o" :: output :: flags);
      python "src/radiomics_multiprocessing.py" ("-i" :: output :: flags')].
Proof.
  intros rt.
  apply (check_reorganize_radiomics_folders rt "pipeline.txt" "" false).
  intros tr prog. exists ready_to_reorganize_text.
  by vm_compute.
Defined.

(** The folders of that run on one machine: the reorganization gets the
    empty string and not [/data], and its output folder is made from the
    token. *)
Lemma check_reorganize_radiomics_run :
  let r := Sample.run (Sample.machine (Some ready_to_reorganize_text) true)
             Sample.check_reorganize_radiomics in
  r.1 = Done ()
  /\ dispatched (trace r.2) =
       [python "src/StructFolderCheck.py" ["-i"; "/data"; "--log"; ""];
        python "src/reorganize_multiprocessing.py"
          ["-i"; ""; "-o"; "PREVIOUS_BLOCK_OUTPUT_FOLDER_ready"; "--log"; "";
           "--all-segmentation"; "-j"; "1"];
        python "src/radiomics_multiprocessing.py"
          ["-i"; "PREVIOUS_BLOCK_OUTPUT_FOLDER_ready"; "-o"; "~/";
           "--log"; ""; "-j"; "1"; "-I"; "img.nii.gz"; "-M"; "msk.nii.gz";
           "-R"; "radiomics.xlsx"; "-c"; "/cfg.txt"; "-p"; "";
           "--stats_filename"; ""]].
Proof. by vm_compute. Qed.

End Folders.

(** ** Three stages: REORGANIZE, MERGE MASKS and CHECK FOLDER *)

Module Branches.
Import PyStr PyVal Coerce Run Msg Step Stages Reader Orchestrator Logic Frame Laws.
Import Loop.

(** The status that the REORGANIZE stage reads: the value of
    [global_params['Structure']], or ["Unknow"] when the key is absent. *)
Definition structure_status (s : state) : value :=
  default (VStr "Unknow") (global_params s !! "Structure").

Section WithRun.
Context (rt : runtime) (inputPath : string) (verbose : bool).

(** *** REORGANIZE *)

Lemma REORGANIZE_resolve_keys :
  Forall (fun k => ensures k (REORGANIZE_resolve rt inputPath verbose))
    ["timer"; "with-segmentation"; "all-data-with-segmentation"; "verbose";
     "new_log_file"; "inputFolder"; "outputFolder"; "inplace"; "log"; "skip";
     "include"; "multiprocessing"; "mv"].
Proof. repeat constructor; ensures_tac. Qed.

Lemma REORGANIZE_resolve_quiet :
  frames nothing_dispatched (REORGANIZE_resolve rt inputPath verbose).
Proof. frames_nothing_dispatched. Qed.

Lemma REORGANIZE_resolve_globals :
  frames same_globals (REORGANIZE_resolve rt inputPath verbose).
Proof. frames_same_globals. Qed.

(** C4: a REORGANIZE stage whose parameters are resolved, by the value
    of [global_params['Structure']]. On ['Invalid'] the stage exits and
    no subprocess is started. On ['Ready'] the only subprocess that can
    be started is [no_reorganize.py], and it is started when
    [params['inplace'] == False] and not otherwise. On any other value,
    or without the key, the subprocess is
    [reorganize_multiprocessing.py]. *)
Theorem REORGANIZE_branching s s1 :
  REORGANIZE_resolve rt inputPath verbose s = (Done (), s1) ->
  let run := REORGANIZE rt inputPath verbose s in
  let st := structure_status s in
  (eq_str st "Invalid" = true ->
     run.1 = Exit None /\ dispatched (trace run.2) = dispatched (trace s))
  /\ (eq_str st "Ready" = true ->
     exists inplace flags,
       params s1 !! "inplace" = Some inplace /\
       run.1 = Done () /\
       dispatched (trace run.2) =
         (dispatched (trace s) ++
          (if eq_bool rt inplace false
           then [python "src/no_reorganize.py" flags] else []))%list)
  /\ (eq_str st "Invalid" = false -> eq_str st "Ready" = false ->
     exists flags,
       run.1 = Done () /\
       dispatched (trace run.2) =
         (dispatched (trace s) ++
          [python "src/reorganize_multiprocessing.py" flags])%list).
Proof.
  intros Hres run st.
  pose proof (ensures_Forall _ _ _ _ _ REORGANIZE_resolve_keys Hres) as Hk.
  keys_of Hk.
  pose proof (REORGANIZE_resolve_quiet s) as Hq.
  pose proof (REORGANIZE_resolve_globals s) as Hg.
  rewrite Hres in Hq, Hg. unfold nothing_dispatched, same_globals in *.
  cbn [snd] in *.
  assert (Hrun : run = REORGANIZE_dispatch rt s1).
  { unfold run, REORGANIZE, mbind, M_bind. by rewrite Hres. }
  rewrite Hrun. clear Hrun run. rewrite <- Hq. clear Hq Hres.
  subst st. unfold structure_status. rewrite <- Hg. clear Hg.
  split; [|split].
  - intros Hst.
    apply (wp_pair _ _ (fun o s' => o = _ /\ dispatched (trace s') = _)).
    destruct (global_params s1 !! "Structure") as [v|] eqn:EG;
      cbn [default from_option id] in Hst; [|done].
    wp_go. finish.
  - intros Hst. do 2 eexists. split; [eassumption|].
    apply (wp_pair _ _ (fun o s' => o = _ /\ dispatched (trace s') = _)).
    destruct (global_params s1 !! "Structure") as [v|] eqn:EG;
      cbn [default from_option id] in Hst; [|done].
    assert (Hinv : eq_str v "Invalid" = false).
    { destruct v; try done. cbn in *. apply String.eqb_eq in Hst as ->. done. }
    wp_go.
    all: finish.
  - intros Hst1 Hst2.
    destruct (truthy rt x1) eqn:?, (eq_str x8 "") eqn:?, (eq_str x9 "") eqn:?.
    all: eexists.
    all: apply (wp_pair _ _ (fun o s' => o = _ /\ dispatched (trace s') = _)).
    all: destruct (global_params s1 !! "Structure") as [v|] eqn:EG;
      cbn [default from_option id] in Hst1, Hst2.
    all: wp_go.
    all: finish.
Qed.

(** *** MERGE MASKS *)

Lemma MERGE_MASKS_resolve_keys :
  Forall (fun k => ensures k (MERGE_MASKS_resolve rt inputPath verbose))
    ["inputFolder"; "outputFolder"; "log"; "multiprocessing"].
Proof. repeat constructor; ensures_tac. Qed.

Lemma MERGE_MASKS_resolve_mask_name :
  frames (still_absent "mask_name") (MERGE_MASKS_resolve rt inputPath verbose).
Proof. frames_still_absent. Qed.

Lemma MERGE_MASKS_resolve_quiet :
  frames nothing_dispatched (MERGE_MASKS_resolve rt inputPath verbose).
Proof. frames_nothing_dispatched. Qed.

(** C9: a MERGE_MASKS block whose parameters have no key [mask_name]
    and are resolved normally (so exactly one of [reg] and [add] is
    there): the resolution leaves [mask_name] absent, the flags read
    [params['mask_name']], and the [KeyError] ends the stage and the
    loop of [main], before any subprocess of the stage. *)
Theorem MERGE_MASKS_mask_name_KeyError cfg rest s0 s s1 :
  series_getitem cfg "function" = Done (Scalar "MERGE_MASKS") ->
  overlay rt cfg s0 = (Done (), s) ->
  MERGE_MASKS_resolve rt inputPath verbose s = (Done (), s1) ->
  params s !! "mask_name" = None ->
  params s1 !! "mask_name" = None
  /\ MERGE_MASKS rt inputPath verbose s = (Raise (KeyError "mask_name"), s1)
  /\ for_each (cfg :: rest) (run_block rt inputPath verbose) s0
     = (Raise (KeyError "mask_name"), s1)
  /\ dispatched (trace s1) = dispatched (trace s0).
Proof.
  intros Hf Hov Hres Hm.
  pose proof (ensures_Forall _ _ _ _ _ MERGE_MASKS_resolve_keys Hres) as Hk.
  keys_of Hk.
  pose proof (MERGE_MASKS_resolve_mask_name s) as Ha.
  pose proof (MERGE_MASKS_resolve_quiet s) as Hq.
  pose proof (overlay_quiet rt cfg s0) as Hq0.
  rewrite Hres in Ha, Hq. rewrite Hov in Hq0.
  unfold still_absent, nothing_dispatched in *. cbn [snd] in *.
  specialize (Ha Hm).
  assert (Hd : MERGE_MASKS_dispatch rt s1 = (Raise (KeyError "mask_name"), s1)).
  { apply wp_eq. wp_go. done. }
  assert (Hs : MERGE_MASKS rt inputPath verbose s = (Raise (KeyError "mask_name"), s1)).
  { unfold MERGE_MASKS, mbind, M_bind. by rewrite Hres. }
  split; [done|]. split; [done|]. split; [|congruence].
  apply for_each_cons_raise.
  unfold run_block, mbind, M_bind, lift. rewrite Hf. cbn [cell_eq String.eqb Ascii.eqb Bool.eqb negb when].
  rewrite Hov.
  change (run_stage rt inputPath verbose "MERGE_MASKS")
    with (MERGE_MASKS rt inputPath verbose).
  by rewrite Hs.
Qed.

(** *** CHECK FOLDER *)

(** Every label of the block is a key of [params] after the overlay. *)
Lemma overlay_keys cfg s0 s k :
  overlay rt cfg s0 = (Done (), s) -> In k (List.map fst cfg) ->
  is_Some (params s !! k).
Proof.
  unfold overlay. unfold mbind at 1, M_bind at 1, get. cbv beta iota.
  unfold mbind at 1, M_bind at 1, set_params. cbv beta iota.
  generalize (State (configs s0) (global_params s0) (global_params s0)
                (previous_outFolder s0) (trace s0)).
  clear s0. induction (List.map fst cfg) as [|i r IH]; intros s0 E Hin.
  { destruct Hin. }
  cbn [for_each] in E. unfold mbind at 1, M_bind at 1 in E.
  destruct ((lift (series_getitem cfg i)
             ≫= λ c, lift (parse_cell rt c) ≫= λ v, setitem i v) s0)
    as [[[]|c|e] s1] eqn:E1; [|done..].
  destruct Hin as [->|Hin]; [|by eapply IH].
  assert (H1 : is_Some (params s1 !! k)).
  { assert (He : ensures k (lift (series_getitem cfg k)
             ≫= λ c, lift (parse_cell rt c) ≫= λ v, setitem k v)).
    { ensures_tac. }
    by eapply He. }
  assert (Hm : frames more_keys (for_each r (λ i,
             lift (series_getitem cfg i)
             ≫= λ c, lift (parse_cell rt c) ≫= λ v, setitem i v))).
  { frames_more_keys. }
  specialize (Hm s1). rewrite E in Hm. by apply Hm.
Qed.

(** C10: a CHECK_FOLDER block with an input folder, when the probe
    answers neither that the folder is ready nor that it can be
    reorganized: the stage sets [global_params['Structure']] to
    ['Invalid'], the exit is caught by the [except] of the stage, whose
    message is the last thing printed, and the loop of [main] goes on
    with the next block. *)
Theorem CHECK_FOLDER_invalid_continues cfg rest s0 s :
  series_getitem cfg "function" = Done (Scalar "CHECK_FOLDER") ->
  overlay rt cfg s0 = (Done (), s) ->
  is_Some (params s !! "inputFolder") ->
  (forall tr prog, exists out,
      check_output rt tr prog = Some out /\
      says_ready out = false /\ says_ready_to_reorganize out = false) ->
  let run := run_block rt inputPath verbose cfg s0 in
  run.1 = Done ()
  /\ global_params run.2 !! "Structure" = Some (VStr "Invalid")
  /\ last (trace run.2) = Some (Print (red "ERROR running the script StructFolderCheck.py"))
  /\ for_each (cfg :: rest) (run_block rt inputPath verbose) s0
     = for_each rest (run_block rt inputPath verbose) run.2.
Proof.
  intros Hf Hov [i Hi] Hprobe run.
  destruct (overlay_keys _ _ _ "function" Hov (Config.series_getitem_In _ _ _ Hf))
    as [f Hfn].
  assert (H3 : run.1 = Done ()
    /\ global_params run.2 !! "Structure" = Some (VStr "Invalid")
    /\ last (trace run.2) = Some (Print (red "ERROR running the script StructFolderCheck.py"))).
  { apply (wp_pair _ _ (fun o s' => o = _ /\ global_params s' !! "Structure" = _
                                   /\ last (trace s') = _)).
    wp_go.
    all: split; [done|split; [by rewrite dict_lookup_insert_eq|apply last_snoc]]. }
  destruct H3 as (H1 & H2 & H3). repeat split; try done.
  by apply for_each_cons_done.
Qed.

End WithRun.

Lemma REORGANIZE_branching_witness :
  let rt := Sample.machine None true in
  let s := Sample.with_params
             [("function", VStr "REORGANIZE"); ("inputFolder", VStr "/data")] in
  let s1 := (REORGANIZE_resolve rt "" false s).2 in
  let run := REORGANIZE rt "" false s in
  let st := structure_status s in
  (eq_str st "Invalid" = true ->
     run.1 = Exit None /\ dispatched (trace run.2) = dispatched (trace s))
  /\ (eq_str st "Ready" = true ->
     exists inplace flags,
       params s1 !! "inplace" = Some inplace /\
       run.1 = Done () /\
       dispatched (trace run.2) =
         (dispatched (trace s) ++
          (if eq_bool rt inplace false
           then [python "src/no_reorganize.py" flags] else []))%list)
  /\ (eq_str st "Invalid" = false -> eq_str st "Ready" = false ->
     exists flags,
       run.1 = Done () /\
       dispatched (trace run.2) =
         (dispatched (trace s) ++
          [python "src/reorganize_multiprocessing.py" flags])%list).
Proof.
  intros rt s s1.
  apply (REORGANIZE_branching rt "" false s s1).
  by vm_compute.
Defined.

Lemma MERGE_MASKS_mask_name_KeyError_witness :
  let rt := Sample.machine None true in
  let s := (overlay rt Sample.merge_block initial).2 in
  let s1 := (MERGE_MASKS_resolve rt "" false s).2 in
  params s1 !! "mask_name" = None
  /\ MERGE_MASKS rt "" false s = (Raise (KeyError "mask_name"), s1)
  /\ for_each [Sample.merge_block; Sample.copy_block] (run_block rt "" false)
       initial
     = (Raise (KeyError "mask_name"), s1)
  /\ dispatched (trace s1) = dispatched (trace initial).
Proof.
  intros rt s s1.
  apply (MERGE_MASKS_mask_name_KeyError rt "" false Sample.merge_block
           [Sample.copy_block] initial s s1);
    by vm_compute.
Defined.

Lemma CHECK_FOLDER_invalid_continues_witness :
  let rt := Sample.machine (Some "no such folder") true in
  let run := run_block rt "" false Sample.check_block initial in
  run.1 = Done ()
  /\ global_params run.2 !! "Structure" = Some (VStr "Invalid")
  /\ last (trace run.2)
     = Some (Print (red "ERROR running the script StructFolderCheck.py"))
  /\ for_each [Sample.check_block; Sample.copy_block] (run_block rt "" false)
       initial
     = for_each [Sample.copy_block] (run_block rt "" false) run.2.
Proof.
  intros rt.
  apply (CHECK_FOLDER_invalid_continues rt "" false Sample.check_block
           [Sample.copy_block] initial (overlay rt Sample.check_block initial).2).
  - by vm_compute.
  - by vm_compute.
  - exists (VStr "/data"). by vm_compute.
  - intros tr prog. exists "no such folder". by vm_compute.
Defined.

End Branches.

(** ** More about the reader *)

Module ReaderFacts.
Import PyStr PyVal Coerce Run Msg Step Stages Reader Orchestrator Logic Frame Laws.

(** A line that [read_line] skips: empty once stripped, or a comment. *)
Definition is_skipped (raw_line : string) : bool :=
  match strip raw_line with
  | EmptyString => true
  | String c0 _ => ch_eqb c0 "#"
  end.

(** A line that closes a block when one is open. *)
Definition is_closing (raw_line : string) : bool :=
  match strip raw_line with
  | EmptyString => false
  | String c0 _ => ch_eqb c0 "}"
  end.

(** [c in s] for a character. *)
Definition has_char (c : ascii) (s : string) : bool :=
  existsb (ch_eqb c) (list_ascii_of_string s).

(** A block as [main] expects it: it starts with the label [function]
    and one of the stage names. *)
Definition well_headed (block : series) : Prop :=
  exists n rest, block = ("function", n) :: rest /\ In n stage_names.

(** The values under the label [k], in the order of the block. *)
Definition values_of (k : string) (block : series) : list string :=
  List.map snd (List.filter (fun kv => String.eqb kv.1 k) block).

(** A block as the reader hands it to [main]: it starts with the label
    [function] and the name [n] of a stage, and [cfg["function"]] is
    [n], or, when a parameter line of the block has the key [function],
    the series of [n] and the values of these lines. *)
Definition headed (block : series) : Prop :=
  exists n rest,
    block = ("function", n) :: rest
    /\ In n stage_names
    /\ series_getitem block "function"
       = Done (if has_label "function" rest
               then SubSeries (n :: values_of "function" rest)
               else Scalar n).

Lemma well_headed_headed block : well_headed block -> headed block.
Proof.
  intros (n & rest & -> & Hn). exists n, rest. split; [done|]. split; [done|].
  unfold series_getitem, values_of, has_label.
  cbn [List.filter fst]. rewrite String.eqb_refl.
  induction rest as [|[k x] rest IH]; [done|].
  cbn [List.filter existsb fst].
  destruct (String.eqb k "function"); [done|]. cbn [orb].
  destruct (List.filter _ rest) as [|[k1 x1] l]; [|done].
  by destruct (existsb _ rest).
Qed.

Lemma split_without_separator c s :
  has_char c s = false -> split c s = [s].
Proof.
  unfold has_char. induction s as [|d s IH]; [done|].
  cbn [list_ascii_of_string existsb split].
  intros H. apply orb_false_iff in H as [H1 H2].
  rewrite H1, (IH H2). done.
Qed.

Section WithArguments.
Context (config_File : string) (verbose : bool).

#[local] Abbreviation read_line := (read_line config_File verbose).
#[local] Abbreviation read_lines := (read_lines config_File verbose).

Lemma read_lines_app r pre post s :
  read_lines r (pre ++ post)%list s
  = match fold_left (fun acc raw =>
            match acc with
            | (Done r, s) => read_line r raw s
            | other => other
            end) pre (Done r, s) with
    | (Done r', s') => read_lines r' post s'
    | (Exit c, s') => (Exit c, s')
    | (Raise e, s') => (Raise e, s')
    end.
Proof.
  revert r s. induction pre as [|raw pre IH]; intros r s; [done|].
  cbn [app Reader.read_lines fold_left]. rewrite bind_run.
  destruct (read_line r raw s) as [[r'|c|e] s'] eqn:E.
  - apply IH.
  - clear. induction pre; [done|]. done.
  - clear. induction pre; [done|]. done.
Qed.

Lemma read_line_skipped r raw s :
  is_skipped raw = true -> read_line r raw s = (Done r, s).
Proof.
  unfold is_skipped, Reader.read_line.
  destruct (strip raw) as [|c0 tl]; [done|]. by intros ->.
Qed.

(** X1: blank lines and comment lines may stand anywhere in the file. *)
Theorem skipped_lines_are_ignored r pre raw post s :
  is_skipped raw = true ->
  read_lines r (pre ++ raw :: post)%list s = read_lines r (pre ++ post)%list s.
Proof.
  intros H. rewrite !read_lines_app.
  destruct (fold_left _ pre _) as [[r'|c|e] s']; [|done..].
  cbn [Reader.read_lines]. rewrite bind_run. by rewrite read_line_skipped.
Qed.

(** X2: a parameter line without a colon before its comment. *)
Theorem parameter_line_without_colon r raw s :
  Config.is_parameter_line r raw = true ->
  has_char ":" (before_hash (Config.squeezed raw)) = false ->
  let line := Config.squeezed raw in
  forall rest,
  read_lines r (raw :: rest) s
  = (Exit (Some 1),
     State (configs s) (global_params s) (params s) (previous_outFolder s)
       (trace s ++
        [EPrint (red ("ERROR in the PIPELINE file (" +:+ line +:+ ")"));
         Print (red "ERROR in the PIPELINE file" +:+ " ("
                +:+ cyan line +:+ ")")])%list).
Proof.
  intros Hp Hc line rest. subst line.
  cbn [Reader.read_lines]. rewrite bind_run.
  unfold Config.is_parameter_line in Hp. unfold Config.squeezed in *.
  apply andb_true_iff in Hp as [Hp H3].
  apply andb_true_iff in Hp as [H1 H2].
  unfold Reader.read_line. destruct (strip raw) as [|c0 tl]; [done|].
  apply andb_true_iff in H3 as [H3 H6].
  apply andb_true_iff in H3 as [H4 H5].
  apply negb_true_iff in H4, H5, H6.
  rewrite H4, H1, H5, H2, H6.
  rewrite (split_without_separator _ _ Hc).
  unfold try_except. rewrite bind_run. unfold lift at 1.
  cbn [nth_item lookup list_lookup]. cbv beta iota.
  unfold mbind, M_bind, print, emit, sys_exit. cbv beta iota.
  cbn [trace configs global_params params previous_outFolder].
  by rewrite <- app_assoc.
Qed.

(** The block that the reader is filling: still empty, or well headed. *)
Definition filling (r : reader) : Prop :=
  config r = [] \/ well_headed (config r).

Lemma well_headed_has_label block :
  well_headed block -> has_label "function" block = true.
Proof. intros (n & rest & -> & _). done. Qed.

Lemma well_headed_app block more :
  well_headed block -> well_headed (block ++ more)%list.
Proof. intros (n & rest & -> & Hn). by exists n, (rest ++ more)%list. Qed.

Lemma read_line_well_headed r raw s :
  filling r -> Forall well_headed (configs s) ->
  wp (read_line r raw) s (fun o s' =>
    Forall well_headed (configs s')
    /\ match o with Done r' => filling r' | _ => True end).
Proof.
  intros Hr Hs. unfold Reader.read_line.
  destruct (strip raw) as [|c0 tl]; [by apply wp_ret|].
  destruct (ch_eqb c0 "#"); [by apply wp_ret|].
  destruct (has_label "function" (config r)) eqn:Hl.
  - assert (well_headed (config r)) as Hw.
    { destruct Hr as [Hr|Hr]; [|done]. by rewrite Hr in Hl. }
    destruct (ch_eqb c0 "{"); [apply wp_ret; split; [done|by right]|].
    destruct (begin_param_list r); [|by apply wp_ret].
    destruct (ch_eqb c0 "}").
    + wp_go.
      all: split; [|by left].
      all: apply Forall_app; split; [done|]; by constructor.
    + wp_go.
      all: split; try done.
      all: right; cbn [config]; by apply well_headed_app.
  - destruct (find _ stage_names) as [n|] eqn:Hf.
    + apply wp_ret. split; [done|]. right. cbn [config].
      apply find_some in Hf as [Hin _].
      destruct Hr as [->|Hr]; [by exists n, []|].
      by rewrite (well_headed_has_label _ Hr) in Hl.
    + wp_go. done.
Qed.

Lemma read_lines_well_headed infile s :
  Forall well_headed (configs s) ->
  Forall well_headed
    (configs (read_config_file config_File verbose infile s).2).
Proof.
  unfold read_config_file.
  assert (filling (Reader false [])) as Hr by (by left).
  revert Hr. generalize (Reader false []). revert s.
  induction infile as [|raw rest IH]; intros s r Hr Hs; [done|].
  cbn [Reader.read_lines]. rewrite bind_run.
  pose proof (read_line_well_headed r raw s Hr Hs) as H. unfold wp in H.
  destruct (read_line r raw s) as [[r'|c|e] s']; cbn [fst snd] in H;
    destruct H as [H1 H2]; [|done..].
  by apply IH.
Qed.

(** X3: every block that the reader hands to [main] starts with the label
    [function] and the name [n] of a stage. [cfg["function"]] is [n] when
    no parameter line of the block has the key [function]; when one has,
    it is the series of [n] and the values of these lines, not a name. *)
Theorem read_config_file_well_headed infile s :
  Forall well_headed (configs s) ->
  Forall headed (configs (read_config_file config_File verbose infile s).2).
Proof.
  intros Hs. eapply Forall_impl; [by apply read_lines_well_headed|].
  apply well_headed_headed.
Qed.

Lemma read_line_configs r raw s :
  wp (read_line r raw) s (fun o s' =>
    exists new, configs s' = (configs s ++ new)%list
      /\ (length new <= if is_closing raw then 1 else 0)%nat).
Proof.
  unfold Reader.read_line, is_closing.
  destruct (strip raw) as [|c0 tl];
    [apply wp_ret; exists []; by rewrite app_nil_r|].
  destruct (ch_eqb c0 "#") eqn:E1;
    [apply wp_ret; exists []; rewrite app_nil_r; split; [done|simpl; lia]|].
  destruct (has_label "function" (config r)).
  - destruct (ch_eqb c0 "{");
      [apply wp_ret; exists []; rewrite app_nil_r; split; [done|simpl; lia]|].
    destruct (begin_param_list r);
      [|apply wp_ret; exists []; rewrite app_nil_r; split; [done|simpl; lia]].
    destruct (ch_eqb c0 "}").
    + wp_go. all: by exists [config r].
    + wp_go.
      all: exists []; rewrite app_nil_r; split; [done|simpl; lia].
  - destruct (find _ stage_names).
    + apply wp_ret; exists []; rewrite app_nil_r; split; [done|simpl; lia].
    + wp_go. exists []; rewrite app_nil_r; split; [done|simpl; lia].
Qed.

(** X4: the reader only appends to [configs], and at most one block for
    each line that starts with a closing brace. *)
Theorem blocks_end_with_a_brace r infile s :
  exists new,
    configs (read_lines r infile s).2 = (configs s ++ new)%list
    /\ (length new <= length (List.filter is_closing infile))%nat.
Proof.
  revert r s. induction infile as [|raw rest IH]; intros r s.
  { exists []. by rewrite app_nil_r. }
  cbn [Reader.read_lines List.filter]. rewrite bind_run.
  pose proof (read_line_configs r raw s) as H. unfold wp in H.
  destruct (read_line r raw s) as [[r'|c|e] s']; cbn [fst snd] in H;
    destruct H as (new & H1 & H2).
  - destruct (IH r' s') as (new' & H3 & H4).
    exists (new ++ new')%list. rewrite H3, H1, app_assoc. split; [done|].
    rewrite length_app. destruct (is_closing raw); simpl in *; lia.
  - exists new. cbn [snd]. split; [done|].
    destruct (is_closing raw); simpl in *; lia.
  - exists new. cbn [snd]. split; [done|].
    destruct (is_closing raw); simpl in *; lia.
Qed.

(** X5: a line that is the name of a stage opens the block of that stage:
    no name is taken for an earlier one of the list. *)
Theorem stage_names_are_read_as_themselves n b s :
  In n stage_names ->
  read_line (Reader b []) n s = (Done (Reader b [("function", n)]), s).
Proof.
  intros Hin. unfold stage_names in Hin. cbn [In] in Hin.
  repeat (destruct Hin as [<-|Hin]; [vm_compute; reflexivity|]).
  destruct Hin.
Qed.
End WithArguments.

Lemma skipped_lines_are_ignored_witness :
  read_lines "pipeline.txt" false (Reader false [])
    (["COPY"; "{"] ++ "# where the images are" :: ["inputFolder: /a"; "}"])%list
    initial
  = read_lines "pipeline.txt" false (Reader false [])
      (["COPY"; "{"] ++ ["inputFolder: /a"; "}"])%list initial.
Proof.
  apply (skipped_lines_are_ignored "pipeline.txt" false (Reader false [])
           ["COPY"; "{"] "# where the images are" ["inputFolder: /a"; "}"]
           initial).
  reflexivity.
Defined.

Lemma parameter_line_without_colon_witness :
  let line := Config.squeezed "inputFolder /c" in
  read_lines "pipeline.txt" false Sample.in_second_block
    ["inputFolder /c"; "}"] initial
  = (Exit (Some 1),
     State (configs initial) (global_params initial) (params initial)
       (previous_outFolder initial)
       (trace initial ++
        [EPrint (red ("ERROR in the PIPELINE file (" +:+ line +:+ ")"));
         Print (red "ERROR in the PIPELINE file" +:+ " ("
                +:+ cyan line +:+ ")")])%list).
Proof.
  apply (parameter_line_without_colon "pipeline.txt" false
           Sample.in_second_block "inputFolder /c" initial);
    reflexivity.
Defined.

Lemma read_config_file_well_headed_witness :
  Forall headed
    (configs (read_config_file "pipeline.txt" false
                Examples.repeated_function_file initial).2).
Proof.
  apply (read_config_file_well_headed "pipeline.txt" false
           Examples.repeated_function_file initial).
  vm_compute. constructor.
Defined.

Lemma stage_names_are_read_as_themselves_witness :
  read_line "pipeline.txt" false (Reader false []) "COPY" initial
  = (Done (Reader false [("function", "COPY")]), initial).
Proof.
  apply (stage_names_are_read_as_themselves "pipeline.txt" false "COPY"
           false initial).
  vm_compute. tauto.
Defined.

End ReaderFacts.

(** ** More about [parse] *)

Module ParseFacts.
Import PyStr PyNum PyVal Coerce.

Lemma parse_each_length f l vs :
  parse_each f l = Done vs -> length vs = length l.
Proof.
  revert vs. induction l as [|x l IH]; intros vs; simpl.
  - by intros [= <-].
  - destruct (f x); [|done..].
    destruct (parse_each f l) as [vs'| |]; [|done..].
    intros [= <-]. simpl. by rewrite (IH vs').
Qed.

Section WithRuntime.
Context (rt : runtime).

(** X6: without [pi] in it, the string that [parse] returns is its
    argument, unchanged; no blank is removed and no case is folded. *)
Theorem parse_string_is_the_argument i s :
  contains "pi" i = false ->
  parse rt i = Done (VStr s) -> s = i.
Proof.
  intros Hpi. unfold parse. cbn [parse_fuel]. rewrite Hpi.
  repeat match goal with
         | |- (if ?b then _ else _) = _ -> _ => destruct b
         | |- match ?x with _ => _ end = _ -> _ => destruct x
         end; try done; by intros [= <-].
Qed.

(** X7: a list that [parse] returns has one element for each piece of the
    argument between commas, so it is never empty; the argument starts
    with a bracket. *)
Theorem parse_list_length i vs :
  contains "pi" i = false ->
  parse rt i = Done (VList vs) ->
  length vs = length (split "," i)
  /\ vs <> []
  /\ exists r, i = String "[" r.
Proof.
  intros Hpi. unfold parse. cbn [parse_fuel]. rewrite Hpi.
  destruct (in_list i _); [done|]. destruct (in_list i _); [done|].
  destruct (py_int i); [done|]. destruct (py_float_ok i); [done|].
  destruct i as [|c r]; [done|].
  destruct (ch_eqb c "[") eqn:Ec; [|done]. cbn [negb].
  apply Ascii.eqb_eq in Ec as ->.
  destruct (parse_each _ _) as [vs'| |] eqn:E; [|done..].
  intros [= <-]. apply parse_each_length in E.
  rewrite !length_alter in E.
  assert (length (split "," (String "[" r)) <> 0)%nat as Hne.
  { cbn [split]. change (ch_eqb "," "[") with false. cbv iota.
    by destruct (split "," r). }
  split; [done|]. split; [|by eexists].
  intros ->. apply Hne. by rewrite <- E.
Qed.
End WithRuntime.

Lemma parse_string_is_the_argument_witness :
  let rt := Sample.machine None true in
  parse rt " No " = Done (VStr " No ") /\ " No " = " No ".
Proof.
  intros rt. split; [reflexivity|].
  apply (parse_string_is_the_argument rt " No " " No "); reflexivity.
Defined.

Lemma parse_list_length_witness :
  let vs := [VInt 1; VInt 2; VInt 3] in
  length vs = length (split "," "[1,2,3]")
  /\ vs <> []
  /\ exists r, "[1,2,3]" = String "[" r.
Proof.
  intros vs.
  apply (parse_list_length (Sample.machine None true) "[1,2,3]" vs);
    reflexivity.
Defined.

End ParseFacts.

(** ** Integers through [str] and [parse] *)

Module Integers.
Import PyStr PyNum PyVal Coerce.

Definition all_digits (s : string) : bool :=
  forallb isdigit (list_ascii_of_string s).

Lemma isdigit_range c :
  isdigit c = true -> (48 <= code c <= 57)%N.
Proof.
  unfold isdigit. intros H. apply andb_true_iff in H as [H1 H2].
  apply N.leb_le in H1, H2. lia.
Qed.

Lemma code_inj_false c d : code c <> code d -> ch_eqb c d = false.
Proof.
  intros H. unfold ch_eqb. apply Ascii.eqb_neq. intros ->. done.
Qed.

Lemma digit_not_space c : isdigit c = true -> isspace_num c = false.
Proof.
  intros H. apply isdigit_range in H. unfold isspace_num.
  repeat match goal with
         | |- context [(?a <=? ?b)%N] => destruct (N.leb_spec a b)
         | |- context [(?a =? ?b)%N] => destruct (N.eqb_spec a b)
         end; try done; lia.
Qed.

Lemma pretty_N_char_digit x :
  (x < 10)%N ->
  isdigit (pretty_N_char x) = true /\ digit_val (pretty_N_char x) = Z.of_N x.
Proof.
  intros H.
  assert (x = 0 \/ x = 1 \/ x = 2 \/ x = 3 \/ x = 4 \/ x = 5 \/ x = 6
          \/ x = 7 \/ x = 8 \/ x = 9)%N as Hx by lia.
  repeat (destruct Hx as [->|Hx]; [by vm_compute|]). subst. by vm_compute.
Qed.

Lemma fold_digits ds : forall a,
  fold_left (fun acc d => 10 * acc + digit_val d) ds a
  = a * 10 ^ Z.of_nat (length ds) + Z_of_digits ds.
Proof.
  unfold Z_of_digits. induction ds as [|d ds IH]; intros a.
  - simpl. lia.
  - cbn [fold_left length]. rewrite IH, (IH (10 * 0 + digit_val d)).
    rewrite Nat2Z.inj_succ, Z.pow_succ_r by lia. lia.
Qed.

Lemma Z_of_digits_cons d ds :
  Z_of_digits (d :: ds) = digit_val d * 10 ^ Z.of_nat (length ds) + Z_of_digits ds.
Proof.
  unfold Z_of_digits at 1. cbn [fold_left]. rewrite fold_digits. lia.
Qed.

(** The digits that [pretty] puts before [s] are those of [x]. *)
Lemma pretty_N_go_digits x : forall s,
  all_digits s = true ->
  all_digits (pretty_N_go x s) = true
  /\ Z_of_digits (list_ascii_of_string (pretty_N_go x s))
     = Z.of_N x * 10 ^ Z.of_nat (String.length s)
       + Z_of_digits (list_ascii_of_string s)
  /\ (String.length s <= String.length (pretty_N_go x s))%nat
  /\ ((0 < x)%N -> (String.length s < String.length (pretty_N_go x s))%nat).
Proof.
  induction (N.lt_wf_0 x) as [x _ IH]; intros s Hs.
  destruct (N.eq_dec x 0%N) as [->|Hx].
  { rewrite pretty_N_go_0. split; [done|]. split; [simpl; lia|].
    split; lia. }
  rewrite pretty_N_go_step by lia.
  destruct (pretty_N_char_digit (x `mod` 10)%N) as [Hd Hv];
    [apply N.mod_lt; lia|].
  destruct (IH (x `div` 10)%N) with (s := String (pretty_N_char (x `mod` 10)) s)
    as (H1 & H2 & H3 & H4).
  { apply N.div_lt; lia. }
  { unfold all_digits in *. cbn [list_ascii_of_string forallb].
    by rewrite Hd, Hs. }
  split; [done|]. split; [|split].
  - rewrite H2. cbn [list_ascii_of_string String.length].
    rewrite Z_of_digits_cons, Hv.
    assert (length (list_ascii_of_string s) = String.length s) as ->.
    { clear. induction s; simpl; congruence. }
    rewrite Nat2Z.inj_succ, Z.pow_succ_r by lia.
    rewrite (N.div_mod x 10) at 3 by lia.
    rewrite N2Z.inj_add, N2Z.inj_mul. lia.
  - cbn [String.length] in H3. lia.
  - intros _. cbn [String.length] in H3. lia.
Qed.

Lemma digits_us_all s : forall b,
  all_digits s = true -> (b = true \/ s <> "") ->
  digits_us b s = Some (list_ascii_of_string s).
Proof.
  unfold all_digits. induction s as [|c s IH]; intros b Hs Hb.
  - destruct Hb as [->|]; done.
  - cbn [list_ascii_of_string forallb] in Hs.
    apply andb_true_iff in Hs as [Hc Hs].
    cbn [digits_us list_ascii_of_string]. rewrite Hc.
    rewrite (IH true Hs) by (by left). done.
Qed.

Lemma lstrip_by_id P c s : P c = false -> lstrip_by P (String c s) = String c s.
Proof. intros H. cbn [lstrip_by]. by rewrite H. Qed.

Lemma rstrip_by_none P s :
  forallb (fun c => negb (P c)) (list_ascii_of_string s) = true ->
  rstrip_by P s = s.
Proof.
  induction s as [|c s IH]; [done|].
  cbn [list_ascii_of_string forallb]. intros H.
  apply andb_true_iff in H as [Hc Hs].
  cbn [rstrip_by]. rewrite (IH Hs).
  destruct s; [|done]. apply negb_true_iff in Hc. by rewrite Hc.
Qed.

Lemma digits_no_space s :
  all_digits s = true ->
  forallb (fun c => negb (isspace_num c)) (list_ascii_of_string s) = true.
Proof.
  unfold all_digits. intros H. apply forallb_forall. intros c Hc.
  rewrite forallb_forall in H. by rewrite (digit_not_space c (H c Hc)).
Qed.

Lemma rstrip_by_digits s :
  all_digits s = true -> rstrip_by isspace_num s = s.
Proof. intros H. by apply rstrip_by_none, digits_no_space. Qed.

Lemma length_chars s : length (list_ascii_of_string s) = String.length s.
Proof. induction s; simpl; congruence. Qed.

Section WithRuntime.
Context (rt : runtime).

Lemma parse_digits neg s :
  all_digits s = true -> s <> "" ->
  (String.length s <= max_str_digits)%nat ->
  let lit := if neg : bool then String "-" s else s in
  parse rt lit
  = Done (VInt (if neg then - Z_of_digits (list_ascii_of_string s)
                else Z_of_digits (list_ascii_of_string s))).
Proof.
  intros Hs Hne Hlen lit.
  destruct s as [|c s]; [done|].
  assert (isdigit c = true) as Hc.
  { unfold all_digits in Hs. cbn in Hs. by apply andb_true_iff in Hs as [? _]. }
  pose proof (isdigit_range c Hc) as Hr.
  assert (py_int lit = Some (if neg
            then - Z_of_digits (list_ascii_of_string (String c s))
            else Z_of_digits (list_ascii_of_string (String c s)))) as Hint.
  { unfold py_int, strip_by. subst lit. destruct neg.
    - rewrite lstrip_by_id by done.
      assert (rstrip_by isspace_num (String "-" (String c s))
              = String "-" (String c s)) as ->.
      { apply rstrip_by_none. cbn [list_ascii_of_string forallb].
        apply andb_true_iff. split; [done|].
        by apply (digits_no_space (String c s)). }
      cbn [split_sign]. change (ch_eqb "-" "-") with true. cbv iota.
      rewrite (digits_us_all _ false Hs) by (by right).
      rewrite length_chars.
      destruct (Nat.ltb_spec max_str_digits (String.length (String c s)));
        [lia|done].
    - rewrite lstrip_by_id by (by apply digit_not_space).
      rewrite (rstrip_by_digits (String c s) Hs).
      cbn [split_sign].
      assert (ch_eqb c "-" = false) as ->
        by (apply code_inj_false; change (code "-") with 45%N; lia).
      assert (ch_eqb c "+" = false) as ->
        by (apply code_inj_false; change (code "+") with 43%N; lia).
      rewrite (digits_us_all _ false Hs) by (by right).
      rewrite length_chars.
      destruct (Nat.ltb_spec max_str_digits (String.length (String c s)));
        [lia|done]. }
  assert (forall w, String.eqb lit w = true ->
            exists d w', w = String d w'
              /\ (d = "-"%char \/ isdigit d = true)) as Hfirst.
  { intros w Hw. apply String.eqb_eq in Hw as <-. subst lit.
    destruct neg; eexists _, _; split; try reflexivity; auto. }
  unfold parse. cbn [parse_fuel].
  assert (in_list lit ["True"; "true"] = false) as ->.
  { unfold in_list. cbn [existsb].
    repeat match goal with
           | |- context [String.eqb lit ?w] =>
               let E := fresh "E" in
               destruct (String.eqb lit w) eqn:E;
               [destruct (Hfirst _ E) as (d & w' & [= <- _] & [H|H]);
                [discriminate H|by vm_compute in H]|]
           end. done. }
  assert (in_list lit ["False"; "false"] = false) as ->.
  { unfold in_list. cbn [existsb].
    repeat match goal with
           | |- context [String.eqb lit ?w] =>
               let E := fresh "E" in
               destruct (String.eqb lit w) eqn:E;
               [destruct (Hfirst _ E) as (d & w' & [= <- _] & [H|H]);
                [discriminate H|by vm_compute in H]|]
           end. done. }
  by rewrite Hint.
Qed.

(** X8: the decimal digits of an integer, as [str] writes them, are read
    back by [parse] as that integer, as long as there are no more of them
    than [int] accepts. *)
Theorem parse_of_an_integer n :
  (String.length (pretty (Z.abs n)) <= max_str_digits)%nat ->
  parse rt (py_str rt (VInt n)) = Done (VInt n).
Proof.
  cbn [py_str py_repr]. destruct n as [|p|p]; [by vm_compute| |].
  - unfold pretty, pretty_Z, pretty, pretty_positive, pretty, pretty_N.
    cbn [Z.abs]. unfold pretty, pretty_Z, pretty, pretty_positive, pretty, pretty_N.
    destruct (decide (N.pos p = 0%N)); [done|].
    destruct (pretty_N_go_digits (N.pos p) "" eq_refl) as (H1 & H2 & _ & H4).
    intros Hlen.
    rewrite (parse_digits false _ H1); [|intros E; rewrite E in H4; simpl in H4; lia|done].
    rewrite H2. cbn. f_equal. f_equal. lia.
  - unfold pretty, pretty_Z, pretty, pretty_positive, pretty, pretty_N.
    cbn [Z.abs]. unfold pretty, pretty_Z, pretty, pretty_positive, pretty, pretty_N.
    destruct (decide (N.pos p = 0%N)); [done|].
    destruct (pretty_N_go_digits (N.pos p) "" eq_refl) as (H1 & H2 & _ & H4).
    intros Hlen.
    change ("-" +:+ pretty_N_go (N.pos p) "") with (String "-" (pretty_N_go (N.pos p) "")).
    rewrite (parse_digits true _ H1); [|intros E; rewrite E in H4; simpl in H4; lia|done].
    rewrite H2. cbn. f_equal. f_equal. lia.
Qed.
End WithRuntime.

Lemma parse_of_an_integer_witness :
  let rt := Sample.machine None true in
  parse rt (py_str rt (VInt (-42))) = Done (VInt (-42)).
Proof.
  intros rt. apply (parse_of_an_integer rt (-42)). vm_compute. lia.
Defined.

End Integers.

(** ** The parameters of a block *)

Module Blocks.
Import PyStr PyVal Coerce Run Msg Step Stages Reader Orchestrator Logic Frame Laws.

(** The value under a label that occurs once. *)
Lemma series_getitem_unique (cfg : series) k x :
  List.NoDup (List.map fst cfg) -> In (k, x) cfg ->
  series_getitem cfg k = Done (Scalar x).
Proof.
  intros Hnd Hin. unfold series_getitem.
  assert (List.filter (fun kv => String.eqb kv.1 k) cfg = [(k, x)]) as ->; [|done].
  induction cfg as [|[k0 x0] r IH]; [destruct Hin|].
  cbn [List.map fst] in Hnd. apply List.NoDup_cons_iff in Hnd as [Hk0 Hnd].
  cbn [List.filter fst].
  destruct Hin as [[= -> ->]|Hin].
  - rewrite String.eqb_refl. f_equal.
    clear IH. induction r as [|[k1 x1] r IH]; [done|].
    cbn [List.filter fst List.map In] in *.
    destruct (String.eqb_spec k1 k) as [->|]; [tauto|].
    apply IH; [tauto|]. by apply List.NoDup_cons_iff in Hnd as [_ ?].
  - destruct (String.eqb_spec k0 k) as [->|]; [|by apply IH].
    exfalso. apply Hk0. apply in_map_iff. by exists (k, x).
Qed.

Section WithRun.
Context (rt : runtime).

(** The loop of [overlay], over labels that occur once. *)
Lemma overlay_loop (cfg : series) labels : forall s1 s2,
  List.NoDup labels ->
  (forall i, In i labels -> exists x, In (i, x) cfg) ->
  List.NoDup (List.map fst cfg) ->
  for_each labels (fun i =>
    c ← lift (series_getitem cfg i);
    v ← lift (parse_cell rt c);
    setitem i v) s1 = (Done (), s2) ->
  (forall i x, In i labels -> In (i, x) cfg ->
     exists v, parse rt x = Done v /\ params s2 !! i = Some v)
  /\ (forall k, ~ In k labels -> params s2 !! k = params s1 !! k)
  /\ State (configs s2) (global_params s2) (params s1)
       (previous_outFolder s2) (trace s2) = s1.
Proof.
  induction labels as [|i labels IH]; intros s1 s2 Hl Hc Hnd.
  { intros [= <-]. split; [by intros ? ? []|]. split; [done|]. by destruct s1. }
  apply List.NoDup_cons_iff in Hl as [Hi Hl].
  cbn [for_each]. rewrite bind_run, bind_run.
  destruct (Hc i) as [x Hx]; [by left|].
  unfold lift at 1. rewrite (series_getitem_unique cfg i x Hnd Hx).
  rewrite bind_run. unfold lift at 1. cbn [parse_cell].
  destruct (parse rt x) as [v| |] eqn:Hp; [|done..].
  rewrite setitem_run. intros E.
  destruct (IH _ _ Hl (fun j Hj => Hc j (or_intror Hj)) Hnd E) as (H1 & H2 & H3).
  split; [|split].
  - intros j y [<-|Hj] Hy.
    + assert (y = x) as ->.
      { pose proof (series_getitem_unique cfg i y Hnd Hy) as Ey.
        rewrite (series_getitem_unique cfg i x Hnd Hx) in Ey. congruence. }
      exists v. split; [done|]. rewrite (H2 i Hi). cbn [params].
      apply dict_lookup_insert_eq.
    + by apply H1.
  - intros k Hk. rewrite H2 by (intros ?; apply Hk; by right).
    cbn [params]. apply dict_lookup_insert_ne. intros ->. apply Hk. by left.
  - destruct s1. cbn in *. congruence.
Qed.

(** X9: the parameters of a stage are the global parameters, with the
    values of the block over them: a key of the block has the value that
    [parse] gives for its line, whatever [global_params] has, and every
    other key has its global value. Nothing is left of the parameters of
    the stage before. *)
Theorem overlay_params cfg s s' :
  List.NoDup (List.map fst cfg) ->
  overlay rt cfg s = (Done (), s') ->
  (forall k x, In (k, x) cfg ->
     exists v, parse rt x = Done v /\ params s' !! k = Some v)
  /\ (forall k, ~ In k (List.map fst cfg) ->
      params s' !! k = global_params s !! k)
  /\ global_params s' = global_params s.
Proof.
  intros Hnd. unfold overlay. rewrite bind_run. unfold get at 1.
  cbv beta iota. rewrite bind_run. unfold set_params at 1. cbv beta iota.
  intros E.
  apply overlay_loop in E as (H1 & H2 & H3); [|apply Hnd| |done].
  - split; [|split].
    + intros k x Hin. apply H1; [|done]. apply in_map_iff. by exists (k, x).
    + intros k Hk. by rewrite (H2 k Hk).
    + by injection H3.
  - intros i Hi. apply in_map_iff in Hi as ([k x] & <- & Hin). by exists x.
Qed.
End WithRun.

Section Globals.
Context (rt : runtime) (verbose : bool).

(** The loop of the first pass of [main] over a block of global
    parameters. *)
Lemma global_loop (cfg : series) labels : forall s1 s2,
  List.NoDup labels ->
  (forall i, In i labels -> exists x, In (i, x) cfg) ->
  List.NoDup (List.map fst cfg) ->
  for_each labels (fun i =>
    when (negb (String.eqb i "function"))
      (c ← lift (series_getitem cfg i);
       v ← lift (parse_cell rt c);
       global_setitem i v)) s1 = (Done (), s2) ->
  (forall i x, In i labels -> i <> "function" -> In (i, x) cfg ->
     exists v, parse rt x = Done v /\ global_params s2 !! i = Some v)
  /\ (forall k, k = "function" \/ ~ In k labels ->
      global_params s2 !! k = global_params s1 !! k)
  /\ State (configs s2) (global_params s1) (params s2)
       (previous_outFolder s2) (trace s2) = s1.
Proof.
  induction labels as [|i labels IH]; intros s1 s2 Hl Hc Hnd.
  { intros [= <-]. split; [by intros ? ? []|]. split; [done|]. by destruct s1. }
  apply List.NoDup_cons_iff in Hl as [Hi Hl].
  cbn [for_each]. rewrite bind_run.
  destruct (String.eqb_spec i "function") as [->|Hf]; cbn [negb when].
  - unfold mret at 1, M_ret at 1. intros E.
    destruct (IH _ _ Hl (fun j Hj => Hc j (or_intror Hj)) Hnd E) as (H1 & H2 & H3).
    split; [|split; [|done]].
    + intros j y [<-|Hj] Hne Hy; [done|]. by apply H1.
    + intros k [->|Hk]; apply H2; [by left|]. right. intros ?. apply Hk. by right.
  - rewrite bind_run.
    destruct (Hc i) as [x Hx]; [by left|].
    unfold lift at 1. rewrite (series_getitem_unique cfg i x Hnd Hx).
    rewrite bind_run. unfold lift at 1. cbn [parse_cell].
    destruct (parse rt x) as [v| |] eqn:Hp; [|done..].
    unfold global_setitem at 1, update_global_params at 1. intros E.
    destruct (IH _ _ Hl (fun j Hj => Hc j (or_intror Hj)) Hnd E) as (H1 & H2 & H3).
    split; [|split].
    + intros j y [<-|Hj] Hne Hy.
      * assert (y = x) as ->.
        { pose proof (series_getitem_unique cfg i y Hnd Hy) as Ey.
          rewrite (series_getitem_unique cfg i x Hnd Hx) in Ey. congruence. }
        exists v. split; [done|]. rewrite (H2 i (or_intror Hi)).
        cbn [global_params]. apply dict_lookup_insert_eq.
      * by apply H1.
    + intros k Hk. rewrite H2.
      * cbn [global_params]. apply dict_lookup_insert_ne.
        destruct Hk as [->|Hk]; [done|]. intros ->. apply Hk. by left.
      * destruct Hk as [->|Hk]; [by left|]. right. intros ?. apply Hk. by right.
    + destruct s1. cbn in *. congruence.
Qed.

(** X10: the first pass of [main] over a block of global parameters
    stores, for each key of the block but [function], the value that
    [parse] gives for its line; the key [function] is never stored, and
    no other global parameter changes. *)
Theorem global_block_is_loaded cfg s s' :
  List.NoDup (List.map fst cfg) ->
  In ("function", "GLOBAL_PARAMETERS") cfg ->
  load_global_parameters rt verbose cfg s = (Done (), s') ->
  (forall k x, In (k, x) cfg -> k <> "function" ->
     exists v, parse rt x = Done v /\ global_params s' !! k = Some v)
  /\ (forall k, k = "function" \/ ~ In k (List.map fst cfg) ->
      global_params s' !! k = global_params s !! k)
  /\ params s' = params s.
Proof.
  intros Hnd Hg. unfold load_global_parameters.
  rewrite bind_run. unfold lift at 1.
  rewrite (series_getitem_unique cfg _ _ Hnd Hg).
  rewrite bind_run. unfold lift at 1. cbn [cell_eq].
  rewrite String.eqb_refl. cbn [when]. rewrite bind_run.
  destruct (for_each _ _ s) as [[[]|c|e] s1] eqn:E; [|done..].
  apply global_loop in E as (H1 & H2 & H3); [|apply Hnd| |done].
  - intros E'.
    assert (global_params s' = global_params s1 /\ params s' = params s1)
      as [Eg Ep].
    { revert s' E'. apply wp_done. wp_go; done. }
    rewrite Eg, Ep. split; [|split].
    + intros k x Hin Hne. apply H1; [|done..]. apply in_map_iff. by exists (k, x).
    + done.
    + by rewrite <- H3.
  - intros i Hi. apply in_map_iff in Hi as ([k x] & <- & Hin). by exists x.
Qed.
End Globals.

Lemma overlay_params_witness :
  let rt := Sample.machine None true in
  let s := State [] [("log", VStr "run.log")] ∅ (VStr "") [] in
  let s' := (overlay rt Sample.copy_block s).2 in
  (forall k x, In (k, x) Sample.copy_block ->
     exists v, parse rt x = Done v /\ params s' !! k = Some v)
  /\ (forall k, ~ In k (List.map fst Sample.copy_block) ->
      params s' !! k = global_params s !! k)
  /\ global_params s' = global_params s.
Proof.
  intros rt s s'.
  apply (overlay_params rt Sample.copy_block s s').
  - vm_compute. repeat constructor; cbn [In]; intuition discriminate.
  - reflexivity.
Defined.

Lemma global_block_is_loaded_witness :
  let rt := Sample.machine None true in
  let s' := (load_global_parameters rt false Examples.global_block initial).2 in
  (forall k x, In (k, x) Examples.global_block -> k <> "function" ->
     exists v, parse rt x = Done v /\ global_params s' !! k = Some v)
  /\ (forall k, k = "function" \/ ~ In k (List.map fst Examples.global_block) ->
      global_params s' !! k = global_params initial !! k)
  /\ params s' = params initial.
Proof.
  intros rt s'.
  apply (global_block_is_loaded rt false Examples.global_block initial s').
  - vm_compute. repeat constructor; cbn [In]; intuition discriminate.
  - vm_compute. tauto.
  - reflexivity.
Defined.

End Blocks.

(** ** More about the stages *)

Module StageFacts.
Import PyStr PyVal Coerce Run Msg Step Stages Reader Orchestrator Logic Frame Laws.
Import Loop Folders.

(** The state with other parameters. *)
Definition replace_params (p : dict) (s : state) : state :=
  State (configs s) (global_params s) p (previous_outFolder s) (trace s).

(** The stages that make the output folder from the input folder and the
    suffix before anything else can stop them. *)
Definition suffix_stages : list string :=
  ["REORGANIZE"; "DCM2NII"; "SPATIAL_RESAMPLING"; "INTENSITY_RESAMPLING";
   "MERGE_MASKS"; "MASK_THRESHOLDING"; "I-WINDOWING"; "I-HARMONIZE";
   "N4-BIAS-FIELD-CORRECTION"].

Definition is_str (v : value) : bool :=
  match v with VStr _ => true | _ => false end.

(** An assignment to a key that is there commutes with the defaults. *)
Lemma dict_insert_insert_ne (p : dict) k v k' v' :
  k <> k' -> is_Some (p !! k) -> p !! k' = None ->
  <[k' := v']> (<[k := v]> p) = <[k := v]> (<[k' := v']> p).
Proof.
  unfold lookup, insert, dict_lookup, dict_insert.
  intros Hne. induction p as [|[k0 v0] r IH]; simpl; [by intros [? ?]|].
  destruct (String.eqb_spec k k0) as [->|Hk].
  - intros _. destruct (String.eqb_spec k' k0) as [->|Hk']; [done|].
    intros H. simpl.
    destruct (String.eqb_spec k' k0); [done|].
    by rewrite String.eqb_refl.
  - intros H1. destruct (String.eqb_spec k' k0) as [->|Hk']; [done|].
    intros H2. simpl.
    destruct (String.eqb_spec k' k0); [done|].
    destruct (String.eqb_spec k k0); [done|].
    by rewrite IH.
Qed.

Lemma fill_insert t (p : dict) k v :
  is_Some (p !! k) -> fill t (<[k := v]> p) = <[k := v]> (fill t p).
Proof.
  revert p. induction t as [|[k' v'] t IH]; intros p Hk; [done|].
  unfold fill in *. cbn [fold_left fst snd].
  destruct (decide (k = k')) as [<-|Hne].
  - rewrite dict_lookup_insert_eq. destruct Hk as [x Hx]. rewrite Hx.
    apply IH. by exists x.
  - rewrite dict_lookup_insert_ne by done.
    destruct (p !! k') eqn:E; [by apply IH|].
    rewrite dict_insert_insert_ne by done.
    apply IH. by rewrite dict_lookup_insert_ne.
Qed.

(** The global parameter [k] is untouched. *)
Definition other_globals (k : string) : relation state :=
  fun s s' => global_params s' !! k = global_params s !! k.

#[global] Instance other_globals_po k : PreOrder (other_globals k).
Proof.
  split; [done|]. intros s1 s2 s3 H1 H2. unfold other_globals in *. congruence.
Qed.

Ltac atom_other_globals :=
  unfold other_globals; cbn [global_params];
  first [ reflexivity | by rewrite dict_lookup_insert_ne ].

Section WithRun.
Context (rt : runtime) (inputPath : string) (verbose : bool).

(** *** The global parameters *)

Lemma stage_table_same_globals :
  Forall (fun row =>
            ~ In row.1 ["CHECK_FOLDER"; "REORGANIZE"; "SEGMENTATION"] ->
            frames same_globals (row.2.1;; row.2.2))
    (stage_table rt inputPath verbose).
Proof.
  unfold stage_table.
  repeat first [apply Forall_nil_2 | apply Forall_cons_2]; cbn [fst snd];
    intros H;
    first [ exfalso; apply H; cbn [In]; tauto | frames_same_globals ].
Qed.

Lemma stage_table_other_globals k :
  k <> "Structure" -> k <> "with-segmentation" ->
  Forall (fun row => frames (other_globals k) (row.2.1;; row.2.2))
    (stage_table rt inputPath verbose).
Proof.
  intros H1 H2. unfold stage_table.
  repeat first [apply Forall_nil_2 | apply Forall_cons_2]; cbn [fst snd];
    frames_with no_special atom_other_globals.
Qed.

(** X11: the stages and [global_params]. Only [CHECK_FOLDER], [REORGANIZE]
    and [SEGMENTATION] write it, and only under the keys [Structure] and
    [with-segmentation]. *)
Theorem stages_keep_global_params function s :
  let s' := (run_stage rt inputPath verbose function s).2 in
  (~ In function ["CHECK_FOLDER"; "REORGANIZE"; "SEGMENTATION"] ->
   global_params s' = global_params s)
  /\ (forall k, k <> "Structure" -> k <> "with-segmentation" ->
      global_params s' !! k = global_params s !! k).
Proof.
  intros s'. subst s'. split.
  - intros H. unfold run_stage.
    destruct (find _ _) as [[n [resolve dispatch]]|] eqn:E; [|done].
    apply find_some in E as [Hin Heq]. cbn [fst] in Heq.
    apply String.eqb_eq in Heq as <-.
    pose proof stage_table_same_globals as Ht.
    rewrite List.Forall_forall in Ht. apply (Ht _ Hin H).
  - intros k H1 H2.
    apply (run_stage_frames rt inputPath verbose (other_globals k) function
             (stage_table_other_globals k H1 H2) s).
Qed.

(** *** The input folder *)

Lemma missing_prefix table text code (rest dispatch : M unit) s :
  params s !! "inputFolder" = None -> assoc "inputFolder" table = None ->
  ((defaults table;; require "inputFolder" text code;; rest);; dispatch) s
  = (Exit code,
     State (configs s) (global_params s) (fill table (params s))
       (previous_outFolder s) (trace s ++ [Print text])%list).
Proof.
  intros H Ht.
  assert (fill table (params s) !! "inputFolder" = None) as Hf
    by (by rewrite lookup_fill, H).
  rewrite bind_run, bind_run. unfold defaults at 1, update_params at 1.
  rewrite bind_run. unfold require, has_key, is_key.
  rewrite bind_run, bind_run. unfold get at 1. cbn [params].
  rewrite Hf. done.
Qed.

(** X12: a stage without [inputFolder] prints that no input folder is
    specified and exits, before any subprocess. *)
Theorem stage_without_input_folder function s :
  In function stages_with_input ->
  params s !! "inputFolder" = None ->
  let run := run_stage rt inputPath verbose function s in
  run.1 = Exit None
  /\ (trace run.2 = trace s ++ [Print (red no_input_folder)]
      \/ trace run.2 = trace s ++ [Print no_input_folder])%list.
Proof.
  intros Hin H run. subst run.
  unfold stages_with_input in Hin. cbn [In] in Hin.
  repeat (destruct Hin as [<-|Hin]); [..|done].
  all: match goal with
       | |- context [run_stage ?r ?i ?v ?f] =>
           let m := eval cbv [run_stage stage_table List.find String.eqb
                              Ascii.eqb Bool.eqb fst snd] in
                    (run_stage r i v f) in
           change (run_stage r i v f) with m
       end.
  all: match goal with
       | |- context [(?m ≫= _) _] => let h := head_of m in unfold h
       end.
  all: rewrite missing_prefix by done; cbn [fst snd trace]; auto.
Qed.

Lemma dot_with_input_prefix table text code s :
  params s !! "inputFolder" = Some (VStr ".") ->
  inputPath <> "" ->
  let s2 := replace_params (<["inputFolder" := VStr inputPath]> (params s)) s in
  (defaults table;; require "inputFolder" text code;;
   input_from_command_line inputPath) s
  = (defaults table;; require "inputFolder" text code;;
     input_from_command_line inputPath) s2.
Proof.
  intros H Hne s2. subst s2.
  apply String.eqb_neq in Hne.
  assert (fill table (params s) !! "inputFolder" = Some (VStr ".")) as Hf
    by (by rewrite lookup_fill, H).
  assert (fill table (<["inputFolder" := VStr inputPath]> (params s))
          = <["inputFolder" := VStr inputPath]> (fill table (params s))) as Hf2
    by (apply fill_insert; eauto).
  transitivity
    (Done (), State (configs s) (global_params s)
                (<["inputFolder" := VStr inputPath]> (fill table (params s)))
                (previous_outFolder s) (trace s)).
  - apply wp_eq. wp_go. reflexivity.
  - symmetry. unfold replace_params. rewrite bind_run.
    unfold defaults at 1, update_params at 1.
    cbn [params configs global_params previous_outFolder trace].
    rewrite Hf2. apply wp_eq.
    assert (<["inputFolder" := VStr inputPath]> (fill table (params s))
            !! "inputFolder" = Some (VStr inputPath)) as Hl
      by apply dict_lookup_insert_eq.
    wp_go.
    all: by rewrite ?(dict_insert_id _ _ _ Hl).
Qed.

Lemma dot_with_input_stage table text code (rest dispatch : M unit) s :
  params s !! "inputFolder" = Some (VStr ".") ->
  inputPath <> "" ->
  ((defaults table;; require "inputFolder" text code;;
    input_from_command_line inputPath;; rest);; dispatch) s
  = ((defaults table;; require "inputFolder" text code;;
      input_from_command_line inputPath;; rest);; dispatch)
      (replace_params (<["inputFolder" := VStr inputPath]> (params s)) s).
Proof.
  intros H Hne.
  generalize (dot_with_input_prefix table text code s H Hne). cbv zeta.
  generalize (replace_params (<["inputFolder" := VStr inputPath]> (params s)) s).
  intros s2 E.
  rewrite (bind_run _ _ s), (bind_run _ _ s2).
  rewrite !bind_assoc3.
  rewrite (bind_run _ _ s), (bind_run _ _ s2).
  by rewrite E.
Qed.

(** X13: with the [-i] option, a stage that finds the dot in
    [params['inputFolder']] runs as if the path of the option were
    written in its block. *)
Theorem dot_with_input_option function s :
  In function stages_with_input ->
  params s !! "inputFolder" = Some (VStr ".") ->
  inputPath <> "" ->
  run_stage rt inputPath verbose function s
  = run_stage rt inputPath verbose function
      (replace_params (<["inputFolder" := VStr inputPath]> (params s)) s).
Proof.
  intros Hin H Hne.
  unfold stages_with_input in Hin. cbn [In] in Hin.
  repeat (destruct Hin as [<-|Hin]); [..|done].
  all: repeat match goal with
       | |- context [run_stage ?r ?i ?v ?f] =>
           let m := eval cbv [run_stage stage_table List.find String.eqb
                              Ascii.eqb Bool.eqb fst snd] in
                    (run_stage r i v f) in
           progress change (run_stage r i v f) with m
       end.
  all: match goal with
       | |- (?m ≫= _) _ = _ => let h := head_of m in unfold h
       end.
  all: by apply dot_with_input_stage.
Qed.

(** *** The output folder made from the suffix *)

Lemma suffix_of_number_A table text code otherwise (rest dispatch : M unit) s v :
  params s !! "inputFolder" = Some v -> is_str v = false ->
  params s !! "outputFolder" = None ->
  is_Some (params s !! "outputFolderSuffix") ->
  assoc "outputFolder" table = None ->
  ((defaults table;; require "inputFolder" text code;;
    input_from_command_line inputPath;;
    output_from_suffix rt otherwise;; rest);; dispatch) s
  = (Raise AttributeError, replace_params (fill table (params s)) s).
Proof.
  intros Hi Hv Ho [x Hx] Ht.
  assert (fill table (params s) !! "inputFolder" = Some v) as Hf1
    by (by rewrite lookup_fill, Hi).
  assert (fill table (params s) !! "outputFolder" = None) as Hf2
    by (by rewrite lookup_fill, Ho).
  assert (fill table (params s) !! "outputFolderSuffix" = Some x) as Hf3
    by (by rewrite lookup_fill, Hx).
  apply wp_eq. destruct v; try done; wp_go; reflexivity.
Qed.

Lemma suffix_of_number_B table text code otherwise (rest dispatch : M unit) s v :
  params s !! "inputFolder" = Some v -> is_str v = false ->
  params s !! "outputFolder" = None ->
  is_Some (params s !! "outputFolderSuffix") ->
  assoc "outputFolder" table = None ->
  ((defaults table;; require "inputFolder" text code;;
    input_from_command_line inputPath;;
    from_previous_block "inputFolder";;
    output_from_suffix rt otherwise;; rest);; dispatch) s
  = (Raise AttributeError, replace_params (fill table (params s)) s).
Proof.
  intros Hi Hv Ho [x Hx] Ht.
  assert (fill table (params s) !! "inputFolder" = Some v) as Hf1
    by (by rewrite lookup_fill, Hi).
  assert (fill table (params s) !! "outputFolder" = None) as Hf2
    by (by rewrite lookup_fill, Ho).
  assert (fill table (params s) !! "outputFolderSuffix" = Some x) as Hf3
    by (by rewrite lookup_fill, Hx).
  apply wp_eq. destruct v; try done; wp_go; reflexivity.
Qed.

(** X14: an input folder that [parse] has read as a number, a boolean or
    a list has no [rstrip]: a stage that would make its output folder
    from it and the suffix raises [AttributeError], with nothing printed
    and nothing started. *)
Theorem suffix_needs_a_string function s v :
  In function suffix_stages ->
  params s !! "inputFolder" = Some v -> is_str v = false ->
  params s !! "outputFolder" = None ->
  is_Some (params s !! "outputFolderSuffix") ->
  let run := run_stage rt inputPath verbose function s in
  run.1 = Raise AttributeError /\ trace run.2 = trace s.
Proof.
  intros Hin Hi Hv Ho Hs run. subst run.
  unfold suffix_stages in Hin. cbn [In] in Hin.
  repeat (destruct Hin as [<-|Hin]); [..|done].
  all: match goal with
       | |- context [run_stage ?r ?i ?v ?f] =>
           let m := eval cbv [run_stage stage_table List.find String.eqb
                              Ascii.eqb Bool.eqb fst snd] in
                    (run_stage r i v f) in
           change (run_stage r i v f) with m
       end.
  all: match goal with
       | |- context [(?m ≫= _) _] => let h := head_of m in unfold h
       end.
  all: first [ rewrite (suffix_of_number_A _ _ _ _ _ _ _ _ Hi Hv Ho Hs) by done
             | rewrite (suffix_of_number_B _ _ _ _ _ _ _ _ Hi Hv Ho Hs) by done ].
  all: done.
Qed.

(** *** DELETE *)

(** X15: the [DELETE] stage. Without the key [folder] it prints that there
    is no folder to delete and exits. Otherwise it ends normally, after
    [delete_folder.py] on the folder, or on the output folder of the
    stage before when the folder is the token. The key [function], which
    every block has, is there. *)
Theorem DELETE_folder s :
  is_Some (params s !! "function") ->
  let run := DELETE rt verbose s in
  match params s !! "folder" with
  | None =>
      run.1 = Exit None
      /\ trace run.2
         = (trace s ++ [Print (red "ERROR! No folder to delete")])%list
  | Some v =>
      let folder := if eq_str v token then previous_outFolder s else v in
      run.1 = Done ()
      /\ exists flags,
           dispatched (trace run.2)
           = (dispatched (trace s) ++
              [python "src/delete_folder.py"
                 ("-f" :: py_str rt folder :: flags)])%list
  end.
Proof.
  intros [f Hf] run. subst run.
  destruct (params s !! "folder") as [v|] eqn:E.
  - cbv zeta.
    destruct (eq_str v token) eqn:Et.
    all: destruct (truthy rt (default (VBool false) (params s !! "verbose")))
           eqn:Ev.
    all: match goal with
         | |- _ /\ exists flags, ?d = _ =>
             apply (wp_pair _ _ (fun o s' =>
               o = Done () /\ exists flags, dispatched (trace s') = _))
         end.
    all: unfold token in Et.
    all: wp_go.
    all: split; [done|]; eexists; finish; cbn [app python]; reflexivity.
  - apply (wp_pair _ _ (fun o s' => o = Exit None /\ trace s' = _)).
    wp_go. done.
Qed.
End WithRun.

Lemma stages_keep_global_params_witness :
  let rt := Sample.machine None true in
  let s := Examples.stage_params "COPY" [("inputFolder", VStr "/a")] in
  global_params (run_stage rt "" false "COPY" s).2 = global_params s.
Proof.
  intros rt s.
  apply (proj1 (stages_keep_global_params rt "" false "COPY" s)).
  vm_compute. intuition discriminate.
Defined.

Lemma stage_without_input_folder_witness :
  let rt := Sample.machine None true in
  let s := Examples.stage_params "COPY" [] in
  let run := run_stage rt "" false "COPY" s in
  run.1 = Exit None
  /\ (trace run.2 = trace s ++ [Print (red no_input_folder)]
      \/ trace run.2 = trace s ++ [Print no_input_folder])%list.
Proof.
  intros rt s.
  apply (stage_without_input_folder rt "" false "COPY" s).
  - vm_compute. tauto.
  - reflexivity.
Defined.

Lemma dot_with_input_option_witness :
  let rt := Sample.machine None true in
  let s := Examples.stage_params "COPY" [("inputFolder", VStr ".")] in
  run_stage rt "/data" false "COPY" s
  = run_stage rt "/data" false "COPY"
      (replace_params (<["inputFolder" := VStr "/data"]> (params s)) s).
Proof.
  intros rt s.
  apply (dot_with_input_option rt "/data" false "COPY" s).
  - vm_compute. tauto.
  - reflexivity.
  - discriminate.
Defined.

Lemma suffix_needs_a_string_witness :
  let rt := Sample.machine None true in
  let s := Examples.stage_params "I-WINDOWING"
             [("inputFolder", VInt 2024); ("outputFolderSuffix", VStr "w")] in
  let run := run_stage rt "" false "I-WINDOWING" s in
  run.1 = Raise AttributeError /\ trace run.2 = trace s.
Proof.
  intros rt s.
  apply (suffix_needs_a_string rt "" false "I-WINDOWING" s (VInt 2024)).
  - vm_compute. tauto.
  - reflexivity.
  - reflexivity.
  - reflexivity.
  - exists (VStr "w"). reflexivity.
Defined.

Lemma DELETE_folder_witness :
  let rt := Sample.machine None true in
  let s := Examples.stage_params "DELETE"
             [("folder", VStr "PREVIOUS_BLOCK_OUTPUT_FOLDER")] in
  let run := DELETE rt false s in
  match params s !! "folder" with
  | None =>
      run.1 = Exit None
      /\ trace run.2
         = (trace s ++ [Print (red "ERROR! No folder to delete")])%list
  | Some v =>
      let folder :=
        if eq_str v Folders.token then previous_outFolder s else v in
      run.1 = Done ()
      /\ exists flags,
           dispatched (trace run.2)
           = (dispatched (trace s) ++
              [python "src/delete_folder.py"
                 ("-f" :: py_str rt folder :: flags)])%list
  end.
Proof.
  intros rt s.
  apply (DELETE_folder rt false s).
  exists (VStr "DELETE"). reflexivity.
Defined.

End StageFacts.

(** ** Values that [parse] hands to [eval] *)

Module Eval.
Import PyStr PyNum PyVal Coerce Run Msg Step Stages Reader Orchestrator Logic Frame Laws.

(** No value of the block has [pi] in it: [parse] hands none of them
    to [eval]. *)
Definition no_pi_block (cfg : series) : bool :=
  forallb (fun kv : string * string => negb (contains "pi" kv.2)) cfg.

(** The same for all the blocks of a file. *)
Definition no_pi (cs : list series) : bool := forallb no_pi_block cs.

(** The runtime [rt] with [f] for its [eval]. *)
Definition with_eval (f : string -> option value) (rt : runtime) : runtime :=
  {| py_eval := f;
     float_str := float_str rt;
     float_cmp := float_cmp rt;
     str_repr := str_repr rt;
     check_output := check_output rt;
     subprocess_run := subprocess_run rt |}.

(** *** Pieces of a string *)

Lemma prefix_trans a : forall b c,
  String.prefix a b = true -> String.prefix b c = true ->
  String.prefix a c = true.
Proof.
  induction a as [|x a IH]; intros b c; [by destruct c|].
  destruct b as [|y b]; [by destruct c|]. destruct c as [|z c]; [done|].
  cbn [String.prefix].
  destruct (ascii_dec x y) as [->|]; [|done].
  destruct (ascii_dec y z) as [->|]; [|done].
  apply IH.
Qed.

Lemma prefix_nil s : String.prefix "" s = true.
Proof. by destruct s. Qed.

Lemma prefix_cons d w s :
  String.prefix w s = true -> String.prefix (String d w) (String d s) = true.
Proof. intros H. cbn [String.prefix]. by destruct (ascii_dec d d). Qed.

Lemma contains_cons n c s :
  contains n s = true -> contains n (String c s) = true.
Proof. intros H. cbn [contains]. rewrite H. apply orb_true_r. Qed.

Lemma contains_prefix n p : forall s,
  String.prefix p s = true -> contains n p = true -> contains n s = true.
Proof.
  induction p as [|a p IH]; intros s Hp Hn.
  - cbn [contains] in Hn. rewrite orb_false_r in Hn.
    destruct n; [|done]. by destruct s.
  - destruct s as [|b s]; [done|]. cbn [String.prefix] in Hp.
    destruct (ascii_dec a b) as [->|]; [|done].
    cbn [contains] in Hn. apply orb_true_iff in Hn as [Hn|Hn].
    + cbn [contains]. apply orb_true_iff. left.
      apply (prefix_trans n (String b p)); [done|]. by apply prefix_cons.
    + apply contains_cons. by apply IH.
Qed.

Lemma contains_lstrip_by n P s :
  contains n (lstrip_by P s) = true -> contains n s = true.
Proof.
  induction s as [|c s IH]; [done|]. cbn [lstrip_by].
  destruct (P c); [|done]. intros H. apply contains_cons. by apply IH.
Qed.

Lemma rstrip_by_prefix P s : String.prefix (rstrip_by P s) s = true.
Proof.
  induction s as [|c s IH]; [done|]. cbn [rstrip_by].
  destruct (rstrip_by P s) as [|d r].
  - destruct (P c); [done|]. apply prefix_cons, prefix_nil.
  - by apply prefix_cons.
Qed.

Lemma contains_strip_by n P s :
  contains n (strip_by P s) = true -> contains n s = true.
Proof.
  unfold strip_by. intros H. apply (contains_lstrip_by n P).
  revert H. apply contains_prefix. apply rstrip_by_prefix.
Qed.

Lemma prefix_refl s : String.prefix s s = true.
Proof.
  induction s as [|c s IH]; [done|]. cbn [String.prefix].
  by destruct (ascii_dec c c).
Qed.

Lemma split_pieces n c s :
  match split c s with
  | w :: _ => String.prefix w s = true
  | [] => True
  end
  /\ Forall (fun p => contains n p = true -> contains n s = true) (split c s).
Proof.
  induction s as [|d s [IH1 IH2]]; cbn [split].
  { split; [done|]. by constructor. }
  destruct (ch_eqb c d).
  - split; [done|]. constructor.
    + by apply contains_prefix.
    + eapply Forall_impl; [exact IH2|]. intros p Hp H.
      apply contains_cons. by apply Hp.
  - destruct (split c s) as [|w ws].
    + split.
      * apply prefix_cons, prefix_nil.
      * constructor; [|constructor]. apply contains_prefix.
        apply prefix_cons, prefix_nil.
    + assert (String.prefix (String d w) (String d s) = true) as Hw
        by (by apply prefix_cons).
      split; [done|]. constructor.
      * by apply contains_prefix.
      * apply Forall_inv_tail in IH2.
        eapply Forall_impl; [exact IH2|]. intros p Hp H.
        apply contains_cons. by apply Hp.
Qed.

(** The elements of a list literal without [pi] have no [pi]. *)
Lemma list_items_no_pi i :
  contains "pi" i = false ->
  let split := split "," i in
  let split := alter (strip_ch "[") 0%nat split in
  let split := alter (strip_ch "]") (length split - 1)%nat split in
  Forall (fun x => contains "pi" x = false) split.
Proof.
  intros Hi.
  assert (forall c l,
            Forall (fun x => contains "pi" x = false) l ->
            forall j, Forall (fun x => contains "pi" x = false)
                        (alter (strip_ch c) j l)) as Halter.
  { intros c l Hl j. apply Forall_alter; [done|].
    intros x _ Hx. destruct (contains "pi" (strip_ch c x)) eqn:E; [|done].
    apply contains_strip_by in E. congruence. }
  cbv zeta. apply Halter, Halter.
  destruct (split_pieces "pi" "," i) as [_ H].
  eapply Forall_impl; [exact H|]. intros p Hp.
  destruct (contains "pi" p) eqn:E; [|done]. rewrite Hp in Hi; done.
Qed.

Section WithRun.
Context (rt : runtime) (f : string -> option value).

(** Without [pi] in its argument, [parse] does not come to [eval]. *)
Lemma parse_fuel_eval fuel : forall i,
  contains "pi" i = false ->
  parse_fuel (with_eval f rt) fuel i = parse_fuel rt fuel i.
Proof.
  induction fuel as [|fuel IH]; intros i Hi; [done|].
  cbn [parse_fuel]. rewrite Hi.
  destruct (in_list i ["True"; "true"]); [done|].
  destruct (in_list i ["False"; "false"]); [done|].
  destruct (py_int i); [done|].
  destruct (py_float_ok i); [done|].
  destruct i as [|c r]; [done|].
  destruct (negb (ch_eqb c "[")); [done|].
  cbv zeta.
  rewrite (Parse.parse_each_ext (parse_fuel (with_eval f rt) fuel)
             (parse_fuel rt fuel)); [done|].
  eapply Forall_impl; [exact (list_items_no_pi _ Hi)|].
  intros x Hx. by apply IH.
Qed.

Lemma parse_eval i :
  contains "pi" i = false -> parse (with_eval f rt) i = parse rt i.
Proof. apply parse_fuel_eval. Qed.

Lemma for_each_ext {A} (b1 b2 : A -> M unit) l :
  (forall x, In x l -> forall s, b1 x s = b2 x s) ->
  forall s, for_each l b1 s = for_each l b2 s.
Proof.
  induction l as [|x l IH]; intros H s; [done|].
  cbn [for_each]. rewrite !bind_run, (H x) by (by left).
  destruct (b2 x s) as [[[]|c|e] s1]; [|done..].
  apply IH. intros y Hy. apply H. by right.
Qed.

Lemma series_getitem_scalar (cfg : series) k x :
  series_getitem cfg k = Done (Scalar x) -> In (k, x) cfg.
Proof.
  unfold series_getitem.
  destruct (List.filter _ cfg) as [|[k1 v1] [|[k2 v2] l]] eqn:E; try done.
  intros [= ->].
  assert (In (k1, x) (List.filter (fun kv => String.eqb kv.1 k) cfg)) as H
    by (rewrite E; by left).
  apply filter_In in H as [H Heq]. by apply String.eqb_eq in Heq as <-.
Qed.

Lemma parse_cell_eval (cfg : series) i c :
  no_pi_block cfg = true ->
  series_getitem cfg i = Done c ->
  parse_cell (with_eval f rt) c = parse_cell rt c.
Proof.
  intros Hcfg Hc. destruct c as [x|l]; [|done]. cbn [parse_cell].
  apply parse_eval. apply series_getitem_scalar in Hc.
  unfold no_pi_block in Hcfg. rewrite forallb_forall in Hcfg.
  specialize (Hcfg _ Hc). by apply negb_true_iff in Hcfg.
Qed.

Lemma load_global_parameters_eval verbose cfg s :
  no_pi_block cfg = true ->
  load_global_parameters (with_eval f rt) verbose cfg s
  = load_global_parameters rt verbose cfg s.
Proof.
  intros Hcfg. unfold load_global_parameters. rewrite !bind_run.
  destruct (lift (series_getitem cfg "function") s) as [[c0|?|?] s1];
    [|done..].
  rewrite !bind_run.
  destruct (lift (cell_eq c0 "GLOBAL_PARAMETERS") s1) as [[[]|?|?] s2];
    [|done..].
  cbn [when]. rewrite !bind_run.
  rewrite (for_each_ext _
             (fun i => when (negb (String.eqb i "function"))
                (c ← lift (series_getitem cfg i);
                 v ← lift (parse_cell rt c);
                 global_setitem i v))); [done|].
  intros i _ q. destruct (negb (String.eqb i "function")); [|done].
  cbn [when]. rewrite !bind_run. unfold lift at 1 3.
  destruct (series_getitem cfg i) as [c| |] eqn:Hc; [|done..].
  rewrite !bind_run. unfold lift at 1 2.
  by rewrite (parse_cell_eval cfg i c Hcfg Hc).
Qed.

Lemma run_block_eval inputPath verbose cfg s :
  no_pi_block cfg = true ->
  run_block (with_eval f rt) inputPath verbose cfg s
  = run_block rt inputPath verbose cfg s.
Proof.
  intros Hcfg. unfold run_block. rewrite !bind_run.
  destruct (lift (series_getitem cfg "function") s) as [[c0|?|?] s1];
    [|done..].
  rewrite !bind_run.
  destruct (lift (cell_eq c0 "GLOBAL_PARAMETERS") s1) as [[b|?|?] s2];
    [|done..].
  rewrite !bind_run. destruct (negb b); [|done]. cbn [when].
  rewrite !bind_run.
  assert (overlay (with_eval f rt) cfg s2 = overlay rt cfg s2) as ->.
  { unfold overlay. rewrite !bind_run. unfold get at 1 2. cbv beta iota.
    rewrite !bind_run. unfold set_params at 1 2. cbv beta iota.
    apply for_each_ext. intros i _ q.
    rewrite !bind_run. unfold lift at 1 3.
    destruct (series_getitem cfg i) as [c| |] eqn:Hc; [|done..].
    rewrite !bind_run. unfold lift at 1 2.
    by rewrite (parse_cell_eval cfg i c Hcfg Hc). }
  done.
Qed.

End WithRun.
End Eval.

(** ** The second half of the stages *)

Module Dispatch.
Import PyStr PyVal Coerce Run Msg Step Stages Reader Orchestrator Logic Frame Laws.
Import Loop Eval.

(** The keys of [K] are in [params]. *)
Definition has_keys (K : list string) (s : state) : Prop :=
  Forall (fun k => is_Some (params s !! k)) K.

(** With the keys of [K] in [params], [m] returns a value and leaves the
    state as it is. *)
Definition reads {A} (K : list string) (m : M A) : Prop :=
  forall s, has_keys K s -> exists a, m s = (Done a, s).

(** With the keys of [K] in [params], [m] ends normally. *)
Definition completes (K : list string) (m : M unit) : Prop :=
  forall s, has_keys K s -> (m s).1 = Done ().

Lemma reads_ret {A} K (a : A) : reads K (mret a).
Proof. intros s _. by exists a. Qed.

Lemma reads_bind {A B} K (m : M A) (f : A -> M B) :
  reads K m -> (forall a, reads K (f a)) -> reads K (m ≫= f).
Proof.
  intros Hm Hf s Hs. destruct (Hm s Hs) as [a Ha].
  rewrite bind_run, Ha. by apply Hf.
Qed.

Lemma reads_get {A} K (proj : state -> A) : reads K (get proj).
Proof. intros s _. by eexists. Qed.

Lemma reads_getitem K k : In k K -> reads K (getitem k).
Proof.
  intros Hin s Hs. unfold has_keys in Hs. rewrite List.Forall_forall in Hs.
  destruct (Hs _ Hin) as [v Hv]. exists v.
  unfold getitem. rewrite bind_run. unfold get at 1. by rewrite Hv.
Qed.

Lemma reads_if {A} K (b : bool) (m1 m2 : M A) :
  reads K m1 -> reads K m2 -> reads K (if b then m1 else m2).
Proof. by destruct b. Qed.

Lemma completes_bind {A} K (m : M A) (f : A -> M unit) :
  reads K m -> (forall a, completes K (f a)) -> completes K (m ≫= f).
Proof.
  intros Hm Hf s Hs. destruct (Hm s Hs) as [a Ha].
  rewrite bind_run, Ha. by apply Hf.
Qed.

(** A [try] whose [except] clause only prints ends normally. *)
Lemma try_except_print body text s :
  (try_except body (print text) s).1 = Done ().
Proof. unfold try_except. by destruct (body s) as [[[]|c|e] s']. Qed.

Lemma completes_try K body text : completes K (try_except body (print text)).
Proof. intros s _. apply try_except_print. Qed.

Ltac reads_tac :=
  lazymatch goal with
  | |- reads _ (mbind _ _) =>
      apply reads_bind; [reads_tac | intros ?; reads_tac]
  | |- reads _ (mret _) => apply reads_ret
  | |- reads _ (get _) => apply reads_get
  | |- reads _ (getitem _) => apply reads_getitem; cbn [In]; tauto
  | |- reads _ (if _ then _ else _) => apply reads_if; reads_tac
  | |- reads _ (flags_of _) => cbn [flags_of]; reads_tac
  | |- reads _ ?m => let h := head_of m in unfold h; reads_tac
  end.

Ltac completes_tac :=
  cbv zeta;
  lazymatch goal with
  | |- completes _ (mbind _ _) =>
      apply completes_bind; [reads_tac | intros ?; completes_tac]
  | |- completes _ (try_except _ (print _)) => apply completes_try
  | |- completes _ ?m => let h := head_of m in unfold h; completes_tac
  end.

(** The keys that the resolution of [resolve] leaves in [params] are
    enough for [dispatch]. *)
Definition prepared (resolve dispatch : M unit) : Prop :=
  exists K, Forall (fun k => ensures k resolve) K /\ completes K dispatch.

(** [if not k in params.keys(): ...], where the branch sets [k]. *)
Lemma ensures_unless k (m : M unit) (f : unit -> M unit) :
  ensures k m -> (forall a, frames more_keys (f a)) ->
  ensures k (b ← has_key k; when (negb b) m ≫= f).
Proof.
  intros Hm Hf s a s'.
  unfold has_key, is_key. rewrite bind_run, bind_run. unfold get at 1.
  cbv beta iota. unfold mret at 1, M_ret at 1. cbv beta iota.
  rewrite bind_run.
  destruct (params s !! k) eqn:E; cbn [negb when].
  - unfold mret at 1, M_ret at 1. intros H.
    specialize (Hf () s). rewrite H in Hf. apply Hf. rewrite E. eauto.
  - destruct (m s) as [[[]|c|e] s1] eqn:E1; [|done..].
    intros H. specialize (Hf () s1). rewrite H in Hf. apply Hf.
    by eapply Hm.
Qed.

Ltac keys_tac :=
  lazymatch goal with
  | |- ensures _ (mbind _ _) =>
      first [ apply ensures_unless;
              [ solve [keys_tac] | intros ?; solve [frames_more_keys] ]
            | apply ensures_bind_l;
              [ solve [keys_tac] | intros ?; solve [frames_more_keys] ]
            | apply ensures_bind_r; intros ?; keys_tac ]
  | |- ensures _ (sys_exit _) => apply ensures_sys_exit
  | |- ensures _ (raise _) => apply ensures_raise
  | |- ensures _ (defaults _) => apply ensures_defaults; by eexists
  | |- ensures _ (setitem _ _) => apply ensures_setitem
  | |- ensures _ (require _ _ _) => apply ensures_require
  | |- ensures _ (output_from_suffix _ _) =>
      apply ensures_output_from_suffix; keys_tac
  | |- ensures _ (if _ then _ else _) => apply ensures_if; keys_tac
  | |- ensures _ ?m => let h := head_of m in unfold h; keys_tac
  end.

Ltac prepared_with K :=
  exists K; split;
  [ repeat first [apply Forall_nil_2 | apply Forall_cons_2]; keys_tac
  | completes_tac ].


(** The script that a stage starts; [REORGANIZE] has two. *)
Definition scripts_of (function : string) : list string :=
  match List.find (fun row => String.eqb function row.1)
          [("CHECK_FOLDER", ["src/StructFolderCheck.py"]);
           ("REORGANIZE", ["src/no_reorganize.py";
                           "src/reorganize_multiprocessing.py"]);
           ("DCM2NII", ["src/dcm2nii_multiprocessing.py"]);
           ("SPATIAL_RESAMPLING",
            ["src/NiftiSpatialResampling_multiprocessing.py"]);
           ("INTENSITY_RESAMPLING",
            ["src/NiftiIntensityResampling_multiprocessing.py"]);
           ("MERGE_MASKS", ["src/NiftiMergeVolumes_multiprocessing.py"]);
           ("MASK_THRESHOLDING",
            ["src/NiftiMaskThresholding_multiprocessing.py"]);
           ("I-WINDOWING", ["src/NiftiWindowing_multiprocessing.py"]);
           ("I-HARMONIZE", ["src/NiftiImageHarmonization_multiprocessing.py"]);
           ("N4-BIAS-FIELD-CORRECTION",
            ["src/NiftiN4BiasFieldCorrection_multiprocessing.py"]);
           ("RADIOMICS", ["src/radiomics_multiprocessing.py"]);
           ("DELETE", ["src/delete_folder.py"]);
           ("SEGMENTATION", ["src/segmentation_multiprocessing.py"]);
           ("F-NORMALIZE", ["src/feature_normalization.py"]);
           ("F-HARMONIZE", ["src/feature_harmonization.py"]);
           ("PREDICT", ["src/predict.py"]);
           ("COPY", ["src/copy_folder_contents.py"])] with
  | Some (_, l) => l
  | None => []
  end.

(** [prog] is [python] with one of the scripts [S] and some flags. *)
Definition runs_script (S : list string) (prog : list string) : Prop :=
  exists script flags, prog = python script flags /\ In script S.

(** Only scripts of [S] are started. *)
Definition starts_only (S : list string) : relation state :=
  fun s s' => exists l,
    dispatched (trace s') = (dispatched (trace s) ++ l)%list
    /\ Forall (runs_script S) l.

#[global] Instance starts_only_po S : PreOrder (starts_only S).
Proof.
  split.
  - intros s. exists []. by rewrite app_nil_r.
  - intros s1 s2 s3 (l1 & H1 & F1) (l2 & H2 & F2).
    exists (l1 ++ l2)%list. rewrite H2, H1, app_assoc. split; [done|].
    by apply Forall_app.
Qed.

Ltac atom_starts_only :=
  unfold starts_only; cbn [trace];
  first
    [ exists []; split; [by rewrite app_nil_r|constructor]
    | rewrite dispatched_app; cbn [dispatched];
      first
        [ exists []; split; [done|constructor]
        | eexists [_]; split; [reflexivity|];
          constructor; [|constructor];
          eexists _, _; split; [reflexivity|cbn; tauto] ] ].


(** The name under the label [function] of a block, when there is one. *)
Definition function_of (cfg : series) : string :=
  match series_getitem cfg "function" with
  | Done (Scalar function) => function
  | _ => EmptyString
  end.

(** The subprocesses [l] follow the blocks [cs]: they are those of the
    first block, in [scripts_of] its function, then those of the second
    one, and so on, for all the blocks or for the first ones. *)
Fixpoint follows (cs : list series) (l : list (list string)) : Prop :=
  l = [] \/
  match cs with
  | [] => False
  | cfg :: rest =>
      exists l1 l2, l = (l1 ++ l2)%list
        /\ Forall (runs_script (scripts_of (function_of cfg))) l1
        /\ follows rest l2
  end.

(** The list of blocks is untouched. *)
Definition same_configs : relation state :=
  fun s s' => configs s' = configs s.

#[global] Instance same_configs_po : PreOrder same_configs.
Proof.
  split; [done|]. intros s1 s2 s3 H1 H2. unfold same_configs in *. congruence.
Qed.

Lemma follows_nil cs : follows cs [].
Proof. destruct cs; by left. Qed.

Section WithRun.
Context (rt : runtime) (inputPath : string) (verbose : bool).

(** The stages whose second half can end otherwise than normally:
    [REORGANIZE] exits on an invalid folder, and [MERGE_MASKS] reads a key
    that nothing sets. *)
Definition fragile_stages : list string := ["REORGANIZE"; "MERGE_MASKS"].

Lemma stage_table_prepared :
  Forall (fun row => ~ In row.1 fragile_stages -> prepared row.2.1 row.2.2)
    (stage_table rt inputPath verbose).
Proof.
  unfold stage_table, fragile_stages.
  apply Forall_cons_2; [intros _; cbn [fst snd]|].
  { prepared_with
      ["inputFolder"; "log"; "verbose"; "new_log_file";
       "with-segmentation"]. }
  apply Forall_cons_2; [intros H; exfalso; apply H; cbn [In fst]; tauto|].
  apply Forall_cons_2; [intros _; cbn [fst snd]|].
  { prepared_with
      ["inputFolder"; "outputFolder"; "log"; "multiprocessing";
       "mask_regMatch"; "verbose"; "new_log_file"; "with-segmentation";
       "all-data-with-segmentation"; "skip"; "include"]. }
  apply Forall_cons_2; [intros _; cbn [fst snd]|].
  { prepared_with
      ["inputFolder"; "outputFolder"; "log"; "multiprocessing";
       "image_interpolation"; "mask_interpolation"; "voxel_size";
       "suffix_name"; "verbose"; "new_log_file"; "use_c3d";
       "with-segmentation"; "all-data-with-segmentation"; "skip";
       "include"]. }
  apply Forall_cons_2; [intros _; cbn [fst snd]|].
  { prepared_with
      ["inputFolder"; "outputFolder"; "log"; "multiprocessing";
       "image_filename"; "mask_filename"; "resampled_image_filename";
       "suffix_name"; "method"; "n_bins"; "bin_width"; "min_scaling";
       "max_scaling"; "lower_bound"; "upper_bound"; "verbose";
       "new_log_file"; "skip"; "include"]. }
  apply Forall_cons_2; [intros H; exfalso; apply H; cbn [In fst]; tauto|].
  apply Forall_cons_2; [intros _; cbn [fst snd]|].
  { prepared_with
      ["inputFolder"; "outputFolder"; "log"; "multiprocessing";
       "mask_filename"; "image_filename"; "min_threshold";
       "max_threshold"; "suffix_name"; "verbose"; "new_log_file";
       "skip"; "include"]. }
  apply Forall_cons_2; [intros _; cbn [fst snd]|].
  { prepared_with
      ["inputFolder"; "outputFolder"; "log"; "multiprocessing";
       "image_filename"; "windowed_image_filename"; "window_level";
       "window_width"; "window_name"; "suffix_name"; "verbose";
       "new_log_file"; "skip"; "include"]. }
  apply Forall_cons_2; [intros _; cbn [fst snd]|].
  { prepared_with
      ["inputFolder"; "outputFolder"; "log"; "multiprocessing";
       "image_filename"; "mask_filename"; "reference_image";
       "reference_mask"; "harmonized_image_filename"; "method";
       "n_bins"; "n_matchPoints"; "suffix_name"; "verbose";
       "new_log_file"; "skip"; "include"]. }
  apply Forall_cons_2; [intros _; cbn [fst snd]|].
  { prepared_with
      ["inputFolder"; "outputFolder"; "log"; "multiprocessing";
       "image_filename"; "mask_filename"; "corrected_image_filename";
       "bias_field_image_filename"; "suffix_name"; "verbose";
       "new_log_file"; "skip"; "include"]. }
  apply Forall_cons_2; [intros _; cbn [fst snd]|].
  { prepared_with
      ["inputFolder"; "outputFolder"; "log"; "multiprocessing";
       "image_filename"; "mask_filename"; "radiomics_filename";
       "configs"; "pyradiomics_config"; "stats_filename"; "verbose";
       "new_log_file"; "save_at_the_end"; "skip"; "include"]. }
  apply Forall_cons_2; [intros _; cbn [fst snd]|].
  { prepared_with
      ["folder"; "log"; "verbose"]. }
  apply Forall_cons_2; [intros _; cbn [fst snd]|].
  { prepared_with
      ["inputFolder"; "log"; "multiprocessing"; "verbose";
       "new_log_file"; "skip-segmented-data"; "skip"; "include";
       "method"; "segmentation-list"; "image_filename"; "image_type";
       "job_scheduler"]. }
  apply Forall_cons_2; [intros _; cbn [fst snd]|].
  { prepared_with
      ["inputFolder"; "log"; "outputFolder"; "modelFolder";
       "radiomics_filename"; "normalized_radiomics_filename";
       "stats_filename"; "method"; "stratified"; "mode"; "verbose";
       "new_log_file"]. }
  apply Forall_cons_2; [intros _; cbn [fst snd]|].
  { prepared_with
      ["inputFolder"; "log"; "outputFolder"; "modelFolder";
       "radiomics_filename"; "batch_filename";
       "harmonized_radiomics_filename"; "estimates_filename";
       "radiomics_from_model_filename"; "batch_from_model_filename";
       "ref_batch"; "mode"; "covars"; "verbose"; "new_log_file"]. }
  apply Forall_cons_2; [intros _; cbn [fst snd]|].
  { prepared_with
      ["inputFolder"; "log"; "outputFolder"; "modelFolder";
       "radiomics_filename"; "predict_filename"; "model_filename";
       "verbose"; "new_log_file"]. }
  apply Forall_cons_2; [intros _; cbn [fst snd]|].
  { prepared_with
      ["inputFolder"; "log"; "targetFolder"; "verbose"]. }
  apply Forall_nil_2.
Qed.

(** X16: for every stage but [REORGANIZE] and [MERGE_MASKS], once the
    parameters are resolved the second half of the stage ends normally:
    every key that the flags read is there, and whatever happens in the
    [try] block (the subprocess does not start, the probe says that the
    folder is invalid) is caught by its [except] clause. *)
Theorem dispatch_ends_normally function resolve dispatch s s1 :
  In (function, (resolve, dispatch)) (stage_table rt inputPath verbose) ->
  ~ In function fragile_stages ->
  resolve s = (Done (), s1) ->
  (dispatch s1).1 = Done ()
  /\ run_stage rt inputPath verbose function s = (Done (), (dispatch s1).2).
Proof.
  intros Hin Hf Hres.
  pose proof stage_table_prepared as Ht.
  rewrite List.Forall_forall in Ht.
  destruct (Ht _ Hin Hf) as (K & HK & Hd). cbn [fst snd] in *.
  assert ((dispatch s1).1 = Done ()) as Hdone.
  { apply Hd. eapply Forall_impl; [exact HK|].
    intros k Hk. by eapply Hk. }
  split; [done|].
  assert (run_stage rt inputPath verbose function = (resolve;; dispatch)) as ->.
  { clear -Hin. unfold stage_table in Hin. cbn [In] in Hin.
    repeat (destruct Hin as [[= <- <- <-]|Hin]; [reflexivity|]).
    destruct Hin. }
  rewrite bind_run, Hres. by destruct (dispatch s1) as [o s2]; simpl in *; subst.
Qed.

Lemma SEGMENTATION_resolve_keys :
  Forall (fun k => ensures k (SEGMENTATION_resolve inputPath verbose))
    ["inputFolder"; "log"; "multiprocessing"; "verbose"; "new_log_file";
     "skip-segmented-data"; "skip"; "include"; "method";
     "segmentation-list"; "image_filename"; "image_type"; "job_scheduler";
     "timer"].
Proof. repeat first [apply Forall_nil_2 | apply Forall_cons_2]; keys_tac. Qed.

Lemma SEGMENTATION_resolve_globals :
  frames same_globals (SEGMENTATION_resolve inputPath verbose).
Proof. frames_same_globals. Qed.

(** X17: a [SEGMENTATION] stage whose subprocess starts sets the global
    parameter [with-segmentation] to [True], for all the stages after it;
    when the subprocess does not start, the global parameters stay as they
    are. In both cases the stage ends normally. *)
Theorem SEGMENTATION_sets_with_segmentation s s1 :
  SEGMENTATION_resolve inputPath verbose s = (Done (), s1) ->
  let run := SEGMENTATION rt inputPath verbose s in
  run.1 = Done ()
  /\ exists flags,
       let prog := python "src/segmentation_multiprocessing.py" flags in
       dispatched (trace run.2) = (dispatched (trace s1) ++ [prog])%list
       /\ global_params run.2 =
            if subprocess_run rt (trace s1) prog
            then <["with-segmentation" := VBool true]> (global_params s)
            else global_params s.
Proof.
  intros Hres run. subst run.
  pose proof (ensures_Forall _ _ _ _ _ SEGMENTATION_resolve_keys Hres) as Hk.
  pose proof (SEGMENTATION_resolve_globals s) as Hg.
  rewrite Hres in Hg. unfold same_globals in Hg. cbn [snd] in Hg.
  rewrite <- Hg. clear Hg.
  unfold SEGMENTATION. rewrite bind_run, Hres. clear Hres s.
  unfold SEGMENTATION_dispatch.
  match goal with
  | |- context [mbind _ (flags_of ?l)] =>
      assert (reads ["inputFolder"; "log"; "multiprocessing"; "verbose";
                     "new_log_file"; "skip-segmented-data"; "skip";
                     "include"; "method"; "segmentation-list";
                     "image_filename"; "image_type"; "job_scheduler";
                     "timer"] (flags_of l)) as Hr by reads_tac
  end.
  destruct (Hr s1 Hk) as [flags Hfl]. rewrite bind_run, Hfl. clear Hr Hfl.
  assert (exists t, params s1 !! "timer" = Some t) as [t Ht].
  { unfold has_keys in Hk. rewrite List.Forall_forall in Hk.
    apply Hk. cbn [In]. tauto. }
  clear Hk. cbv zeta.
  split; [apply try_except_print|].
  exists flags.
  apply (wp_pair _ _ (fun _ s' => dispatched (trace s') = _ /\ global_params s' = _)).
  wp_go.
  all: finish.
Qed.

Lemma stage_table_starts_only :
  Forall (fun row => frames (starts_only (scripts_of row.1)) (row.2.1;; row.2.2))
    (stage_table rt inputPath verbose).
Proof.
  unfold stage_table.
  repeat first [apply Forall_nil_2 | apply Forall_cons_2]; cbn [fst snd].
  all: match goal with
       | |- frames (starts_only ?S) _ =>
           let S' := eval vm_compute in S in change S with S'
       end.
  all: frames_with no_special atom_starts_only.
Qed.

(** X18: what a stage starts. Whatever its parameters, a stage starts
    nothing but [python] with its own script, and a name that is not the
    name of a stage starts nothing. *)
Theorem stage_starts_its_script function s :
  exists l,
    dispatched (trace (run_stage rt inputPath verbose function s).2)
    = (dispatched (trace s) ++ l)%list
    /\ Forall (runs_script (scripts_of function)) l.
Proof.
  unfold run_stage.
  destruct (find _ _) as [[n [resolve dispatch]]|] eqn:E.
  - apply find_some in E as [Hin Heq]. cbn [fst] in Heq.
    apply String.eqb_eq in Heq as <-.
    pose proof stage_table_starts_only as Ht.
    rewrite List.Forall_forall in Ht. apply (Ht _ Hin s).
  - exists []. by rewrite app_nil_r.
Qed.

(** *** The order of the stages *)

Lemma run_block_starts cfg s :
  exists l,
    dispatched (trace (run_block rt inputPath verbose cfg s).2)
    = (dispatched (trace s) ++ l)%list
    /\ Forall (runs_script (scripts_of (function_of cfg))) l.
Proof.
  assert (forall q, dispatched (trace (record_outputFolder q).2)
                    = dispatched (trace q)) as Hrec.
  { intros q. assert (frames nothing_dispatched record_outputFolder) as H
      by frames_nothing_dispatched. apply H. }
  unfold run_block, function_of. rewrite bind_run. unfold lift at 1.
  destruct (series_getitem cfg "function") as [[f|l]| |] eqn:E;
    try (exists []; by rewrite app_nil_r).
  rewrite bind_run. unfold lift at 1. cbn [cell_eq].
  destruct (String.eqb f "GLOBAL_PARAMETERS"); cbn [negb when].
  { rewrite bind_run. unfold mret at 1, M_ret at 1.
    exists []. rewrite app_nil_r. split; [apply Hrec|constructor]. }
  rewrite bind_run, bind_run.
  pose proof (overlay_quiet rt cfg s) as Ho. unfold nothing_dispatched in Ho.
  destruct (overlay rt cfg s) as [[[]|c|e] s1]; cbn [snd] in Ho;
    try (exists []; by rewrite app_nil_r).
  destruct (stage_starts_its_script f s1) as (l & Hl & HF).
  rewrite Ho in Hl.
  destruct (run_stage rt inputPath verbose f s1) as [[[]|c|e] s2];
    cbn [snd] in Hl; exists l; (split; [|done]); [|done..].
  by rewrite Hrec.
Qed.

Lemma run_blocks_follow cs : forall s,
  exists l,
    dispatched (trace (for_each cs (run_block rt inputPath verbose) s).2)
    = (dispatched (trace s) ++ l)%list
    /\ follows cs l.
Proof.
  induction cs as [|cfg rest IH]; intros s.
  { exists []. rewrite app_nil_r. split; [done|by left]. }
  cbn [for_each]. rewrite bind_run.
  destruct (run_block_starts cfg s) as (l1 & H1 & F1).
  destruct (run_block rt inputPath verbose cfg s) as [[[]|c|e] s1];
    cbn [snd] in H1.
  - destruct (IH s1) as (l2 & H2 & F2).
    exists (l1 ++ l2)%list. rewrite H2, H1, app_assoc. split; [done|].
    right. by exists l1, l2.
  - exists l1. split; [done|]. right. exists l1, []. rewrite app_nil_r.
    split; [done|]. split; [done|apply follows_nil].
  - exists l1. split; [done|]. right. exists l1, []. rewrite app_nil_r.
    split; [done|]. split; [done|apply follows_nil].
Qed.

Lemma read_lines_quiet config_File r infile :
  frames nothing_dispatched (read_lines config_File verbose r infile).
Proof.
  revert r. induction infile as [|raw rest IH]; intros r.
  - frames_nothing_dispatched.
  - cbn [read_lines]. apply frames_bind; [exact _| |intros r'; apply IH].
    frames_nothing_dispatched.
Qed.

(** The subprocesses of a run follow the blocks that the reader gives. *)
Lemma run_follows_blocks configFile infile s :
  let cs := configs (read_config_file configFile verbose infile s).2 in
  exists l,
    dispatched (trace (main rt configFile inputPath verbose infile s).2)
    = (dispatched (trace s) ++ l)%list
    /\ follows cs l.
Proof.
  intros cs. subst cs. unfold main. rewrite bind_run.
  pose proof (read_lines_quiet configFile (Reader false []) infile s) as Hq.
  unfold nothing_dispatched in Hq. fold (read_config_file configFile verbose infile) in Hq.
  destruct (read_config_file configFile verbose infile s) as [[[]|c|e] s1];
    cbn [snd] in *; try (exists []; rewrite app_nil_r; split; [done|apply follows_nil]).
  rewrite bind_run. unfold get at 1. cbv beta iota. rewrite bind_run.
  assert (frames nothing_dispatched
            (for_each (configs s1) (load_global_parameters rt verbose))) as H1
    by frames_nothing_dispatched.
  assert (frames same_configs
            (for_each (configs s1) (load_global_parameters rt verbose))) as H2
    by (frames_with no_special atom_trivial).
  specialize (H1 s1). specialize (H2 s1).
  unfold nothing_dispatched, same_configs in H1, H2.
  destruct (for_each (configs s1) (load_global_parameters rt verbose) s1)
    as [[[]|c|e] s2]; cbn [snd] in *;
    try (exists []; rewrite app_nil_r; split; [congruence|apply follows_nil]).
  rewrite bind_run. unfold get at 1. cbv beta iota. rewrite H2.
  destruct (run_blocks_follow (configs s1) s2) as (l & Hl & Hf).
  exists l. split; [|done]. by rewrite Hl, H1, Hq.
Qed.

(** On a file without [pi] in its values, the run does not depend on
    what [eval] gives: it is not called. *)
Lemma main_eval f configFile infile s :
  no_pi (configs (read_config_file configFile verbose infile s).2) = true ->
  main (with_eval f rt) configFile inputPath verbose infile s
  = main rt configFile inputPath verbose infile s.
Proof.
  unfold main. rewrite !bind_run.
  destruct (read_config_file configFile verbose infile s) as [[[]|?|?] s1];
    [|done..].
  cbn [snd]. intros Hcs. unfold no_pi in Hcs. rewrite forallb_forall in Hcs.
  rewrite !bind_run. unfold get at 1 3. cbv beta iota. rewrite !bind_run.
  rewrite (for_each_ext (load_global_parameters (with_eval f rt) verbose)
             (load_global_parameters rt verbose))
    by (intros cfg Hin q; apply load_global_parameters_eval; by apply Hcs).
  assert (frames same_configs
            (for_each (configs s1) (load_global_parameters rt verbose))) as H
    by (frames_with no_special atom_trivial).
  specialize (H s1). unfold same_configs in H.
  destruct (for_each (configs s1) (load_global_parameters rt verbose) s1)
    as [[[]|?|?] s2]; [|done..].
  cbn [snd] in H. rewrite !bind_run. unfold get at 1 2. cbv beta iota.
  rewrite H. apply for_each_ext.
  intros cfg Hin q. apply run_block_eval. by apply Hcs.
Qed.

(** X19: on a file none of whose values has [pi] in it, so that [parse]
    hands nothing to [eval]: the reading of the file starts no
    subprocess, the first loop of [main], over the global parameters,
    starts none, and the subprocesses of the run are started in the
    order of the blocks of the file, each one with a script of the stage
    of its block. The run is the same whatever [eval] gives. *)
Theorem stages_start_in_file_order configFile infile s :
  no_pi (configs (read_config_file configFile verbose infile s).2) = true ->
  let read := read_config_file configFile verbose infile s in
  let cs := configs read.2 in
  let loaded := for_each cs (load_global_parameters rt verbose) read.2 in
  let run := main rt configFile inputPath verbose infile s in
  dispatched (trace read.2) = dispatched (trace s)
  /\ dispatched (trace loaded.2) = dispatched (trace s)
  /\ (exists l,
        dispatched (trace run.2) = (dispatched (trace s) ++ l)%list
        /\ follows cs l)
  /\ forall f,
       main (with_eval f rt) configFile inputPath verbose infile s = run.
Proof.
  intros Hpi read cs loaded run.
  assert (dispatched (trace read.2) = dispatched (trace s)) as Hread
    by apply (read_lines_quiet configFile (Reader false []) infile s).
  split; [done|]. split.
  { subst loaded. rewrite <- Hread.
    assert (frames nothing_dispatched
              (for_each cs (load_global_parameters rt verbose))) as H
      by frames_nothing_dispatched.
    apply H. }
  split; [apply run_follows_blocks|].
  intros f. by apply main_eval.
Qed.

End WithRun.

Lemma dispatch_ends_normally_witness :
  let rt := Sample.machine None false in
  let s := Examples.stage_params "COPY" [("inputFolder", VStr "/a")] in
  let s1 := (COPY_resolve "" false s).2 in
  (COPY_dispatch rt s1).1 = Done ()
  /\ run_stage rt "" false "COPY" s = (Done (), (COPY_dispatch rt s1).2).
Proof.
  intros rt s s1.
  apply (dispatch_ends_normally rt "" false "COPY"
           (COPY_resolve "" false) (COPY_dispatch rt) s s1).
  - unfold stage_table. cbn [In]. do 16 right. left. reflexivity.
  - unfold fragile_stages. cbn [In]. intuition discriminate.
  - vm_compute. reflexivity.
Defined.

Lemma SEGMENTATION_sets_with_segmentation_witness :
  let rt := Sample.machine None true in
  let s := Examples.stage_params "SEGMENTATION" [("inputFolder", VStr "/a")] in
  let s1 := (SEGMENTATION_resolve "" false s).2 in
  let run := SEGMENTATION rt "" false s in
  run.1 = Done ()
  /\ exists flags,
       let prog := python "src/segmentation_multiprocessing.py" flags in
       dispatched (trace run.2) = (dispatched (trace s1) ++ [prog])%list
       /\ global_params run.2 =
            if subprocess_run rt (trace s1) prog
            then <["with-segmentation" := VBool true]> (global_params s)
            else global_params s.
Proof.
  intros rt s s1.
  apply (SEGMENTATION_sets_with_segmentation rt "" false s s1).
  reflexivity.
Defined.

Lemma stages_start_in_file_order_witness :
  let rt := Sample.machine (Some "Ready_to_reorganize") true in
  let infile := Sample.check_reorganize_radiomics in
  let read := read_config_file "pipeline.txt" false infile initial in
  let cs := configs read.2 in
  let loaded := for_each cs (load_global_parameters rt false) read.2 in
  let run := main rt "pipeline.txt" "" false infile initial in
  dispatched (trace read.2) = dispatched (trace initial)
  /\ dispatched (trace loaded.2) = dispatched (trace initial)
  /\ (exists l,
        dispatched (trace run.2) = (dispatched (trace initial) ++ l)%list
        /\ follows cs l)
  /\ forall f,
       main (with_eval f rt) "pipeline.txt" "" false infile initial = run.
Proof.
  intros rt infile.
  apply (stages_start_in_file_order rt "" false "pipeline.txt" infile initial).
  reflexivity.
Defined.

End Dispatch.

(** ** A key that is repeated in its block *)

Module Duplicates.
Import PyStr PyVal Coerce Run Msg Step Stages Reader Orchestrator Logic Frame Laws.
Import Config Eval Dispatch.

(** The first loop of [main] does not pass the block: its label
    [function] is repeated, so that the comparison of line 94 is on a
    series, or it is a block of global parameters, whose values are
    parsed there. *)
Definition stops_first_loop (cfg : series) : bool :=
  match series_getitem cfg "function" with
  | Done (Scalar function) => String.eqb function "GLOBAL_PARAMETERS"
  | _ => true
  end.

Lemma for_each_app {A} (body : A -> M unit) l1 l2 s :
  for_each (l1 ++ l2)%list body s = (for_each l1 body;; for_each l2 body) s.
Proof.
  revert s. induction l1 as [|x l1 IH]; intros s; [done|].
  cbn [for_each app]. rewrite !bind_run.
  destruct (body x s) as [[[]|c|e] s1]; [|done..].
  rewrite IH. by rewrite bind_run.
Qed.

(** A loop over a list that holds an element at which the body never
    ends normally. *)
Lemma for_each_stops {A} (body : A -> M unit) x l :
  In x l -> (forall s, (body x s).1 <> Done ()) ->
  forall s, (for_each l body s).1 <> Done ().
Proof.
  intros Hin Hx. induction l as [|y l IH]; intros s; [destruct Hin|].
  cbn [for_each]. rewrite bind_run.
  destruct Hin as [->|Hin].
  - specialize (Hx s). destruct (body x s) as [[[]|c|e] s1]; done.
  - destruct (body y s) as [[[]|c|e] s1]; [by apply IH|done..].
Qed.

Section WithRun.
Context (rt : runtime) (config_File inputPath : string) (verbose : bool).

(** The loop of the first pass over the labels of a block of global
    parameters, one of which occurs more than once. *)
Lemma global_loop_raises cfg k dup labels : forall s,
  series_getitem cfg k = Done (SubSeries dup) ->
  k <> "function" ->
  In k labels ->
  Forall (fun i => exists c, series_getitem cfg i = Done c) labels ->
  exists e s',
    for_each labels (fun i =>
      when (negb (String.eqb i "function"))
        (c ← lift (series_getitem cfg i);
         v ← lift (parse_cell rt c);
         global_setitem i v)) s = (Raise e, s')
    /\ (e = ValueError \/ e = IndexError)
    /\ trace s' = trace s.
Proof.
  intros s Hk Hne Hin Hall. revert s.
  induction Hall as [|i labels [c Hc] Hall IH]; intros s; [destruct Hin|].
  cbn [for_each]. rewrite bind_run.
  destruct (String.eqb_spec i "function") as [->|Hf]; cbn [negb when].
  { destruct Hin as [<-|Hin]; [done|].
    unfold mret at 1, M_ret at 1. by apply IH. }
  rewrite bind_run. unfold lift at 1. rewrite Hc.
  destruct c as [x|l].
  - destruct Hin as [->|Hin]; [congruence|].
    rewrite bind_run. unfold lift at 1. cbn [parse_cell].
    destruct (Parse.parse_outcome rt x) as [[v ->]| ->].
    + unfold global_setitem at 1, update_global_params at 1.
      destruct (IH Hin (State (configs s) (<[i := v]> (global_params s))
                          (params s) (previous_outFolder s)
                          (trace s))) as (e & s' & -> & He & Ht).
      eauto.
    + eauto 6.
  - rewrite bind_run. unfold lift at 1. cbn [parse_cell]. eauto 6.
Qed.

(** The body of the first loop at a block with a repeated label, when
    the label is [function] or the block is one of global parameters. *)
Lemma load_duplicate_raises cfg k s :
  In "function" (List.map fst cfg) ->
  (2 <= occurrences k cfg)%nat ->
  stops_first_loop cfg = true ->
  exists e s',
    load_global_parameters rt verbose cfg s = (Raise e, s')
    /\ (e = ValueError \/ e = IndexError)
    /\ trace s' = trace s.
Proof.
  intros Hf Hk Hs.
  destruct (series_getitem_label _ _ Hf) as [c Hc].
  unfold stops_first_loop in Hs. rewrite Hc in Hs.
  unfold load_global_parameters. rewrite bind_run. unfold lift at 1.
  rewrite Hc. destruct c as [f|l].
  - apply String.eqb_eq in Hs as ->.
    rewrite bind_run. unfold lift at 1. cbn [cell_eq].
    rewrite String.eqb_refl. cbn [when]. rewrite bind_run.
    destruct (series_getitem_twice _ _ Hk) as [dup Hdup].
    assert (k <> "function") as Hne by (intros ->; congruence).
    pose proof (series_getitem_In _ _ _ Hdup) as Hin.
    assert (Forall (fun i => exists c, series_getitem cfg i = Done c)
              (List.map fst cfg)) as Hall.
    { apply List.Forall_forall. apply series_getitem_label. }
    destruct (global_loop_raises cfg k dup (List.map fst cfg) s
                Hdup Hne Hin Hall) as (e & s' & -> & He & Ht).
    eauto.
  - rewrite bind_run. unfold lift at 1. cbn [cell_eq]. eauto 6.
Qed.

(** The body of the first loop at the block of a stage. *)
Lemma load_stage_block cfg s :
  stops_first_loop cfg = false ->
  load_global_parameters rt verbose cfg s = (Done (), s)
  /\ exists function, series_getitem cfg "function" = Done (Scalar function)
       /\ function <> "GLOBAL_PARAMETERS".
Proof.
  unfold stops_first_loop, load_global_parameters.
  destruct (series_getitem cfg "function") as [[f|l]| |] eqn:E; try done.
  intros Hf. rewrite bind_run. unfold lift at 1.
  rewrite bind_run. unfold lift at 1. cbn [cell_eq]. rewrite Hf.
  split; [done|]. exists f. split; [done|]. by apply String.eqb_neq.
Qed.

(** The first loop leaves the list of the blocks as it is. *)
Lemma first_loop_same_configs cs s :
  configs (for_each cs (load_global_parameters rt verbose) s).2 = configs s.
Proof.
  assert (frames same_configs
            (for_each cs (load_global_parameters rt verbose))) as H
    by (frames_with no_special atom_trivial).
  apply H.
Qed.

Lemma has_label_In k (cfg : series) :
  has_label k cfg = true -> In k (List.map fst cfg).
Proof.
  unfold has_label. intros H.
  apply existsb_exists in H as ([k' x] & Hin & Heq).
  apply String.eqb_eq in Heq.
  apply in_map_iff. by exists (k', x).
Qed.

(** C6: a parameter line whose key [k] is already in the block is read
    like any other parameter line: the reader goes on, with the pair
    appended to the block, and prints nothing. A run of [main] on a
    file that gives such a block never ends normally. When the label
    [function] is repeated in the block, or the block is one of global
    parameters, the run is the run of the first loop, which raises when
    it comes to the block ([ValueError], or [IndexError] at an empty
    value before the repeated key): the second loop, with the stages,
    is not entered. Otherwise
    the first loop passes, and the second loop raises in the same way
    when it comes to the block, before its stage, after the blocks
    before it. In both cases nothing is printed at the block, as long
    as none of its values has [pi] in it: such a value goes to [eval],
    whose effects are not part of the runtime. *)
Theorem duplicate_key_is_read r raw_line k v s :
  is_parameter_line r raw_line = true ->
  nth_item (split ":" (before_hash (squeezed raw_line))) 1 = Done v ->
  nth_item (split ":" (squeezed raw_line)) 0 = Done k ->
  has_label k (config r) = true ->
  let block : series := (config r ++ [(k, v)])%list in
  read_line config_File verbose r raw_line s = (Done (Reader true block), s)
  /\ forall (rest : series) infile s0 s1 (pre post : list series),
       let cfg : series := (block ++ rest)%list in
       let first := load_global_parameters rt verbose in
       let second := run_block rt inputPath verbose in
       let run := main rt config_File inputPath verbose infile s0 in
       read_config_file config_File verbose infile s0 = (Done (), s1) ->
       configs s1 = (pre ++ cfg :: post)%list ->
       run.1 <> Done ()
       /\ if stops_first_loop cfg
          then run = for_each (configs s1) first s1
               /\ forall s2,
                    for_each pre first s1 = (Done (), s2) ->
                    exists e s',
                      run = (Raise e, s')
                      /\ (e = ValueError \/ e = IndexError)
                      /\ (no_pi_block cfg = true -> trace s' = trace s2)
          else forall s2 s3,
                 for_each (configs s1) first s1 = (Done (), s2) ->
                 for_each pre second s2 = (Done (), s3) ->
                 exists e s',
                   run = (Raise e, s')
                   /\ (e = ValueError \/ e = IndexError)
                   /\ (no_pi_block cfg = true -> trace s' = trace s3).
Proof.
  intros Hp Hv Hk Hdup block. split.
  { unfold is_parameter_line in Hp. unfold squeezed in Hv, Hk.
    apply andb_true_iff in Hp as [Hp H3].
    apply andb_true_iff in Hp as [H1 H2].
    unfold read_line. destruct (strip raw_line) as [|c0 tl]; [done|].
    apply andb_true_iff in H3 as [H3 H6].
    apply andb_true_iff in H3 as [H4 H5].
    apply negb_true_iff in H4, H5, H6.
    rewrite H4, H1, H5, H2, H6.
    unfold try_except. rewrite bind_run. unfold lift at 1. rewrite Hv.
    rewrite bind_run. unfold lift at 1. by rewrite Hk. }
  intros rest infile s0 s1 pre post cfg first second run Hread Hcs.
  assert (In "function" (List.map fst cfg)) as Hfun.
  { unfold is_parameter_line in Hp.
    apply andb_true_iff in Hp as [Hp _].
    apply andb_true_iff in Hp as [Hp _].
    apply has_label_In in Hp. subst cfg block.
    rewrite !List.map_app, !in_app_iff. tauto. }
  assert (2 <= occurrences k cfg)%nat as Hocc.
  { subst cfg block. rewrite <- app_assoc. by apply occurrences_again. }
  assert (In cfg (configs s1)) as Hin.
  { rewrite Hcs. apply in_app_iff. right. by left. }
  assert (run = (for_each (configs s1) first;;
                 cs ← get configs; for_each cs second) s1) as Hrun.
  { subst run. unfold main. rewrite bind_run, Hread.
    rewrite bind_run. by unfold get at 1. }
  rewrite Hrun, bind_run. clear Hrun run.
  destruct (stops_first_loop cfg) eqn:Hstop.
  - assert (forall q, (first cfg q).1 <> Done ()) as Hcfg.
    { intros q.
      destruct (load_duplicate_raises cfg k q Hfun Hocc Hstop)
        as (e & q' & E & _). subst first. by rewrite E. }
    pose proof (for_each_stops first cfg (configs s1) Hin Hcfg s1) as Hstops.
    split; [|split].
    + by destruct (for_each (configs s1) first s1) as [[[]|c|e] s2].
    + by destruct (for_each (configs s1) first s1) as [[[]|c|e] s2].
    + clear Hstops. intros s2 Hpre.
      rewrite Hcs, for_each_app, bind_run, Hpre.
      cbn [for_each]. rewrite bind_run.
      destruct (load_duplicate_raises cfg k s2 Hfun Hocc Hstop)
        as (e & q' & E & He & Ht).
      subst first. rewrite E. eauto.
  - destruct (load_stage_block cfg s1 Hstop) as (_ & f & Hf & Hg).
    assert (forall q, exists e q',
              second cfg q = (Raise e, q')
              /\ (e = ValueError \/ e = IndexError)
              /\ trace q' = trace q) as Hcfg.
    { intros q. subst second.
      exact (run_block_duplicate_raises rt inputPath verbose
               cfg f k q Hf Hg Hocc). }
    split.
    + pose proof (first_loop_same_configs (configs s1) s1) as Hsame.
      destruct (for_each (configs s1) first s1) as [[[]|c|e] s2] eqn:E1;
        [|done..].
      fold first in Hsame. rewrite E1 in Hsame. cbn [snd] in Hsame.
      rewrite bind_run. unfold get at 1. cbv beta iota.
      apply for_each_stops with (x := cfg); [by rewrite Hsame|].
      intros q. destruct (Hcfg q) as (e & q' & E & _). by rewrite E.
    + intros s2 s3 E1 Hpre.
      pose proof (first_loop_same_configs (configs s1) s1) as Hsame.
      fold first in Hsame. rewrite E1 in *. cbn [snd] in Hsame.
      rewrite bind_run. unfold get at 1. cbv beta iota.
      rewrite Hsame, Hcs, for_each_app, bind_run, Hpre.
      cbn [for_each]. rewrite bind_run.
      destruct (Hcfg s3) as (e & q' & E & He & Ht). rewrite E. eauto.
Qed.

End WithRun.

Lemma duplicate_key_is_read_witness :
  let rt := Sample.machine None true in
  let block : series :=
    (config Sample.in_second_block ++ [("inputFolder", "/c")])%list in
  let first_block : series :=
    [("function", "COPY"); ("inputFolder", "/a"); ("outputFolder", "/b")] in
  let run := main rt "pipeline.txt" "" false Sample.duplicate_key_file initial in
  read_line "pipeline.txt" false Sample.in_second_block "inputFolder: /c" initial
  = (Done (Reader true block), initial)
  /\ run.1 <> Done ()
  /\ exists e s',
       run = (Raise e, s')
       /\ (e = ValueError \/ e = IndexError)
       /\ trace s'
          = [Run (python "src/copy_folder_contents.py"
                    ["-i"; "/a"; "--log"; ""; "-o"; ""])].
Proof.
  intros rt block first_block run.
  destruct (duplicate_key_is_read rt "pipeline.txt" "" false
              Sample.in_second_block "inputFolder: /c" "inputFolder" "/c"
              initial eq_refl eq_refl eq_refl eq_refl) as [H1 H2].
  split; [exact H1|].
  pose (s1 := State [first_block; (block ++ [("outputFolder", "/d")])%list]
                ∅ ∅ (VStr "") []).
  destruct (H2 [("outputFolder", "/d")] Sample.duplicate_key_file initial
              s1 [first_block] [] eq_refl eq_refl) as [H3 H4].
  split; [exact H3|].
  change (stops_first_loop _) with false in H4. cbv iota in H4.
  destruct (H4 s1 (run_block rt "" false first_block s1).2 eq_refl eq_refl)
    as (e & s' & E & He & Ht).
  exists e, s'. split; [exact E|]. split; [exact He|].
  exact (Ht eq_refl).
Defined.

(** A file whose second block repeats the label [function]: the run
    ends in the first loop, and the stage of the first block is not
    run. *)
Example repeated_function_stops_first_loop :
  Sample.run (Sample.machine None true) Examples.repeated_function_file
  = (Raise ValueError,
     State (configs (read_config_file "pipeline.txt" false
                       Examples.repeated_function_file initial).2)
       ∅ ∅ (VStr "") []).
Proof. by vm_compute. Qed.

(** The same with a key repeated in a block of global parameters. *)
Example repeated_global_key_stops_first_loop :
  Sample.run (Sample.machine None true) Examples.repeated_global_file
  = (Raise ValueError,
     State (configs (read_config_file "pipeline.txt" false
                       Examples.repeated_global_file initial).2)
       ∅ ∅ (VStr "") []).
Proof. by vm_compute. Qed.

End Duplicates.

(** ** The options of the command line *)

Module CommandLine.
Import PyStr Run Msg Options Laws.

Definition is_help (x : string * string) : bool :=
  in_list x.1 ["-h"; "--help"].
Definition is_config (x : string * string) : bool :=
  in_list x.1 ["-c"; "--config"].

(** The state after some lines on the standard output. *)
Definition printed_lines (lines : list string) (s : state) : state :=
  State (configs s) (global_params s) (params s) (previous_outFolder s)
        (trace s ++ List.map Print lines)%list.

Lemma for_each_print lines s :
  for_each lines print s = (Done (), printed_lines lines s).
Proof.
  revert s. induction lines as [|l lines IH]; intros s.
  - unfold printed_lines. cbn. rewrite app_nil_r. by destruct s.
  - cbn [for_each]. rewrite bind_run. unfold print at 1, emit at 1.
    rewrite IH. unfold printed_lines. cbn. by rewrite <- app_assoc.
Qed.

(** An option that is not the help goes on, and says nothing. *)
Lemma set_option_plain o opt arg s :
  is_help (opt, arg) = false ->
  exists o', set_option o opt arg s = (Done o', s)
    /\ configFile o' =
         if is_config (opt, arg) then arg else configFile o.
Proof.
  unfold is_help, is_config, set_option. cbn [fst]. intros ->.
  repeat match goal with
         | |- context [if ?b then _ else _] => destruct b
         end; by eexists.
Qed.

Lemma set_options_help o opts s :
  existsb is_help opts = true ->
  set_options o opts s = (Exit None, printed_lines help s).
Proof.
  revert o. induction opts as [|[opt arg] rest IH]; intros o; [done|].
  cbn [existsb set_options]. rewrite bind_run.
  destruct (is_help (opt, arg)) eqn:E.
  - intros _. unfold set_option. unfold is_help in E. cbn [fst] in E.
    rewrite E. rewrite bind_run, for_each_print. done.
  - cbn [orb]. intros H.
    destruct (set_option_plain o opt arg s E) as (o' & -> & _). by apply IH.
Qed.

(** X20: with [-h] or [--help] anywhere among the options, the help page
    is printed and the run exits without a code: the other options and
    the configuration file are not looked at. *)
Theorem help_wins isfile opts s :
  existsb is_help opts = true ->
  startup isfile (Some opts) s = (Exit None, printed_lines help s).
Proof.
  intros H. unfold startup, read_options.
  by rewrite bind_run, set_options_help.
Qed.

Lemma set_options_config o opts s :
  existsb is_help opts = false ->
  exists o', set_options o opts s = (Done o', s)
    /\ (existsb is_config opts = false -> configFile o' = configFile o)
    /\ (forall pre c arg post,
          opts = (pre ++ (c, arg) :: post)%list ->
          is_config (c, arg) = true -> existsb is_config post = false ->
          configFile o' = arg).
Proof.
  revert o. induction opts as [|[opt arg] rest IH]; intros o.
  { intros _. exists o. split; [done|]. split; [done|].
    intros [|? ?] ? ? ? [=]. }
  cbn [existsb]. intros H. apply orb_false_iff in H as [H1 H2].
  cbn [set_options]. rewrite bind_run.
  destruct (set_option_plain o opt arg s H1) as (o1 & -> & Hc).
  destruct (IH o1 H2) as (o' & -> & Hn & Hl).
  exists o'. split; [done|]. split.
  - intros H. apply orb_false_iff in H as [H3 H4].
    rewrite (Hn H4), Hc. by rewrite H3.
  - intros [|x pre] c a post E Hcfg Hpost.
    + injection E as ? ? ?; subst. rewrite (Hn Hpost), Hc. by rewrite Hcfg.
    + injection E as ? ?; subst. by eapply Hl.
Qed.

(** X21: without help and without [-c] or [--config], the run exits with
    code 2 after the message about the missing configuration file. *)
Theorem missing_configuration_file isfile opts s :
  existsb is_help opts = false ->
  existsb is_config opts = false ->
  startup isfile (Some opts) s
  = (Exit (Some 2), printed_lines [missing_config] s).
Proof.
  intros H1 H2. unfold startup, read_options. rewrite bind_run.
  destruct (set_options_config start opts s H1) as (o & -> & Hn & _).
  rewrite bind_run. unfold check_config_file. rewrite (Hn H2). done.
Qed.

(** X22: the last [-c] or [--config] gives the configuration file. When
    the file is there, the run goes on with it; when it is not, the run
    exits with code 2 after a message with its name. *)
Theorem last_configuration_file_wins isfile pre c file post s :
  existsb is_help (pre ++ (c, file) :: post) = false ->
  is_config (c, file) = true ->
  existsb is_config post = false ->
  file <> "" ->
  let run := startup isfile (Some (pre ++ (c, file) :: post)%list) s in
  if isfile file
  then exists o, run = (Done o, s) /\ configFile o = file
  else run = (Exit (Some 2), printed_lines [config_not_found file] s).
Proof.
  intros H1 H2 H3 Hne run. subst run. unfold startup, read_options.
  rewrite bind_run.
  destruct (set_options_config start _ s H1) as (o & -> & _ & Hl).
  rewrite bind_run. unfold check_config_file.
  rewrite (Hl pre c file post eq_refl H2 H3).
  apply String.eqb_neq in Hne. rewrite Hne.
  destruct (isfile file); cbn [negb].
  - exists o. split; [by destruct s|]. by apply (Hl pre c file post).
  - done.
Qed.
Lemma help_wins_witness :
  startup Examples.any_file (Some [("-c", "pipeline.txt"); ("-h", "")]) Orchestrator.initial
  = (Exit None, printed_lines help Orchestrator.initial).
Proof.
  apply (help_wins Examples.any_file [("-c", "pipeline.txt"); ("-h", "")]
           Orchestrator.initial).
  reflexivity.
Defined.

Lemma missing_configuration_file_witness :
  startup Examples.any_file (Some [("-v", ""); ("-i", "/data")]) Orchestrator.initial
  = (Exit (Some 2), printed_lines [missing_config] Orchestrator.initial).
Proof.
  apply (missing_configuration_file Examples.any_file
           [("-v", ""); ("-i", "/data")] Orchestrator.initial);
    reflexivity.
Defined.

Lemma last_configuration_file_wins_witness :
  let run := startup Examples.any_file
               (Some ([("-c", "first.txt")] ++ ("--config", "last.txt")
                      :: [("-v", "")])%list) Orchestrator.initial in
  if Examples.any_file "last.txt"
  then exists o, run = (Done o, Orchestrator.initial) /\ configFile o = "last.txt"
  else run = (Exit (Some 2),
              printed_lines [config_not_found "last.txt"] Orchestrator.initial).
Proof.
  apply (last_configuration_file_wins Examples.any_file
           [("-c", "first.txt")] "--config" "last.txt" [("-v", "")] Orchestrator.initial);
    first [ reflexivity | discriminate ].
Defined.

End CommandLine.
